(** * json_explorer: a shallow embedding of the chunked map-reduce query engine

    The development follows the Python package [json_explorer]
    (trace.py, chunker.py, query_planner.py, executor.py, aggregator.py,
    citation.py, core.py).  Python [str] values are modelled as [string]
    over 8-bit characters (ASCII text), Python [int] values as [Z] or
    [nat] where the source only produces non-negative numbers, [Optional]
    as [option], lists as [list], the executor's result cache (a [dict]
    used as a map) as a [gmap string], and dicts whose iteration order
    matters as association lists.  Wall-clock values (timestamps of trace
    entries, durations) are not part of the model. *)

From Stdlib Require Import ZArith List String Ascii Bool Arith Lia.
From Stdlib Require Import DecimalString DecimalNat DecimalFacts.
From stdpp Require Import base gmap strings sorting.
Import ListNotations.

Local Open Scope list_scope.
Local Open Scope string_scope.

(** ** Python string primitives *)

Module PyStr.

(** [str(n)] for a non-negative [int]. *)
Definition str_of_nat (n : nat) : string :=
  NilEmpty.string_of_uint (Nat.to_uint n).

(** [str(z)] for an [int]. *)
Definition str_of_Z (z : Z) : string :=
  NilEmpty.string_of_int (Z.to_int z).

(** [int(s)] for a string of decimal digits; [None] stands for
    [ValueError]. *)
Definition int_of_str (s : string) : option nat :=
  match s with
  | EmptyString => None
  | _ => match NilEmpty.uint_of_string s with
         | Some d => Some (Nat.of_uint d)
         | None => None
         end
  end.

Definition lower_ascii (c : ascii) : ascii :=
  let n := N_of_ascii c in
  if ((65 <=? n) && (n <=? 90))%N then ascii_of_N (n + 32) else c.

(** [s.lower()] *)
Fixpoint lower (s : string) : string :=
  match s with
  | EmptyString => EmptyString
  | String c s' => String (lower_ascii c) (lower s')
  end.

(** [c.isspace()] on ASCII: tab, newline, vertical tab, form feed,
    carriage return, the four separators 0x1c-0x1f, and space. *)
Definition is_space (c : ascii) : bool :=
  let n := N_of_ascii c in
  (((9 <=? n) && (n <=? 13)) || ((28 <=? n) && (n <=? 32)))%N.

Definition is_digit (c : ascii) : bool :=
  let n := N_of_ascii c in ((48 <=? n) && (n <=? 57))%N.

(** [s.startswith(p)] *)
Definition startswith (p s : string) : bool := String.prefix p s.

(** [sub in s] *)
Fixpoint contains (sub s : string) : bool :=
  String.prefix sub s ||
  match s with
  | EmptyString => false
  | String _ s' => contains sub s'
  end.

(** [s[:n]] *)
Fixpoint take (n : nat) (s : string) : string :=
  match n, s with
  | S n', String c s' => String c (take n' s')
  | _, _ => EmptyString
  end.

(** [s[n:]] *)
Fixpoint drop (n : nat) (s : string) : string :=
  match n, s with
  | S n', String _ s' => drop n' s'
  | _, _ => s
  end.

(** [sep.join(parts)] *)
Definition join (sep : string) (parts : list string) : string :=
  String.concat sep parts.

Fixpoint rev_acc (s acc : string) : string :=
  match s with
  | EmptyString => acc
  | String c s' => rev_acc s' (String c acc)
  end.

Definition rev (s : string) : string := rev_acc s EmptyString.

Fixpoint lstrip_by (p : ascii -> bool) (s : string) : string :=
  match s with
  | EmptyString => EmptyString
  | String c s' => if p c then lstrip_by p s' else s
  end.

(** [s.strip(chars)], with the stripped characters given as a
    predicate. *)
Definition strip_by (p : ascii -> bool) (s : string) : string :=
  rev (lstrip_by p (rev (lstrip_by p s))).

(** [s.strip()] *)
Definition strip (s : string) : string := strip_by is_space s.

(** [s.split()]: the maximal runs of non-whitespace characters.
    [cur] holds the current run, reversed. *)
Fixpoint split_ws_aux (s cur : string) : list string :=
  match s with
  | EmptyString =>
      match cur with EmptyString => [] | _ => [rev cur] end
  | String c s' =>
      if is_space c
      then match cur with
           | EmptyString => split_ws_aux s' EmptyString
           | _ => rev cur :: split_ws_aux s' EmptyString
           end
      else split_ws_aux s' (String c cur)
  end.

Definition split_ws (s : string) : list string := split_ws_aux s EmptyString.

(** [s.split(sep)] for a one-character separator. *)
Fixpoint split_chr_aux (sep : ascii) (s cur : string) : list string :=
  match s with
  | EmptyString => [rev cur]
  | String c s' =>
      if Ascii.eqb c sep
      then rev cur :: split_chr_aux sep s' EmptyString
      else split_chr_aux sep s' (String c cur)
  end.

Definition split_chr (sep : ascii) (s : string) : list string :=
  split_chr_aux sep s EmptyString.

(** [s.replace(c, "")] for a one-character [c]. *)
Fixpoint remove_chr (x : ascii) (s : string) : string :=
  match s with
  | EmptyString => EmptyString
  | String c s' =>
      if Ascii.eqb c x then remove_chr x s' else String c (remove_chr x s')
  end.

(** The string of [n] copies of [c]. *)
Fixpoint replicate (n : nat) (c : ascii) : string :=
  match n with
  | O => EmptyString
  | S n' => String c (replicate n' c)
  end.

Definition nl : string := String (ascii_of_nat 10) EmptyString.

End PyStr.

(** ** Python list primitives *)

Module PyList.

(** Python's [l[i:j]] for integers [i], [j] of either sign. *)
Definition norm_index (len i : Z) : Z :=
  (if i <? 0 then Z.max 0 (len + i) else Z.min i len)%Z.

Definition slice {A} (l : list A) (i j : Z) : list A :=
  let len := Z.of_nat (length l) in
  let i' := norm_index len i in
  let j' := norm_index len j in
  firstn (Z.to_nat (j' - i')) (skipn (Z.to_nat i') l).

(** [sorted(l, key=...)] and [l.sort(key=...)]: a stable sort, with the
    order on keys given as [le]. *)
Section Sorting.
Context {A : Type} (le : A -> A -> bool).

Fixpoint insert_sorted (x : A) (l : list A) : list A :=
  match l with
  | [] => [x]
  | y :: l' => if le x y then x :: l else y :: insert_sorted x l'
  end.

Definition sorted_by (l : list A) : list A :=
  fold_right insert_sorted [] l.
End Sorting.

(** [enumerate(l, i)] *)
Fixpoint enumerate_from {A} (i : nat) (l : list A) : list (nat * A) :=
  match l with
  | [] => []
  | x :: l' => (i, x) :: enumerate_from (S i) l'
  end.

End PyList.

(** ** trace.py *)

Module Trace.

Inductive TraceEventType :=
| QUERY_START | QUERY_END
| SCHEMA_ANALYSIS_START | SCHEMA_ANALYSIS_END
| PLAN_START | PLAN_END | PLAN_DECISION
| CHUNK_START | CHUNK_END | CHUNK_SKIP
| LLM_CALL_START | LLM_CALL_END | LLM_CALL_ERROR
| AGGREGATE_START | AGGREGATE_END
| CITATION_EXTRACT | CITATION_VERIFY
| ERROR | WARNING | INFO.

#[global] Instance TraceEventType_eq_dec : EqDecision TraceEventType.
Proof. solve_decision. Defined.

(** [TraceEntry]; the [timestamp], [duration_ms] and the free-form
    [data] payload are not modelled. *)
Record TraceEntry := mkEntry {
  event_type : TraceEventType;
  message : string;
  tokens_used : option Z
}.

Record ExecutionTrace := mkTrace {
  query : string;
  entries : list TraceEntry;
  total_tokens : Z;
  total_llm_calls : Z;
  chunks_processed : Z;
  chunks_skipped : Z;
  answer : option string;
  error : option string
}.

(** A trace as the dataclass defaults build it. *)
Definition new_trace (q : string) : ExecutionTrace :=
  {| query := q; entries := []; total_tokens := 0; total_llm_calls := 0;
     chunks_processed := 0; chunks_skipped := 0;
     answer := None; error := None |}.

(** Python truthiness of an [Optional[int]]. *)
Definition truthy (o : option Z) : bool :=
  match o with
  | Some n => negb (n =? 0)%Z
  | None => false
  end.

Definition or_zero (o : option Z) : Z :=
  match o with Some n => n | None => 0%Z end.

Definition bump (b : bool) (n : Z) : Z := if b then (n + 1)%Z else n.

Definition add_entry (t : ExecutionTrace) (ev : TraceEventType)
    (msg : string) (tok : option Z) : ExecutionTrace :=
  {| query := query t;
     entries := entries t ++ [mkEntry ev msg tok];
     total_tokens :=
       if truthy tok then (total_tokens t + or_zero tok)%Z
       else total_tokens t;
     total_llm_calls :=
       bump (bool_decide (ev = LLM_CALL_END)) (total_llm_calls t);
     chunks_processed :=
       bump (bool_decide (ev = CHUNK_END)) (chunks_processed t);
     chunks_skipped :=
       bump (bool_decide (ev = CHUNK_SKIP)) (chunks_skipped t);
     answer := answer t;
     error := error t |}.

Definition log_error (t : ExecutionTrace) (err : string) : ExecutionTrace :=
  add_entry
    {| query := query t; entries := entries t;
       total_tokens := total_tokens t;
       total_llm_calls := total_llm_calls t;
       chunks_processed := chunks_processed t;
       chunks_skipped := chunks_skipped t;
       answer := answer t; error := Some err |}
    ERROR err None.

Definition log_query_start (t : ExecutionTrace) (q : string)
  : ExecutionTrace :=
  add_entry t QUERY_START ("Starting query: " ++ PyStr.take 100 q ++ "...")
            None.

(** [log_query_end]; the entry carries no token count. *)
Definition log_query_end (t : ExecutionTrace) (ans : string)
  : ExecutionTrace :=
  add_entry
    {| query := query t; entries := entries t;
       total_tokens := total_tokens t;
       total_llm_calls := total_llm_calls t;
       chunks_processed := chunks_processed t;
       chunks_skipped := chunks_skipped t;
       answer := Some ans; error := error t |}
    QUERY_END "Query completed successfully" None.

(** One [add_entry] call, as data. *)
Definition call : Type := TraceEventType * string * option Z.

Definition entry_of_call (c : call) : TraceEntry :=
  let '(ev, msg, tok) := c in mkEntry ev msg tok.

Definition add_call (t : ExecutionTrace) (c : call) : ExecutionTrace :=
  let '(ev, msg, tok) := c in add_entry t ev msg tok.

Definition add_entries (t : ExecutionTrace) (cs : list call)
  : ExecutionTrace :=
  fold_left add_call cs t.

Definition sum_tokens (es : list TraceEntry) : Z :=
  fold_right (fun e acc => (or_zero (tokens_used e) + acc)%Z) 0%Z es.

Definition count_event (ev : TraceEventType) (es : list TraceEntry) : Z :=
  Z.of_nat (length (List.filter (fun e => bool_decide (event_type e = ev)) es)).

(** The running totals agree with the entry list. *)
Definition consistent (t : ExecutionTrace) : Prop :=
  total_tokens t = sum_tokens (entries t) /\
  total_llm_calls t = count_event LLM_CALL_END (entries t) /\
  chunks_processed t = count_event CHUNK_END (entries t) /\
  chunks_skipped t = count_event CHUNK_SKIP (entries t).

End Trace.

(** ** The fragment of Python's [re] used by the package

    A backtracking matcher in continuation-passing style: alternatives
    are tried left to right, a greedy repetition tries the longest
    repetition first and a lazy one the shortest, as Python's engine
    does.  Repetition is over a character class, which is all the
    patterns of the package need. *)

Module Re.

Inductive re :=
| Eps
| Chr (p : ascii -> bool)
| Cat (r1 r2 : re)
| Alt (r1 r2 : re)
| Star (greedy : bool) (p : ascii -> bool)
| Group (n : nat) (r : re)
| Eol.

(** Captured groups, most recent first. *)
Definition caps : Type := list (nat * string).

Fixpoint group (n : nat) (cs : caps) : string :=
  match cs with
  | [] => EmptyString
  | (m, s) :: cs' => if Nat.eqb m n then s else group n cs'
  end.

Definition at_eol (s : string) : bool :=
  match s with
  | EmptyString => true
  | String c EmptyString => Ascii.eqb c (ascii_of_nat 10)
  | _ => false
  end.

Definition or_else {A} (x y : option A) : option A :=
  match x with Some a => Some a | None => y end.

Fixpoint exec {A} (r : re) (s : string) (cs : caps)
    (k : string -> caps -> option A) {struct r} : option A :=
  match r with
  | Eps => k s cs
  | Chr p =>
      match s with
      | String c s' => if p c then k s' cs else None
      | EmptyString => None
      end
  | Cat r1 r2 => exec r1 s cs (fun s' cs' => exec r2 s' cs' k)
  | Alt r1 r2 => or_else (exec r1 s cs k) (exec r2 s cs k)
  | Star true p =>
      (fix more (s : string) : option A :=
         match s with
         | String c s' =>
             if p c then or_else (more s') (k s cs) else k s cs
         | EmptyString => k s cs
         end) s
  | Star false p =>
      (fix more (s : string) : option A :=
         or_else (k s cs)
           match s with
           | String c s' => if p c then more s' else None
           | EmptyString => None
           end) s
  | Group n r' =>
      exec r' s cs
        (fun s' cs' =>
           k s' ((n, PyStr.take (String.length s - String.length s') s)
                   :: cs'))
  | Eol => if at_eol s then k s cs else None
  end.

(** A match: the captured groups and the text after the match end. *)
Definition rmatch : Type := caps * string.

(** [re.match(r, s)] *)
Definition match_at (r : re) (s : string) : option rmatch :=
  exec r s [] (fun s' cs => Some (cs, s')).

(** [re.search(r, s)] *)
Fixpoint search (r : re) (s : string) : option rmatch :=
  or_else (match_at r s)
    match s with
    | String _ s' => search r s'
    | EmptyString => None
    end.

(** [re.finditer(r, s)]: the non-overlapping matches, left to right.
    [skip] counts the characters of the previous match still to pass. *)
Fixpoint finditer_aux (r : re) (s : string) (skip : nat) : list rmatch :=
  match skip with
  | S k =>
      match s with
      | String _ s' => finditer_aux r s' k
      | EmptyString => []
      end
  | O =>
      match match_at r s with
      | Some (cs, rest) =>
          (cs, rest) ::
          match s with
          | String _ s' =>
              finditer_aux r s'
                (Nat.pred (String.length s - String.length rest))
          | EmptyString => []
          end
      | None =>
          match s with
          | String _ s' => finditer_aux r s' 0
          | EmptyString => []
          end
      end
  end.

Definition finditer (r : re) (s : string) : list rmatch :=
  finditer_aux r s 0.

(** Pattern builders. *)
Definition any : ascii -> bool := fun _ => true.
Definition is_nl (c : ascii) : bool := Ascii.eqb c (ascii_of_nat 10).
Definition not_nl (c : ascii) : bool := negb (is_nl c).
Definition one_of (cl : string) (c : ascii) : bool :=
  PyStr.contains (String c EmptyString) cl.

Fixpoint seq (rs : list re) : re :=
  match rs with
  | [] => Eps
  | [r] => r
  | r :: rs' => Cat r (seq rs')
  end.

Fixpoint alts (rs : list re) : re :=
  match rs with
  | [] => Eps
  | [r] => r
  | r :: rs' => Alt r (alts rs')
  end.

(** A literal string. *)
Fixpoint lit (s : string) : re :=
  match s with
  | EmptyString => Eps
  | String c EmptyString => Chr (Ascii.eqb c)
  | String c s' => Cat (Chr (Ascii.eqb c)) (lit s')
  end.

(** A literal string under [re.IGNORECASE]. *)
Fixpoint lit_ci (s : string) : re :=
  let same c x := Ascii.eqb (PyStr.lower_ascii c) (PyStr.lower_ascii x) in
  match s with
  | EmptyString => Eps
  | String c EmptyString => Chr (same c)
  | String c s' => Cat (Chr (same c)) (lit_ci s')
  end.

Definition opt (r : re) : re := Alt r Eps.
Definition star (p : ascii -> bool) : re := Star true p.
Definition plus (p : ascii -> bool) : re := Cat (Chr p) (Star true p).
Definition plus_lazy (p : ascii -> bool) : re := Cat (Chr p) (Star false p).

End Re.

(** ** query_planner.py *)

Module Planner.

Inductive QueryIntent :=
| SEARCH | SUMMARIZE | COUNT | ANALYZE | EXTRACT | COMPARE | TIMELINE
| EXHAUSTIVE_EXTRACT.

#[global] Instance QueryIntent_eq_dec : EqDecision QueryIntent.
Proof. solve_decision. Defined.

(** [any(ind in text for ind in inds)] *)
Definition any_in (inds : list string) (text : string) : bool :=
  existsb (fun ind => PyStr.contains ind text) inds.

Definition exhaustive_indicators : list string :=
  [ "what are people saying"; "everything about"; "all mentions";
    "every mention"; "everything said about"; "all the discussions";
    "comprehensive"; "exhaustive"; "each instance"; "every single";
    "all instances"; "cite all"; "full context" ].

Definition on_about_regarding : Re.re :=
  Re.alts [Re.lit "on"; Re.lit "about"; Re.lit "regarding"].

Definition opinion_patterns : list Re.re :=
  [ Re.seq [ Re.lit "what ";
             Re.alts [Re.lit "do"; Re.lit "are"; Re.lit "did"];
             Re.lit " ";
             Re.alts [ Re.lit "people"; Re.lit "they";
                       Re.Cat (Re.lit "user") (Re.opt (Re.lit "s"));
                       Re.Cat (Re.lit "member") (Re.opt (Re.lit "s")) ];
             Re.lit " ";
             Re.alts [Re.lit "say"; Re.lit "think"; Re.lit "mention"] ];
    Re.seq [Re.lit "opinion"; Re.opt (Re.lit "s"); Re.lit " ";
            on_about_regarding];
    Re.seq [Re.lit "thought"; Re.opt (Re.lit "s"); Re.lit " ";
            on_about_regarding];
    Re.seq [Re.lit "feedback "; on_about_regarding];
    Re.seq [Re.lit "discussion "; on_about_regarding] ].

Definition search_indicators : list string :=
  ["find"; "search"; "look for"; "where"; "who said"; "mentions"].
Definition count_indicators : list string :=
  ["how many"; "count"; "number of"; "total"].
Definition timeline_indicators : list string :=
  ["when"; "timeline"; "over time"; "history"; "chronological"].
Definition compare_indicators : list string :=
  ["compare"; "difference"; "versus"; "vs"; "between"].
Definition extract_indicators : list string :=
  ["extract"; "list"; "get all"; "show me all"].
Definition summarize_indicators : list string :=
  ["summarize"; "summary"; "main topics"; "what about"; "discuss"].

Definition _detect_intent (query : string) : QueryIntent :=
  let query_lower := PyStr.lower query in
  if any_in exhaustive_indicators query_lower then EXHAUSTIVE_EXTRACT
  else if existsb (fun p => bool_decide (is_Some (Re.search p query_lower)))
                  opinion_patterns
       then EXHAUSTIVE_EXTRACT
  else if any_in search_indicators query_lower then SEARCH
  else if any_in count_indicators query_lower then COUNT
  else if any_in timeline_indicators query_lower then TIMELINE
  else if any_in compare_indicators query_lower then COMPARE
  else if any_in extract_indicators query_lower then EXTRACT
  else if any_in summarize_indicators query_lower then SUMMARIZE
  else if PyStr.contains "?" query
          || existsb (fun p => PyStr.startswith p query_lower)
                     ["what"; "why"; "how"]
       then ANALYZE
  else SUMMARIZE.

(** [FilterCriteria], with the fields the executor reads. *)
Record FilterCriteria := mkFilter {
  keywords : list string;
  channel_filter : option string;
  author_filter : option string
}.

(** [QueryPlan]; the token estimate and the reasoning text, which are
    only reported, are left out. *)
Record QueryPlan := mkPlan {
  query : string;
  intent : QueryIntent;
  filter_criteria : FilterCriteria;
  require_full_scan : bool;
  chunk_limit : option nat;
  parallel_ok : bool;
  chunk_prompt : string;
  aggregate_prompt : string;
  estimated_chunks : option nat
}.

(** [intent.value] *)
Definition intent_value (i : QueryIntent) : string :=
  match i with
  | SEARCH => "search"
  | SUMMARIZE => "summarize"
  | COUNT => "count"
  | ANALYZE => "analyze"
  | EXTRACT => "extract"
  | COMPARE => "compare"
  | TIMELINE => "timeline"
  | EXHAUSTIVE_EXTRACT => "exhaustive"
  end.

End Planner.


(** ** Outcomes of loops that may raise or not end *)

Module Outcome.

(** The outcome of running a loop of the source to its end: a value,
    a raised exception, or no result within the given number of
    iterations. *)
Inductive res (A : Type) :=
| Done (a : A)
| Raised (e : string)
| Timeout.
Arguments Done {A} a.
Arguments Raised {A} e.
Arguments Timeout {A}.

Definition res_bind {A B} (x : res A) (f : A -> res B) : res B :=
  match x with
  | Done a => f a
  | Raised e => Raised e
  | Timeout => Timeout
  end.

End Outcome.

(** ** chunker.py *)

Module Chunker.

Import Outcome.

(** A record: a JSON object, here with string values, as the list of
    its fields. *)
Definition record : Type := list (string * string).

(** [r.get(k)] *)
Fixpoint get_opt (r : record) (k : string) : option string :=
  match r with
  | [] => None
  | (k', v) :: r' => if String.eqb k' k then Some v else get_opt r' k
  end.

(** [r.get(k, default)] *)
Definition get (r : record) (k default : string) : string :=
  match get_opt r k with Some v => v | None => default end.

Inductive JsonFormat :=
| DISCORD | SLACK | TWITTER | GENERIC_ARRAY | GENERIC_OBJECT | JSONL
| UNKNOWN.

Inductive ChunkingStrategy :=
| AUTO | RECORDS | TIME_BASED | SIZE_BASED | FIELD_BASED.

#[global] Instance ChunkingStrategy_eq_dec : EqDecision ChunkingStrategy.
Proof. solve_decision. Defined.

Record JsonSchema := mkSchema {
  format : JsonFormat;
  timestamp_field : option string;
  content_field : option string
}.

Record Chunk := mkChunk {
  index : nat;
  total_chunks : option nat;
  records : list record;
  text_content : string;
  record_count : nat;
  start_record_index : Z;
  end_record_index : Z;
  char_count : nat;
  group_key : option string;
  group_value : option string;
  start_timestamp : option string;
  end_timestamp : option string
}.

(** The constructor arguments of [JsonChunker]; [strategy] is the
    resolved [_auto_strategy].  [records_per_chunk], [max_chunk_size]
    and [overlap] are taken non-negative. *)
Record JsonChunker := mkChunker {
  schema : JsonSchema;
  max_chunk_size : nat;
  strategy : ChunkingStrategy;
  group_field : option string;
  records_per_chunk : nat;
  overlap : nat
}.

(** [_detect_strategy], which resolves [AUTO] in the constructor. *)
Definition _detect_strategy (s : JsonSchema) : ChunkingStrategy :=
  let has_ts :=
    match timestamp_field s with
    | Some tf => negb (String.eqb tf EmptyString)
    | None => false
    end in
  match format s with
  | DISCORD => if has_ts then TIME_BASED else RECORDS
  | SLACK => TIME_BASED
  | _ => if has_ts then TIME_BASED else SIZE_BASED
  end.

(** The constructor [JsonChunker(...)]. *)
Definition new_chunker (s : JsonSchema) (max_size : nat)
    (strat : ChunkingStrategy) (gf : option string) (rpc ov : nat)
  : JsonChunker :=
  {| schema := s; max_chunk_size := max_size;
     strategy := if bool_decide (strat = AUTO) then _detect_strategy s
                 else strat;
     group_field := gf; records_per_chunk := rpc; overlap := ov |}.

(** [_format_slack_message] *)
Definition _format_slack_message (r : record) : string :=
  "[" ++ get r "ts" "" ++ "] " ++ get r "user" "Unknown" ++ ": "
      ++ get r "text" "".

(** [min(xs)] and [max(xs)] on a non-empty list of strings. *)
Definition str_min (a b : string) : string := if String.leb a b then a else b.
Definition str_max (a b : string) : string := if String.leb a b then b else a.

Definition min_of (xs : list string) : option string :=
  match xs with
  | [] => None
  | x :: xs' => Some (fold_left str_min xs' x)
  end.

Definition max_of (xs : list string) : option string :=
  match xs with
  | [] => None
  | x :: xs' => Some (fold_left str_max xs' x)
  end.

Definition nonempty_str (s : string) : bool :=
  negb (String.eqb s EmptyString).

(** [sorted(l, key=key)] for string keys. *)
Definition sorted_by_key {A} (key : A -> string) (l : list A) : list A :=
  PyList.sorted_by (fun x y => String.leb (key x) (key y)) l.

(** [groups[k].append(r)] on a dict in insertion order, creating the
    entry when [k] is new. *)
Fixpoint group_add (k : string) (r : record)
    (groups : list (string * list record)) : list (string * list record) :=
  match groups with
  | [] => [(k, [r])]
  | (k', rs) :: groups' =>
      if String.eqb k' k then (k', (rs ++ [r])%list) :: groups'
      else (k', rs) :: group_add k r groups'
  end.

Definition group_by (key : record -> string) (rs : list record)
  : list (string * list record) :=
  fold_left (fun groups r => group_add (key r) r groups) rs [].

Section WithChunker.
Variable self : JsonChunker.
(** [_format_record]: the source dispatches on [schema.format] to
    the Discord, Slack or generic (JSON) formatter; the chunking
    functions only use its result as text. *)
Variable _format_record : record -> string.

Definition _create_chunk (recs : list record) (idx : nat)
    (total : nat) (start_idx : Z) (gk gv : option string) : Chunk :=
  let text := PyStr.join (PyStr.nl ++ PyStr.nl) (map _format_record recs) in
  let timestamps :=
    match timestamp_field (schema self) with
    | Some tf =>
        if nonempty_str tf
        then List.filter nonempty_str (map (fun r => get r tf "") recs)
        else []
    | None => []
    end in
  {| index := idx;
     total_chunks := Some total;
     records := recs;
     text_content := text;
     record_count := length recs;
     start_record_index := start_idx;
     end_record_index := (start_idx + Z.of_nat (length recs) - 1)%Z;
     char_count := String.length text;
     group_key := gk;
     group_value := gv;
     start_timestamp := min_of timestamps;
     end_timestamp := max_of timestamps |}.

(** The [while] loop of [_chunk_by_records]. *)
Fixpoint records_loop (fuel : nat) (recs : list record) (total : nat)
    (start : Z) (chunk_index : nat) : res (list Chunk) :=
  if (start <? Z.of_nat (length recs))%Z then
    match fuel with
    | O => Timeout
    | S fuel' =>
        let end_ :=
          Z.min (start + Z.of_nat (records_per_chunk self))
                (Z.of_nat (length recs)) in
        let c := _create_chunk (PyList.slice recs start end_) chunk_index
                               total start None None in
        let start' :=
          if (0 <? overlap self)%nat
          then (end_ - Z.of_nat (overlap self))%Z else end_ in
        res_bind (records_loop fuel' recs total start' (S chunk_index))
                 (fun cs => Done (c :: cs))
    end
  else Done [].

Definition _chunk_by_records (fuel : nat) (recs : list record)
  : res (list Chunk) :=
  if (records_per_chunk self =? 0)%nat then Raised "ZeroDivisionError"
  else
    let total :=
      ((length recs + records_per_chunk self - 1)
         / records_per_chunk self)%nat in
    records_loop fuel recs total 0 0.

(** The [for] loop of [_chunk_by_size]: the (records, start index)
    pairs in the order they are appended to [chunks]. *)
Fixpoint size_loop (recs : list record) (i : nat)
    (current_records : list record) (current_size : nat)
    (start_idx : nat) : list (list record * nat) :=
  match recs with
  | [] =>
      match current_records with
      | [] => []
      | _ => [(current_records, start_idx)]
      end
  | r :: recs' =>
      let record_size := String.length (_format_record r) in
      if (max_chunk_size self <? current_size + record_size)%nat
         && negb (bool_decide (current_records = []))
      then (current_records, start_idx)
             :: size_loop recs' (S i) [r] record_size i
      else size_loop recs' (S i) (current_records ++ [r])
                     (current_size + record_size) start_idx
  end.

Definition _chunk_by_size (recs : list record) : list Chunk :=
  let chunks := size_loop recs 0 [] 0 0 in
  let total := length chunks in
  map (fun '(idx, (chunk_records, start)) =>
         _create_chunk chunk_records idx total (Z.of_nat start) None None)
      (PyList.enumerate_from 0 chunks).

(** Reassigning [index], [group_key] and [group_value] of a yielded
    sub-chunk. *)
Definition relabel (c : Chunk) (idx : nat) (gk gv : string) : Chunk :=
  {| index := idx;
     total_chunks := total_chunks c;
     records := records c;
     text_content := text_content c;
     record_count := record_count c;
     start_record_index := start_record_index c;
     end_record_index := end_record_index c;
     char_count := char_count c;
     group_key := Some gk;
     group_value := Some gv;
     start_timestamp := start_timestamp c;
     end_timestamp := end_timestamp c |}.

Definition relabel_all (cs : list Chunk) (chunk_index : nat)
    (gk gv : string) : list Chunk :=
  map (fun '(i, c) => relabel c i gk gv) (PyList.enumerate_from chunk_index cs).

Definition day_of (tf : string) (r : record) : string :=
  let ts := get r tf "" in
  if nonempty_str ts
  then (if (10 <=? String.length ts)%nat then PyStr.take 10 ts else ts)
  else "unknown".

(** The loop of [_chunk_by_time] over the sorted day groups. *)
Fixpoint time_loop (fuel : nat) (groups : list (string * list record))
    (total : nat) (chunk_index : nat) : res (list Chunk) :=
  match groups with
  | [] => Done []
  | (day, day_records) :: groups' =>
      if (records_per_chunk self * 2 <? length day_records)%nat
      then
        res_bind (_chunk_by_records fuel day_records) (fun subs =>
        res_bind (time_loop fuel groups' total
                            (chunk_index + length subs)) (fun cs =>
        Done (relabel_all subs chunk_index "date" day ++ cs)%list))
      else
        res_bind (time_loop fuel groups' total (S chunk_index)) (fun cs =>
        Done (_create_chunk day_records chunk_index total 0
                            (Some "date") (Some day) :: cs))
  end.

Definition is_set (o : option string) : bool :=
  match o with Some s => nonempty_str s | None => false end.

Definition _chunk_by_time (fuel : nat) (recs : list record)
  : res (list Chunk) :=
  match timestamp_field (schema self) with
  | Some tf =>
      if nonempty_str tf then
        let sorted_records := sorted_by_key (fun r => get r tf "") recs in
        let groups := group_by (day_of tf) sorted_records in
        time_loop fuel (sorted_by_key fst groups) (length groups) 0
      else _chunk_by_records fuel recs
  | None => _chunk_by_records fuel recs
  end.

(** The loop of [_chunk_by_field] over the groups in insertion
    order. *)
Fixpoint field_loop (gf : string) (groups : list (string * list record))
    (chunk_index : nat) : list Chunk :=
  match groups with
  | [] => []
  | (field_value, group_records) :: groups' =>
      let subs := _chunk_by_size group_records in
      (relabel_all subs chunk_index gf field_value
         ++ field_loop gf groups' (chunk_index + length subs))%list
  end.

Definition _chunk_by_field (fuel : nat) (recs : list record)
  : res (list Chunk) :=
  match group_field self with
  | Some gf =>
      if nonempty_str gf
      then Done (field_loop gf
                   (group_by (fun r => get r gf "unknown") recs) 0)
      else _chunk_by_records fuel recs
  | None => _chunk_by_records fuel recs
  end.

Definition _chunk_array (fuel : nat) (recs : list record)
  : res (list Chunk) :=
  if bool_decide (strategy self = FIELD_BASED) && is_set (group_field self)
  then _chunk_by_field fuel recs
  else if bool_decide (strategy self = TIME_BASED)
          && is_set (timestamp_field (schema self))
  then _chunk_by_time fuel recs
  else if bool_decide (strategy self = SIZE_BASED)
  then Done (_chunk_by_size recs)
  else _chunk_by_records fuel recs.

End WithChunker.

(** The record indices a chunk's range
    [start_record_index..end_record_index] covers. *)
Definition covered (c : Chunk) : list Z :=
  seqZ (start_record_index c)
       (end_record_index c - start_record_index c + 1).

Definition covered_all (cs : list Chunk) : list Z :=
  concat (map covered cs).

End Chunker.

(** ** query_planner.py: building the plan *)

Module QueryPlanner.
Import Planner.

(** Python truthiness of an [Optional[str]]. *)
Definition str_set (o : option string) : bool :=
  match o with
  | Some s => negb (String.eqb s EmptyString)
  | None => false
  end.

(** The class of word characters on ASCII text: letters, digits and
    the underscore. *)
Definition is_word (c : ascii) : bool :=
  let n := N_of_ascii c in
  (((48 <=? n) && (n <=? 57)) || ((65 <=? n) && (n <=? 90))
   || ((97 <=? n) && (n <=? 122)) || (n =? 95))%N.

Definition is_dquote (c : ascii) : bool := Ascii.eqb c (ascii_of_nat 34).

(** A double quote, group 1 (one or more characters other than the
    double quote), a double quote. *)
Definition quoted_pattern : Re.re :=
  Re.seq [ Re.Chr is_dquote;
           Re.Group 1 (Re.plus (fun c => negb (is_dquote c)));
           Re.Chr is_dquote ].

(** One of the four lead-ins, white space, and as group 1 one word or
    two words separated by white space. *)
Definition about_pattern : Re.re :=
  Re.seq [ Re.alts [ Re.lit "about"; Re.lit "regarding";
                     Re.lit "mentioning"; Re.lit "related to" ];
           Re.plus PyStr.is_space;
           Re.Group 1
             (Re.Cat (Re.plus is_word)
                (Re.opt (Re.Cat (Re.plus PyStr.is_space)
                                (Re.plus is_word)))) ].

Definition channel_pattern : Re.re :=
  Re.seq [ Re.alts [Re.lit "in"; Re.lit "from"; Re.lit "channel"];
           Re.plus PyStr.is_space;
           Re.opt (Re.Chr (Ascii.eqb "#"));
           Re.Group 1 (Re.plus is_word) ].

Definition author_pattern : Re.re :=
  Re.seq [ Re.alts [Re.lit "by"; Re.lit "from user"; Re.lit "user"];
           Re.plus PyStr.is_space;
           Re.opt (Re.Chr (Ascii.eqb "@"));
           Re.Group 1 (Re.plus is_word) ].

Definition stop_words : list string :=
  [ "the"; "a"; "an"; "is"; "are"; "was"; "were"; "be"; "been";
    "what"; "where"; "when"; "who"; "how"; "why"; "which";
    "about"; "in"; "on"; "at"; "to"; "for"; "of"; "with";
    "and"; "or"; "but"; "not"; "all"; "any"; "some";
    "do"; "does"; "did"; "can"; "could"; "would"; "should";
    "this"; "that"; "these"; "those"; "it"; "its" ].

(** [w not in stop_words and len(w) > 3] *)
Definition potential_keyword (w : string) : bool :=
  negb (existsb (String.eqb w) stop_words) && (3 <? String.length w)%nat.

(** [m.group(1) if m else None] *)
Definition group1 (m : option Re.rmatch) : option string :=
  match m with
  | Some (cs, _) => Some (Re.group 1 cs)
  | None => None
  end.

Section WithPlanner.
Variable schema : Chunker.JsonSchema.
(** The prompt texts and the chunk estimate, which the plan only
    carries along. *)
Variable _generate_chunk_prompt : string -> QueryIntent -> string.
Variable _generate_aggregate_prompt : string -> QueryIntent -> string.
Variable _estimate_chunks : FilterCriteria -> option nat.

Definition is_discord : bool :=
  match Chunker.format schema with
  | Chunker.DISCORD => true
  | _ => false
  end.

(** [_extract_filters]; the loop over the time keywords changes
    nothing and is left out. *)
Definition _extract_filters (query : string) : FilterCriteria :=
  let query_lower := PyStr.lower query in
  let quoted :=
    map (fun m : Re.rmatch => Re.group 1 (fst m))
        (Re.finditer quoted_pattern query) in
  let keywords :=
    match group1 (Re.search about_pattern query_lower) with
    | Some phrase => (quoted ++ [phrase])%list
    | None => quoted
    end in
  let channel :=
    if is_discord then group1 (Re.search channel_pattern query_lower)
    else None in
  let author := group1 (Re.search author_pattern query_lower) in
  let keywords :=
    match keywords with
    | [] =>
        firstn 3 (List.filter potential_keyword (PyStr.split_ws query_lower))
    | _ => keywords
    end in
  {| keywords := keywords; channel_filter := channel;
     author_filter := author |}.

Definition _requires_full_scan (intent : QueryIntent)
    (criteria : FilterCriteria) : bool :=
  match intent with
  | COUNT | EXHAUSTIVE_EXTRACT | COMPARE => true
  | _ =>
      match keywords criteria with
      | [] => negb (str_set (channel_filter criteria))
              && negb (str_set (author_filter criteria))
      | _ => false
      end
  end.

(** [plan] *)
Definition plan (query : string) : QueryPlan :=
  let intent := _detect_intent query in
  let filter_criteria := _extract_filters query in
  let require_full_scan := _requires_full_scan intent filter_criteria in
  {| Planner.query := query;
     Planner.intent := intent;
     Planner.filter_criteria := filter_criteria;
     Planner.require_full_scan := require_full_scan;
     Planner.chunk_limit := if require_full_scan then None else Some 100;
     Planner.parallel_ok := negb (bool_decide (intent = TIMELINE));
     Planner.chunk_prompt := _generate_chunk_prompt query intent;
     Planner.aggregate_prompt := _generate_aggregate_prompt query intent;
     Planner.estimated_chunks := _estimate_chunks filter_criteria |}.

End WithPlanner.

End QueryPlanner.

(** ** executor.py *)

Module Executor.

(** What a call of [LLMClient.complete] gives: the text and the tokens
    consumed, or an exception with its message. *)
Inductive llm_reply :=
| Reply (content : string) (tokens : nat)
| Fail (err : string).

(** [ChunkResult]; [duration_ms] and [chunk_metadata] are not
    modelled. *)
Record ChunkResult := mkResult {
  chunk_index : nat;
  success : bool;
  content : string;
  tokens_used : nat;
  was_cached : bool;
  was_filtered : bool
}.

Record ExecutionResult := mkExecResult {
  er_query : string;
  er_success : bool;
  chunk_results : list ChunkResult;
  aggregated_content : string;
  total_chunks : nat;
  chunks_processed : nat;
  chunks_filtered : nat;
  chunks_cached : nat;
  total_tokens : nat;
  er_error : option string
}.

(** The constructor arguments of [ChunkExecutor]. *)
Record ChunkExecutor := mkExecutor {
  max_parallel : nat;
  cache_enabled : bool;
  max_tokens_budget : option nat
}.

(** The mutable state an execution threads through its calls: the
    result cache, the token counter, the number of completion calls
    made so far, and the trace object (when one was passed). *)
Record state := mkState {
  _cache : gmap string ChunkResult;
  _tokens_used : nat;
  llm_calls : nat;
  trace : option Trace.ExecutionTrace
}.

Definition M (A : Type) : Type := state -> A * state.
Definition ret {A} (a : A) : M A := fun st => (a, st).
Definition bind {A B} (m : M A) (f : A -> M B) : M B :=
  fun st => let '(a, st') := m st in f a st'.

Notation "'do' x <- m ; k" := (bind m (fun x => k))
  (at level 10, x name, m at level 100, k at level 200).
Notation "'do_' m ; k" := (bind m (fun _ => k))
  (at level 10, m at level 100, k at level 200).

(** [if trace: trace.add_entry(ev, msg, tokens_used=tok)] *)
Definition trace_add (ev : Trace.TraceEventType) (msg : string)
    (tok : option Z) : M unit :=
  fun st =>
    (tt, {| _cache := _cache st; _tokens_used := _tokens_used st;
            llm_calls := llm_calls st;
            trace := match trace st with
                     | Some t => Some (Trace.add_entry t ev msg tok)
                     | None => None
                     end |}).

(** [if trace: trace.log_error(msg)] *)
Definition trace_error (msg : string) : M unit :=
  fun st =>
    (tt, {| _cache := _cache st; _tokens_used := _tokens_used st;
            llm_calls := llm_calls st;
            trace := match trace st with
                     | Some t => Some (Trace.log_error t msg)
                     | None => None
                     end |}).

Definition add_tokens (n : nat) : M unit :=
  fun st =>
    (tt, {| _cache := _cache st; _tokens_used := _tokens_used st + n;
            llm_calls := llm_calls st; trace := trace st |}).

Definition cache_store (key : string) (r : ChunkResult) : M unit :=
  fun st =>
    (tt, {| _cache := <[key := r]> (_cache st);
            _tokens_used := _tokens_used st;
            llm_calls := llm_calls st; trace := trace st |}).

Definition cache_lookup (key : string) : M (option ChunkResult) :=
  fun st => (_cache st !! key, st).

Definition tokens_so_far : M nat := fun st => (_tokens_used st, st).

Definition truthy_nat (o : option nat) : bool :=
  match o with Some n => negb (n =? 0)%nat | None => false end.

Definition truthy_str (o : option string) : bool :=
  match o with
  | Some s => negb (String.eqb s EmptyString)
  | None => false
  end.

Definition opt_str (o : option string) : string :=
  match o with Some s => s | None => EmptyString end.

Definition sep : string := PyStr.nl ++ PyStr.nl ++ "---" ++ PyStr.nl ++ PyStr.nl.

(** [Chunk.to_llm_context()] *)
Definition to_llm_context (c : Chunker.Chunk) : string :=
  let head :=
    "[Chunk " ++ PyStr.str_of_nat (Chunker.index c + 1)
    ++ (if truthy_nat (Chunker.total_chunks c)
        then " of " ++ PyStr.str_of_nat
                          (match Chunker.total_chunks c with
                           | Some n => n | None => 0 end)
        else "")
    ++ " | Records "
    ++ PyStr.str_of_Z (Chunker.start_record_index c + 1) ++ "-"
    ++ PyStr.str_of_Z (Chunker.end_record_index c + 1) ++ "]" in
  let grp :=
    if truthy_str (Chunker.group_key c) && truthy_str (Chunker.group_value c)
    then ["[" ++ opt_str (Chunker.group_key c) ++ ": "
              ++ opt_str (Chunker.group_value c) ++ "]"]
    else [] in
  let tm :=
    if truthy_str (Chunker.start_timestamp c)
       && truthy_str (Chunker.end_timestamp c)
    then ["[Time: " ++ opt_str (Chunker.start_timestamp c) ++ " to "
                    ++ opt_str (Chunker.end_timestamp c) ++ "]"]
    else [] in
  PyStr.join PyStr.nl
    ([head] ++ grp ++ tm ++ [EmptyString] ++ [Chunker.text_content c])%list.

Section WithExecutor.
Variable self : ChunkExecutor.
(** The completion service: what the [n]-th call (counting from 0)
    answers to a prompt. *)
Variable complete : nat -> string -> llm_reply.
(** [hashlib.md5(s.encode()).hexdigest()] *)
Variable md5 : string -> string.

Definition llm_complete (prompt : string) : M llm_reply :=
  fun st =>
    (complete (llm_calls st) prompt,
     {| _cache := _cache st; _tokens_used := _tokens_used st;
        llm_calls := S (llm_calls st); trace := trace st |}).

Definition _cache_key (c : Chunker.Chunk) (query : string) : string :=
  md5 (PyStr.str_of_nat (Chunker.index c) ++ ":"
       ++ PyStr.take 1000 (Chunker.text_content c) ++ ":" ++ query).

Definition cache_hit (c : Chunker.Chunk) (cached : ChunkResult) : ChunkResult :=
  {| chunk_index := Chunker.index c; success := true;
     content := content cached; tokens_used := 0;
     was_cached := true; was_filtered := false |}.

Definition call_llm_for_chunk (c : Chunker.Chunk)
    (plan : Planner.QueryPlan) (cache_key : string) : M ChunkResult :=
  let prompt := Planner.chunk_prompt plan ++ sep ++ to_llm_context c in
  do_ trace_add Trace.CHUNK_START
    ("Processing chunk " ++ PyStr.str_of_nat (Chunker.index c) ++ " ("
     ++ PyStr.str_of_nat (Chunker.record_count c) ++ " records)") None ;
  do reply <- llm_complete prompt ;
  match reply with
  | Reply text tokens =>
      do_ add_tokens tokens ;
      let result :=
        {| chunk_index := Chunker.index c; success := true;
           content := text; tokens_used := tokens;
           was_cached := false; was_filtered := false |} in
      do_ (if cache_enabled self then cache_store cache_key result
           else ret tt) ;
      do_ trace_add Trace.CHUNK_END
        ("Chunk " ++ PyStr.str_of_nat (Chunker.index c) ++ " processed")
        (Some (Z.of_nat tokens)) ;
      ret result
  | Fail e =>
      do_ trace_add Trace.LLM_CALL_ERROR
        ("Chunk " ++ PyStr.str_of_nat (Chunker.index c) ++ " failed: " ++ e)
        None ;
      ret {| chunk_index := Chunker.index c; success := false;
             content := "Error: " ++ e; tokens_used := 0;
             was_cached := false; was_filtered := false |}
  end.

Definition _process_chunk (c : Chunker.Chunk) (plan : Planner.QueryPlan)
  : M ChunkResult :=
  let cache_key := _cache_key c (Planner.query plan) in
  do hit <- cache_lookup cache_key ;
  match (if cache_enabled self then hit else None) with
  | Some cached =>
      do_ trace_add Trace.CHUNK_SKIP
        ("Chunk " ++ PyStr.str_of_nat (Chunker.index c)
         ++ " served from cache") None ;
      ret (cache_hit c cached)
  | None => call_llm_for_chunk c plan cache_key
  end.

(** [self.max_tokens_budget and self._tokens_used >= self.max_tokens_budget] *)
Definition budget_reached (used : nat) : bool :=
  match max_tokens_budget self with
  | Some b => negb (b =? 0)%nat && (b <=? used)%nat
  | None => false
  end.

Definition budget_skipped (c : Chunker.Chunk) : ChunkResult :=
  {| chunk_index := Chunker.index c; success := false;
     content := "Budget exceeded"; tokens_used := 0;
     was_cached := false; was_filtered := true |}.

Fixpoint _process_sequential (chunks : list Chunker.Chunk)
    (plan : Planner.QueryPlan) : M (list ChunkResult) :=
  match chunks with
  | [] => ret []
  | c :: chunks' =>
      do used <- tokens_so_far ;
      do r <- (if budget_reached used then ret (budget_skipped c)
               else _process_chunk c plan) ;
      do rs <- _process_sequential chunks' plan ;
      ret (r :: rs)
  end.

(** Running [_process_chunk] on each submitted chunk, in the order
    the pool's workers take them up. *)
Fixpoint run_submitted (order : list Chunker.Chunk)
    (plan : Planner.QueryPlan) : M (list ChunkResult) :=
  match order with
  | [] => ret []
  | c :: order' =>
      do r <- _process_chunk c plan ;
      do rs <- run_submitted order' plan ;
      ret (r :: rs)
  end.

(** [_process_parallel]: every chunk is submitted to the pool, the
    results are collected as they complete and sorted by chunk
    index.  [order] lists the submitted chunks in the order in which
    their [_process_chunk] runs take effect. *)
Definition _process_parallel (order : list Chunker.Chunk)
    (plan : Planner.QueryPlan) : M (list ChunkResult) :=
  do rs <- run_submitted order plan ;
  ret (PyList.sorted_by
         (fun a b => (chunk_index a <=? chunk_index b)%nat) rs).

Definition passes_filter (criteria : Planner.FilterCriteria)
    (c : Chunker.Chunk) : bool :=
  let text_lower := PyStr.lower (Chunker.text_content c) in
  let kw_ok :=
    match Planner.keywords criteria with
    | [] => true
    | kws => existsb (fun kw => PyStr.contains (PyStr.lower kw) text_lower)
                     kws
    end in
  let opt_ok (o : option string) :=
    if truthy_str o
    then PyStr.contains (PyStr.lower (opt_str o)) text_lower
    else true in
  kw_ok && opt_ok (Planner.channel_filter criteria)
        && opt_ok (Planner.author_filter criteria).

Definition _filter_chunks (chunks : list Chunker.Chunk)
    (criteria : Planner.FilterCriteria) : list Chunker.Chunk :=
  if bool_decide (Planner.keywords criteria = [])
     && negb (truthy_str (Planner.channel_filter criteria))
     && negb (truthy_str (Planner.author_filter criteria))
  then chunks
  else List.filter (passes_filter criteria) chunks.

Definition findings_of (results : list ChunkResult) : string :=
  PyStr.join sep
    (map (fun r => "[Chunk " ++ PyStr.str_of_nat (chunk_index r + 1) ++ "]"
                   ++ PyStr.nl ++ content r) results).

Definition _aggregate_results (results : list ChunkResult)
    (plan : Planner.QueryPlan) : M string :=
  do_ trace_add Trace.AGGREGATE_START
    ("Aggregating " ++ PyStr.str_of_nat (length results)
     ++ " chunk results") None ;
  let findings_text := findings_of results in
  let prompt := Planner.aggregate_prompt plan ++ sep ++ findings_text in
  do reply <- llm_complete prompt ;
  match reply with
  | Reply text tokens =>
      do_ add_tokens tokens ;
      do_ trace_add Trace.AGGREGATE_END "Aggregation complete"
                (Some (Z.of_nat tokens)) ;
      ret text
  | Fail e =>
      do_ trace_error ("Aggregation failed: " ++ e) ;
      ret ("Aggregation failed. Raw findings:" ++ PyStr.nl ++ PyStr.nl
           ++ findings_text)
  end.

Definition is_relevant (r : ChunkResult) : bool :=
  success r && negb (String.eqb (content r) EmptyString)
  && negb (PyStr.contains "NO_RELEVANT_CONTENT" (content r)).

Definition reset_tokens : M unit :=
  fun st =>
    (tt, {| _cache := _cache st; _tokens_used := 0;
            llm_calls := llm_calls st; trace := trace st |}).

(** [execute]; [sched] gives the order in which the worker pool runs
    the submitted chunks. *)
Definition execute (sched : list Chunker.Chunk -> list Chunker.Chunk)
    (chunks : list Chunker.Chunk) (plan : Planner.QueryPlan)
  : M ExecutionResult :=
  do_ reset_tokens ;
  let filtered0 := _filter_chunks chunks (Planner.filter_criteria plan) in
  let n_filtered := length chunks - length filtered0 in
  do_ trace_add Trace.INFO
    ("Filtered " ++ PyStr.str_of_nat n_filtered ++ " chunks, "
     ++ PyStr.str_of_nat (length filtered0) ++ " remaining") None ;
  let over_limit :=
    match Planner.chunk_limit plan with
    | Some l => negb (l =? 0)%nat && (l <? length filtered0)%nat
    | None => false
    end in
  let limit := match Planner.chunk_limit plan with
               | Some l => l | None => 0 end in
  do_ (if over_limit
   then trace_add Trace.WARNING
          ("Limiting to " ++ PyStr.str_of_nat limit ++ " chunks") None
   else ret tt) ;
  let filtered := if over_limit then firstn limit filtered0
                  else filtered0 in
  do rs <- (if Planner.parallel_ok plan && (1 <? max_parallel self)%nat
         then _process_parallel (sched filtered) plan
         else _process_sequential filtered plan) ;
  do used <- tokens_so_far ;
  do_ (if budget_reached used
   then trace_add Trace.WARNING
          ("Token budget exceeded: " ++ PyStr.str_of_nat used ++ "/"
           ++ PyStr.str_of_nat (match max_tokens_budget self with
                                | Some b => b | None => 0 end)) None
   else ret tt) ;
  let relevant := List.filter is_relevant rs in
  do agg <- (match relevant with
          | [] => ret "No relevant content found matching the query."
          | _ => _aggregate_results relevant plan
          end) ;
  ret {| er_query := Planner.query plan;
         er_success := true;
         chunk_results := rs;
         aggregated_content := agg;
         total_chunks := length chunks;
         chunks_processed :=
           length (List.filter (fun r => success r && negb (was_filtered r)) rs);
         chunks_filtered := n_filtered;
         chunks_cached := length (List.filter was_cached rs);
         total_tokens := used;
         er_error := None |}.

End WithExecutor.

(** A fresh executor state. *)
Definition init_state (t : option Trace.ExecutionTrace) : state :=
  {| _cache := ∅; _tokens_used := 0; llm_calls := 0; trace := t |}.

End Executor.

(** ** aggregator.py *)

Module Aggregator.
Import Outcome.
Import Executor.

Inductive AggregationStrategy :=
| CONCATENATE | SUMMARIZE | HIERARCHICAL | MERGE.

Record AggregationResult := mkAgg {
  agg_content : string;
  strategy_used : AggregationStrategy;
  levels_of_aggregation : nat;
  agg_tokens_used : nat;
  source_chunks : list nat
}.

(** The constructor arguments of [ResultAggregator]; [has_llm] tells
    whether an [llm_client] was given. *)
Record ResultAggregator := mkAggregator {
  has_llm : bool;
  max_direct_aggregate_chars : nat;
  max_results_per_level : nat
}.

Definition nl2 : string := PyStr.nl ++ PyStr.nl.

(** [[l[i:i + k] for i in range(0, len(l), k)]] for [k > 0]. *)
Fixpoint batches_aux {A} (fuel k : nat) (l : list A) : list (list A) :=
  match fuel with
  | O => []
  | S fuel' =>
      match l with
      | [] => []
      | _ => firstn k l :: batches_aux fuel' k (skipn k l)
      end
  end.

Definition batches {A} (k : nat) (l : list A) : list (list A) :=
  batches_aux (length l) k l.

Section WithAggregator.
Variable self : ResultAggregator.
Variable complete : nat -> string -> llm_reply.

Definition _concatenate (results : list ChunkResult) : AggregationResult :=
  {| agg_content :=
       PyStr.join sep
         (map (fun r => "**[Chunk " ++ PyStr.str_of_nat (chunk_index r + 1)
                        ++ "]**" ++ PyStr.nl ++ content r) results);
     strategy_used := CONCATENATE;
     levels_of_aggregation := 1;
     agg_tokens_used := 0;
     source_chunks := map chunk_index results |}.

Definition _summarize (results : list ChunkResult)
    (plan : Planner.QueryPlan) : M AggregationResult :=
  if negb (has_llm self) then ret (_concatenate results)
  else
    let findings_text := findings_of results in
    let prompt :=
      Planner.aggregate_prompt plan ++ nl2
      ++ "FINDINGS FROM " ++ PyStr.str_of_nat (length results)
      ++ " CHUNKS:" ++ nl2 ++ findings_text ++ nl2
      ++ "Provide a comprehensive, well-organized answer. Cite chunk numbers when referencing specific information." in
    do reply <- llm_complete complete prompt ;
    match reply with
    | Reply text tokens =>
        ret {| agg_content := text; strategy_used := SUMMARIZE;
               levels_of_aggregation := 1; agg_tokens_used := tokens;
               source_chunks := map chunk_index results |}
    | Fail e =>
        do_ trace_error ("Summarization failed: " ++ e) ;
        ret (_concatenate results)
    end.

(** Level 1: one completion call per group; returns the summaries
    and the tokens consumed. *)
Fixpoint summarize_groups (query : string)
    (groups : list (nat * list ChunkResult)) : M (list string * nat) :=
  match groups with
  | [] => ret ([], 0)
  | (i, group) :: groups' =>
      let prompt :=
        "Summarize these findings for the query: " ++ query ++ nl2
        ++ findings_of group ++ nl2
        ++ "Provide a concise summary preserving key information." in
      do reply <- llm_complete complete prompt ;
      let '(summary, tokens) :=
        match reply with
        | Reply text tokens => (text, tokens)
        | Fail e =>
            ("Group " ++ PyStr.str_of_nat (i + 1) ++ " summary failed: "
             ++ e, 0)
        end in
      do rest <- summarize_groups query groups' ;
      ret (summary :: fst rest, tokens + snd rest)
  end.

(** One pass of the [while] loop: one completion call per batch of
    summaries. *)
Fixpoint combine_batches (query : string) (bs : list (list string))
  : M (list string * nat) :=
  match bs with
  | [] => ret ([], 0)
  | batch :: bs' =>
      let prompt :=
        "Combine these summaries for the query: " ++ query ++ nl2
        ++ PyStr.join sep batch ++ nl2
        ++ "Provide a unified summary." in
      do reply <- llm_complete complete prompt ;
      let '(summary, tokens) :=
        match reply with
        | Reply text tokens => (text, tokens)
        | Fail e => ("Summary aggregation failed: " ++ e, 0)
        end in
      do rest <- combine_batches query bs' ;
      ret (summary :: fst rest, tokens + snd rest)
  end.

(** The [while len(level1_summaries) > self.max_results_per_level]
    loop; returns the summaries, the tokens consumed and the number
    of levels added. *)
Fixpoint reduce_levels (fuel : nat) (query : string)
    (summaries : list string) : M (res (list string * nat * nat)) :=
  if (max_results_per_level self <? length summaries)%nat then
    match fuel with
    | O => ret Timeout
    | S fuel' =>
        do new <- combine_batches query
                    (batches (max_results_per_level self) summaries) ;
        do r <- reduce_levels fuel' query (fst new) ;
        ret (res_bind r (fun '(ss, tokens, levels) =>
               Done (ss, snd new + tokens, S levels)))
    end
  else ret (Done (summaries, 0, 0)).

Definition final_synthesis (plan : Planner.QueryPlan)
    (summaries : list string) : M (string * nat * nat) :=
  match summaries with
  | [only] => ret (only, 0, 0)
  | _ =>
      let combined := PyStr.join sep summaries in
      let prompt :=
        Planner.aggregate_prompt plan ++ nl2 ++ "AGGREGATED SUMMARIES:"
        ++ nl2 ++ combined ++ nl2
        ++ "Provide the final, comprehensive answer to: "
        ++ Planner.query plan in
      do reply <- llm_complete complete prompt ;
      match reply with
      | Reply text tokens => ret (text, tokens, 1)
      | Fail e =>
          ret ("Final aggregation failed: " ++ e ++ nl2 ++ combined, 0, 1)
      end
  end.

Definition _hierarchical_aggregate (fuel : nat)
    (results : list ChunkResult) (plan : Planner.QueryPlan)
  : M (res AggregationResult) :=
  if negb (has_llm self) then ret (Done (_concatenate results))
  else if (max_results_per_level self =? 0)%nat
  then ret (Raised "ValueError: range() arg 3 must not be zero")
  else
    let groups := batches (max_results_per_level self) results in
    do_ trace_add Trace.INFO
          ("Hierarchical aggregation: "
           ++ PyStr.str_of_nat (length results) ++ " results → "
           ++ PyStr.str_of_nat (length groups) ++ " groups") None ;
    do level1 <- summarize_groups (Planner.query plan)
                   (PyList.enumerate_from 0 groups) ;
    do reduced <- reduce_levels fuel (Planner.query plan) (fst level1) ;
    match reduced with
    | Done (summaries, tokens2, levels2) =>
        do final <- final_synthesis plan summaries ;
        let '(final_content, tokens3, levels3) := final in
        ret (Done {| agg_content := final_content;
                     strategy_used := HIERARCHICAL;
                     levels_of_aggregation := 1 + levels2 + levels3;
                     agg_tokens_used := snd level1 + tokens2 + tokens3;
                     source_chunks := map chunk_index results |})
    | Raised e => ret (Raised e)
    | Timeout => ret Timeout
    end.

(** [AggregationStrategy.value] *)
Definition strategy_value (s : AggregationStrategy) : string :=
  match s with
  | CONCATENATE => "concatenate"
  | SUMMARIZE => "summarize"
  | HIERARCHICAL => "hierarchical"
  | MERGE => "merge"
  end.

Definition _choose_strategy (results : list ChunkResult)
    (intent : Planner.QueryIntent) : AggregationStrategy :=
  let total_chars :=
    list_sum (map (fun r => String.length (content r)) results) in
  if bool_decide (intent = Planner.COUNT) then MERGE
  else if (total_chars <? 5000)%nat && (length results <=? 3)%nat
  then CONCATENATE
  else if (max_direct_aggregate_chars self <? total_chars)%nat
          || (max_results_per_level self <? length results)%nat
  then (if has_llm self then HIERARCHICAL else CONCATENATE)
  else if has_llm self then SUMMARIZE
  else CONCATENATE.

(** The pattern of [_merge_counts]: the text COUNT: followed by any
    whitespace and, as group 1, one or more digits. *)
Definition count_pattern : Re.re :=
  Re.seq [Re.lit "COUNT:"; Re.star PyStr.is_space;
          Re.Group 1 (Re.plus PyStr.is_digit)].

(** What a result adds to [total_count]; group 1 is a run of digits,
    on which [int] does not fail. *)
Definition count_in (text : string) : nat :=
  match Re.search count_pattern text with
  | Some (cs, _) =>
      match PyStr.int_of_str (Re.group 1 cs) with
      | Some n => n
      | None => 0
      end
  | None => 0
  end.

(** The inner loop over the lines of one result; it stops at the first
    line that brings the examples to five or more. *)
Fixpoint collect_examples (lines : list string) (examples : list string)
  : list string :=
  match lines with
  | [] => examples
  | line :: rest =>
      if negb (String.eqb (PyStr.strip line) EmptyString)
         && negb (PyStr.contains "COUNT:" line)
      then
        let examples' := (examples ++ [PyStr.strip line])%list in
        if (5 <=? length examples')%nat then examples'
        else collect_examples rest examples'
      else collect_examples rest examples
  end.

Fixpoint merge_loop (results : list ChunkResult) (total_count : nat)
    (examples : list string) : nat * list string :=
  match results with
  | [] => (total_count, examples)
  | r :: rest =>
      merge_loop rest (total_count + count_in (content r))
        (collect_examples
           (PyStr.split_chr (ascii_of_nat 10) (content r)) examples)
  end.

Definition _merge_counts (results : list ChunkResult) : AggregationResult :=
  let '(total_count, examples) := merge_loop results 0 [] in
  {| agg_content :=
       "**Total Count: " ++ PyStr.str_of_nat total_count ++ "**" ++ nl2
       ++ match examples with
          | [] => EmptyString
          | _ => "Examples:" ++ PyStr.nl
                 ++ PyStr.join PyStr.nl
                      (map (fun e => "- " ++ e) (firstn 5 examples))
          end;
     strategy_used := MERGE;
     levels_of_aggregation := 1;
     agg_tokens_used := 0;
     source_chunks := map chunk_index results |}.

Definition _merge_structured (results : list ChunkResult)
    (intent : Planner.QueryIntent) : AggregationResult :=
  if bool_decide (intent = Planner.COUNT) then _merge_counts results
  else _concatenate results.

(** [aggregate]; [fuel] bounds the loop of the hierarchical strategy. *)
Definition aggregate (fuel : nat) (results : list ChunkResult)
    (plan : Planner.QueryPlan) : M (res AggregationResult) :=
  let valid_results := List.filter is_relevant results in
  match valid_results with
  | [] =>
      ret (Done {| agg_content :=
                     "No relevant content found matching the query.";
                   strategy_used := CONCATENATE;
                   levels_of_aggregation := 1;
                   agg_tokens_used := 0;
                   source_chunks := [] |})
  | _ =>
      let strategy := _choose_strategy valid_results (Planner.intent plan) in
      do_ trace_add Trace.AGGREGATE_START
            ("Aggregating " ++ PyStr.str_of_nat (length valid_results)
             ++ " results using " ++ strategy_value strategy) None ;
      do result <-
        (match strategy with
         | CONCATENATE => ret (Done (_concatenate valid_results))
         | MERGE =>
             ret (Done (_merge_structured valid_results (Planner.intent plan)))
         | SUMMARIZE =>
             do r <- _summarize valid_results plan ; ret (Done r)
         | HIERARCHICAL => _hierarchical_aggregate fuel valid_results plan
         end) ;
      match result with
      | Done r =>
          do_ trace_add Trace.AGGREGATE_END
                ("Aggregation complete: "
                 ++ PyStr.str_of_nat (String.length (agg_content r))
                 ++ " chars")
                (Some (Z.of_nat (agg_tokens_used r))) ;
          ret (Done r)
      | Raised e => ret (Raised e)
      | Timeout => ret Timeout
      end
  end.

End WithAggregator.

End Aggregator.

(** ** citation.py *)

Module Citation.

Inductive Sentiment := POSITIVE | NEGATIVE | NEUTRAL | MIXED.

#[global] Instance Sentiment_eq_dec : EqDecision Sentiment.
Proof. solve_decision. Defined.

(** [Citation]; the fields no code path of the extractor sets
    ([message_id], the context strings, [relevance_score]) are left
    out. *)
Record Citation := mkCitation {
  quote : string;
  author : option string;
  timestamp : option string;
  channel : option string;
  chunk_index : nat;
  record_index : nat;
  file_path : option string;
  sentiment : Sentiment;
  key_insight : option string
}.

Definition dquote : ascii := ascii_of_nat 34.
Definition squote : ascii := ascii_of_nat 39.
Definition is_quote_chr (c : ascii) : bool :=
  Ascii.eqb c dquote || Ascii.eqb c squote.

Definition endswith_chr (c : ascii) (s : string) : bool :=
  match PyStr.rev s with
  | String c' _ => Ascii.eqb c' c
  | EmptyString => false
  end.

(** [s[1:-1]] *)
Definition strip_ends (s : string) : string :=
  PyStr.take (String.length s - 2) (PyStr.drop 1 s).

(** [__post_init__] *)
Definition clean_quote (q : string) : string :=
  let q := PyStr.strip q in
  if PyStr.startswith (String dquote EmptyString) q && endswith_chr dquote q
  then strip_ends q else q.

(** The constructor call [Citation(...)], [__post_init__] included. *)
Definition new_citation (q : string) (au ts ch : option string)
    (ci ri : nat) (fp : option string) (se : Sentiment)
    (ki : option string) : Citation :=
  mkCitation (clean_quote q) au ts ch ci ri fp se ki.

(** [reference_id] *)
Definition reference_id (c : Citation) : string :=
  PyStr.str_of_nat (chunk_index c) ++ "." ++ PyStr.str_of_nat (record_index c).

(** [finding_pattern], compiled under [re.DOTALL | re.IGNORECASE]:
    three hashes, white space, [Finding] or [Citation], white space,
    digits, white space, newlines, [>], white space, an optional quote
    character, group 1 (one or more characters, lazy), an optional
    quote character, white space, newlines, the [**Source:**] marker,
    white space, group 2 (one or more characters, lazy), a newline. *)
Definition finding_pattern : Re.re :=
  Re.seq
    [ Re.lit "###"; Re.star PyStr.is_space;
      Re.Alt (Re.lit_ci "Finding") (Re.lit_ci "Citation");
      Re.star PyStr.is_space; Re.plus PyStr.is_digit;
      Re.star PyStr.is_space; Re.plus Re.is_nl;
      Re.lit ">"; Re.star PyStr.is_space;
      Re.opt (Re.Chr is_quote_chr);
      Re.Group 1 (Re.plus_lazy Re.any);
      Re.opt (Re.Chr is_quote_chr);
      Re.star PyStr.is_space; Re.plus Re.is_nl;
      Re.lit_ci "**Source:**"; Re.star PyStr.is_space;
      Re.Group 2 (Re.plus_lazy Re.any);
      Re.Chr Re.is_nl ].

(** [blockquote_pattern]: [>], white space, an optional quote
    character, group 1 (one or more characters other than newline,
    lazy), an optional quote character, white space, a newline. *)
Definition blockquote_pattern : Re.re :=
  Re.seq
    [ Re.lit ">"; Re.star PyStr.is_space;
      Re.opt (Re.Chr is_quote_chr);
      Re.Group 1 (Re.plus_lazy Re.not_nl);
      Re.opt (Re.Chr is_quote_chr);
      Re.star PyStr.is_space; Re.Chr Re.is_nl ].

(** The insight pattern: two stars, optionally [Key] and white space,
    [Insight:], two stars, white space, group 1 (one or more
    characters other than newline, lazy), then a newline or the end
    of the text. *)
Definition insight_pattern : Re.re :=
  Re.seq
    [ Re.lit "**";
      Re.opt (Re.Cat (Re.lit "Key") (Re.star PyStr.is_space));
      Re.lit "Insight:**"; Re.star PyStr.is_space;
      Re.Group 1 (Re.plus_lazy Re.not_nl);
      Re.Alt (Re.Chr Re.is_nl) Re.Eol ].

(** [\d{4}[-/]] *)
Definition date_pattern : Re.re :=
  Re.seq [ Re.Chr PyStr.is_digit; Re.Chr PyStr.is_digit;
           Re.Chr PyStr.is_digit; Re.Chr PyStr.is_digit;
           Re.Chr (Re.one_of "-/") ].

(** [\d{1,2}:\d{2}] *)
Definition time_pattern : Re.re :=
  Re.seq [ Re.Chr PyStr.is_digit; Re.opt (Re.Chr PyStr.is_digit);
           Re.lit ":"; Re.Chr PyStr.is_digit; Re.Chr PyStr.is_digit ].

Definition matches (r : Re.re) (s : string) : bool :=
  match Re.match_at r s with Some _ => true | None => false end.

(** The loop over the [|]-separated parts of the source line; a later
    part overrides an earlier one of the same kind. *)
Fixpoint parse_source (parts : list string)
    (acc : option string * option string * option string)
  : option string * option string * option string :=
  match parts with
  | [] => acc
  | part :: parts' =>
      let '(au, ts, ch) := acc in
      parse_source parts'
        (if PyStr.startswith "@" part then (Some (PyStr.drop 1 part), ts, ch)
         else if PyStr.contains "#" part
         then (au, ts, Some (PyStr.strip (PyStr.remove_chr "#" part)))
         else if matches date_pattern part || matches time_pattern part
         then (au, Some part, ch)
         else acc)
  end.

Definition sentiment_of (text_after : string) : Sentiment :=
  if PyStr.contains "positive" text_after then POSITIVE
  else if PyStr.contains "negative" text_after then NEGATIVE
  else if PyStr.contains "mixed" text_after then MIXED
  else NEUTRAL.

(** The citation built from one match of [finding_pattern]. *)
Definition citation_of_match (m : Re.rmatch) (chunk_idx record_idx : nat)
    (fp : option string) : Citation :=
  let '(cs, rest) := m in
  let q := PyStr.strip_by is_quote_chr (PyStr.strip (Re.group 1 cs)) in
  let source_line := PyStr.strip (Re.group 2 cs) in
  let source_parts := map PyStr.strip (PyStr.split_chr "|" source_line) in
  let '(au, ts, ch) := parse_source source_parts (None, None, None) in
  let se := sentiment_of (PyStr.lower (PyStr.take 200 rest)) in
  let ki :=
    match Re.search insight_pattern (PyStr.take 500 rest) with
    | Some (ics, _) => Some (PyStr.strip (Re.group 1 ics))
    | None => None
    end in
  new_citation q au ts ch chunk_idx record_idx fp se ki.

(** The first loop of [extract_from_response], with its counter
    [record_idx]. *)
Fixpoint structured (ms : list Re.rmatch) (chunk_idx record_idx : nat)
    (fp : option string) : list Citation :=
  match ms with
  | [] => []
  | m :: ms' =>
      citation_of_match m chunk_idx record_idx fp
        :: structured ms' chunk_idx (S record_idx) fp
  end.

(** The fallback loop over bare block quotes. *)
Fixpoint fallback (ms : list (nat * Re.rmatch)) (chunk_idx : nat)
    (fp : option string) : list Citation :=
  match ms with
  | [] => []
  | (i, (cs, _)) :: ms' =>
      let q := PyStr.strip (Re.group 1 cs) in
      if (10 <? String.length q)%nat
      then new_citation q None None None chunk_idx i fp NEUTRAL None
             :: fallback ms' chunk_idx fp
      else fallback ms' chunk_idx fp
  end.

Definition extract_from_response (response : string) (chunk_idx : nat)
    (fp : option string) : list Citation :=
  match structured (Re.finditer finding_pattern response) chunk_idx 0 fp with
  | [] =>
      fallback
        (PyList.enumerate_from 0 (Re.finditer blockquote_pattern response))
        chunk_idx fp
  | citations => citations
  end.

Definition quote_key (c : Citation) : string :=
  PyStr.take 100 (PyStr.strip (PyStr.lower (quote c))).

Fixpoint dedup (deduplicate : bool) (cs : list Citation)
    (seen : gset string) : list Citation :=
  match cs with
  | [] => []
  | c :: cs' =>
      if deduplicate && bool_decide (quote_key c ∈ seen)
      then dedup deduplicate cs' seen
      else c :: dedup deduplicate cs' ({[quote_key c]} ∪ seen)
  end.

Definition citation_le (a b : Citation) : bool :=
  (chunk_index a <? chunk_index b)%nat
  || ((chunk_index a =? chunk_index b)%nat
      && (record_index a <=? record_index b)%nat).

Definition merge_citations (chunk_citations : list (list Citation))
    (deduplicate : bool) : list Citation :=
  PyList.sorted_by citation_le (dedup deduplicate (concat chunk_citations) ∅).

Record CitationReport := mkReport {
  rep_query : string;
  citations : list Citation;
  total_found : nat;
  unique_authors : nat;
  verified : bool;
  verification_issues : list string
}.

Definition new_report (q : string) : CitationReport :=
  mkReport q [] 0 0 false [].

Definition authors_of (cs : list Citation) : gset string :=
  list_to_set
    (omap (fun c => match author c with
                    | Some a => if String.eqb a EmptyString then None
                                else Some a
                    | None => None
                    end) cs).

(** [add_citation]; the sentiment breakdown is a function of
    [citations] and is not stored. *)
Definition add_citation (r : CitationReport) (c : Citation)
  : CitationReport :=
  let cs := (citations r ++ [c])%list in
  {| rep_query := rep_query r; citations := cs;
     total_found := length cs;
     unique_authors := size (authors_of cs);
     verified := verified r;
     verification_issues := verification_issues r |}.

(** [set(s.lower().split())] *)
Definition word_set (s : string) : gset string :=
  list_to_set (PyStr.split_ws (PyStr.lower s)).

(** [chunk_idx, record_idx = map(int, ref.split("."))]; [None] stands
    for [ValueError]. *)
Definition parse_reference (ref : string) : option (nat * nat) :=
  match map PyStr.int_of_str (PyStr.split_chr "." ref) with
  | [Some c; Some r] => Some (c, r)
  | _ => None
  end.

(** The issue texts among the outcomes of the checks, in order. *)
Fixpoint issues_of (checks : list (option string)) : list string :=
  match checks with
  | [] => []
  | Some msg :: checks' => msg :: issues_of checks'
  | None :: checks' => issues_of checks'
  end.

Section Verify.
(** [str(record)], used when the record lacks the content field. *)
Variable str_of_record : Chunker.record -> string.

(** The check of one citation: [None] when it verifies, else the
    issue text.  [overlap > 0.5] on the quotient of two word counts
    is [2 * |common| > |quote words|]. *)
Definition check_citation (data : list Chunker.record)
    (content_field : string) (c : Citation) : option string :=
  let ref := reference_id c in
  match parse_reference ref with
  | Some (_, record_idx) =>
      match nth_error data record_idx with
      | Some record =>
          let content :=
            Chunker.get record content_field (str_of_record record) in
          let quote_words := word_set (quote c) in
          let content_words := word_set content in
          if (size quote_words <? 2 * size (quote_words ∩ content_words))%nat
          then None
          else Some ("Ref " ++ ref ++ ": Quote not found in record")
      | None => Some ("Ref " ++ ref ++ ": Record index out of range")
      end
  | None =>
      Some ("Ref " ++ ref ++ ": Verification error - invalid literal")
  end.

(** [verify]: the updated report and the returned flag. *)
Definition verify (r : CitationReport) (data : list Chunker.record)
    (content_field : string) : CitationReport * bool :=
  let checks := map (check_citation data content_field) (citations r) in
  let issues := issues_of checks in
  let verified_count :=
    length (List.filter (fun o => bool_decide (o = None)) checks) in
  let ok := (verified_count =? length (citations r))%nat in
  ({| rep_query := rep_query r; citations := citations r;
      total_found := total_found r;
      unique_authors := unique_authors r;
      verified := ok;
      verification_issues := issues |}, ok).
End Verify.

End Citation.

(** ** core.py *)

Module Core.

Record VerificationResult := mkVerification {
  has_citations : bool;
  citations_found : nat;
  issues : list string;
  reference_ids : list string
}.

(** [QueryResult]; [trace] is the trace object itself, so it shows
    every entry appended to that object, also those appended after the
    result was built. *)
Record QueryResult := mkQueryResult {
  answer : string;
  success : bool;
  qr_query : string;
  qr_file_path : option string;
  chunks_processed : nat;
  chunks_filtered : nat;
  total_tokens : nat;
  trace : Trace.ExecutionTrace;
  citation_report : option Citation.CitationReport;
  verification : option VerificationResult;
  error : option string
}.

(** Computations of the query body: they append to the trace and
    either give a value or raise an exception, [inl msg], where [msg]
    is [str(e)]. *)
Definition T (A : Type) : Type :=
  Trace.ExecutionTrace -> Trace.ExecutionTrace * (string + A).

Definition ret {A} (a : A) : T A := fun t => (t, inr a).
Definition raise {A} (e : string) : T A := fun t => (t, inl e).
Definition bind {A B} (m : T A) (f : A -> T B) : T B :=
  fun t =>
    match m t with
    | (t', inr a) => f a t'
    | (t', inl e) => (t', inl e)
    end.

Notation "'try' x <- m ; k" := (bind m (fun x => k))
  (at level 10, x name, m at level 100, k at level 200).
Notation "'try_' m ; k" := (bind m (fun _ => k))
  (at level 10, m at level 100, k at level 200).

Definition add_entry (ev : Trace.TraceEventType) (msg : string) : T unit :=
  fun t => (Trace.add_entry t ev msg None, inr tt).

Definition set_answer (ans : string) : T unit :=
  fun t =>
    ({| Trace.query := Trace.query t; Trace.entries := Trace.entries t;
        Trace.total_tokens := Trace.total_tokens t;
        Trace.total_llm_calls := Trace.total_llm_calls t;
        Trace.chunks_processed := Trace.chunks_processed t;
        Trace.chunks_skipped := Trace.chunks_skipped t;
        Trace.answer := Some ans; Trace.error := Trace.error t |}, inr tt).

(** What the body of the [try] block hands over on success. *)
Record body_result := mkBody {
  b_answer : string;
  b_exec : Executor.ExecutionResult;
  b_tokens : nat;
  b_report : option Citation.CitationReport;
  b_verification : option VerificationResult
}.

Section WithExplorer.
(** The state of the explorer and its collaborators.  Each
    collaborator may append to the trace and may raise. *)
Variable loaded : bool.
Variable file_path : option string.
Variable has_data : bool.
Variable plan_query : string -> T Planner.QueryPlan.
Variable chunk_from_data : T (list Chunker.Chunk).
Variable chunk_from_file : T (list Chunker.Chunk).
Variable execute :
  list Chunker.Chunk -> Planner.QueryPlan -> T Executor.ExecutionResult.
Variable aggregate :
  list Executor.ChunkResult -> Planner.QueryPlan
  -> T Aggregator.AggregationResult.
Variable _extract_and_verify_citations :
  string -> string -> list Executor.ChunkResult
  -> T (Citation.CitationReport * VerificationResult).
Variable _basic_verification : string -> string -> T VerificationResult.
Variable _post_process_answer :
  string -> string -> option VerificationResult -> T string.
(** [result.trace.save(dir)] and [_save_citation_report]: [None] on
    success, else the message of the exception raised. *)
Variable save_trace_files : Trace.ExecutionTrace -> option string.
Variable _save_citation_report : Citation.CitationReport -> option string.

Definition estimated_text (p : Planner.QueryPlan) : string :=
  match Planner.estimated_chunks p with
  | Some n => if (n =? 0)%nat then "?" else PyStr.str_of_nat n
  | None => "?"
  end.

(** The body of the [try] block of [query]. *)
Definition query_body (query : string) : T body_result :=
  try_ add_entry Trace.PLAN_START "Planning query execution" ;
  try plan <- plan_query query ;
  try_ add_entry Trace.PLAN_END
         ("Plan created: " ++ Planner.intent_value (Planner.intent plan)
          ++ ", " ++ estimated_text plan ++ " chunks") ;
  try chunks <- (if has_data then chunk_from_data else chunk_from_file) ;
  try_ add_entry Trace.INFO
         ("Created " ++ PyStr.str_of_nat (length chunks)
          ++ " chunks from data") ;
  try exec_result <- execute chunks plan ;
  try agg <-
    (if negb (String.eqb (Executor.aggregated_content exec_result)
                         EmptyString)
     then ret (Executor.aggregated_content exec_result,
               Executor.total_tokens exec_result)
     else
       try agg_result <-
         aggregate (Executor.chunk_results exec_result) plan ;
       ret (Aggregator.agg_content agg_result,
            Executor.total_tokens exec_result
            + Aggregator.agg_tokens_used agg_result)) ;
  let '(answer0, tokens) := agg in
  try cv <-
    (if bool_decide (Planner.intent plan = Planner.EXHAUSTIVE_EXTRACT)
     then
       try rv <- _extract_and_verify_citations query answer0
                   (Executor.chunk_results exec_result) ;
       ret (Some (fst rv), Some (snd rv))
     else
       try v <- _basic_verification answer0 query ;
       ret (@None Citation.CitationReport, Some v)) ;
  try answer1 <- _post_process_answer answer0 query (snd cv) ;
  try_ set_answer answer1 ;
  ret {| b_answer := answer1; b_exec := exec_result; b_tokens := tokens;
         b_report := fst cv; b_verification := snd cv |}.

(** [TraceContext.__enter__] *)
Definition enter_trace (query : string) : Trace.ExecutionTrace :=
  Trace.log_query_start (Trace.new_trace query) query.

(** [TraceContext.__exit__] when no exception is in flight. *)
Definition exit_trace (t : Trace.ExecutionTrace) : Trace.ExecutionTrace :=
  match Trace.answer t with
  | Some ans =>
      if String.eqb ans EmptyString then t else Trace.log_query_end t ans
  | None => t
  end.

(** The [try] statement of [query]: the result record as built
    before the trace context exits. *)
Definition query_result (query : string) : QueryResult :=
  let t0 := enter_trace query in
  match query_body query t0 with
  | (t, inr b) =>
      {| answer := b_answer b;
          success := Executor.er_success (b_exec b);
          qr_query := query; qr_file_path := file_path;
          chunks_processed := Executor.chunks_processed (b_exec b);
          chunks_filtered := Executor.chunks_filtered (b_exec b);
          total_tokens := b_tokens b;
          trace := t;
          citation_report := b_report b;
          verification := b_verification b;
          error := None |}
  | (t, inl e) =>
      let t' := Trace.log_error t e in
      {| answer := "Query failed: " ++ e;
          success := false;
          qr_query := query; qr_file_path := file_path;
          chunks_processed := 0; chunks_filtered := 0; total_tokens := 0;
          trace := t';
          citation_report := None; verification := None;
          error := Some e |}
  end.

Definition with_trace (r : QueryResult) (t : Trace.ExecutionTrace)
  : QueryResult :=
  {| answer := answer r; success := success r; qr_query := qr_query r;
     qr_file_path := qr_file_path r;
     chunks_processed := chunks_processed r;
     chunks_filtered := chunks_filtered r;
     total_tokens := total_tokens r; trace := t;
     citation_report := citation_report r;
     verification := verification r; error := error r |}.

(** [query]: [inr] is the returned [QueryResult], [inl] the message
    of an exception that leaves the call. *)
Definition query (q : string) (save_trace : bool) : string + QueryResult :=
  if negb loaded then inl "No file loaded. Call load() first."
  else
    let r0 := query_result q in
    let result := with_trace r0 (exit_trace (trace r0)) in
    if save_trace then
      match save_trace_files (trace result) with
      | Some e => inl e
      | None =>
          match citation_report result with
          | Some report =>
              match _save_citation_report report with
              | Some e => inl e
              | None => inr result
              end
          | None => inr result
          end
      end
    else inr result.

End WithExplorer.

Section WithData.
(** [self._file_path], [self._data] (empty when no data is cached)
    and [self._schema.content_field]. *)
Variable _file_path : option string.
Variable _data : list Chunker.record.
Variable content_field : option string.
Variable str_of_record : Chunker.record -> string.

Definition _extract_and_verify_citations (query answer : string)
    (chunk_results : list Executor.ChunkResult)
  : T (Citation.CitationReport * VerificationResult) :=
  try_ add_entry Trace.INFO "Extracting citations from chunk results" ;
  let all_chunk_citations :=
    map (fun r => Citation.extract_from_response (Executor.content r)
                    (Executor.chunk_index r) _file_path)
        (List.filter Executor.is_relevant chunk_results) in
  let merged_citations :=
    Citation.merge_citations all_chunk_citations true in
  let citation_report0 :=
    fold_left Citation.add_citation merged_citations
              (Citation.new_report query) in
  let citation_report :=
    match _data with
    | [] => citation_report0
    | _ =>
        fst (Citation.verify str_of_record citation_report0 _data
               (if Executor.truthy_str content_field
                then Executor.opt_str content_field else "content"))
    end in
  let verification :=
    {| has_citations := (0 <? length merged_citations)%nat;
       citations_found := length merged_citations;
       issues := Citation.verification_issues citation_report;
       reference_ids :=
         map Citation.reference_id (Citation.citations citation_report) |} in
  try_ add_entry Trace.INFO
         ("Extracted " ++ PyStr.str_of_nat (citations_found verification)
          ++ " citations from "
          ++ PyStr.str_of_nat (length all_chunk_citations) ++ " chunks") ;
  ret (citation_report, verification).

End WithData.

End Core.

(** * Properties *)

(** ** The execution trace *)

Module TraceFacts.
Import Trace.
Local Open Scope list_scope.

Lemma sum_tokens_app es1 es2 :
  sum_tokens (es1 ++ es2) = (sum_tokens es1 + sum_tokens es2)%Z.
Proof.
  induction es1 as [|e es1 IH]; simpl; [reflexivity|].
  rewrite IH. lia.
Qed.

Lemma count_event_app ev es1 es2 :
  count_event ev (es1 ++ es2)
  = (count_event ev es1 + count_event ev es2)%Z.
Proof.
  unfold count_event. rewrite List.filter_app, List.length_app. lia.
Qed.

Lemma count_event_single ev e :
  count_event ev [e] = bump (bool_decide (event_type e = ev)) 0.
Proof.
  unfold count_event. simpl. destruct (bool_decide _); reflexivity.
Qed.

Lemma truthy_sum tok n :
  (if truthy tok then (n + or_zero tok)%Z else n) = (n + or_zero tok)%Z.
Proof.
  destruct tok as [z|]; simpl; [|lia].
  destruct (Z.eqb_spec z 0); simpl; lia.
Qed.

Lemma entries_add_entry t ev msg tok :
  entries (add_entry t ev msg tok) = entries t ++ [mkEntry ev msg tok].
Proof. reflexivity. Qed.

Lemma add_entry_consistent t ev msg tok :
  consistent t -> consistent (add_entry t ev msg tok).
Proof.
  intros (Htok & Hllm & Hproc & Hskip).
  unfold consistent. rewrite entries_add_entry.
  rewrite sum_tokens_app, !count_event_app, !count_event_single.
  simpl. rewrite truthy_sum, Htok, Hllm, Hproc, Hskip.
  repeat split; try lia;
    match goal with |- context [bool_decide ?P] =>
      destruct (bool_decide P) end; simpl; lia.
Qed.

Lemma new_trace_consistent q : consistent (new_trace q).
Proof. repeat split. Qed.

Lemma entries_add_entries cs : forall t,
  entries (add_entries t cs) = entries t ++ map entry_of_call cs.
Proof.
  induction cs as [|[[ev msg] tok] cs IH]; intros t; simpl.
  - now rewrite app_nil_r.
  - unfold add_entries in *. simpl. rewrite IH, entries_add_entry.
    now rewrite <- app_assoc.
Qed.

Lemma add_entries_preserve cs : forall t,
  consistent t -> consistent (add_entries t cs).
Proof.
  induction cs as [|[[ev msg] tok] cs IH]; intros t Ht; simpl; [exact Ht|].
  apply IH. now apply add_entry_consistent.
Qed.

(** C9.  Any sequence of [add_entry] calls on a trace whose totals
    agree with its entries leaves them in agreement: [total_tokens] is
    the sum of [tokens_used] over the entries (an absent value counts
    0), [total_llm_calls], [chunks_processed] and [chunks_skipped]
    count the LLM_CALL_END, CHUNK_END and CHUNK_SKIP entries; and the
    entry list is the old one with the new entries appended in call
    order. *)
Theorem add_entry_totals_consistent (t : ExecutionTrace) (cs : list call) :
  consistent t ->
  consistent (add_entries t cs)
  /\ entries (add_entries t cs) = entries t ++ map entry_of_call cs.
Proof.
  intros Ht. split.
  - now apply add_entries_preserve.
  - apply entries_add_entries.
Qed.

Definition sample_calls : list call :=
  [ (LLM_CALL_END, "LLM responded", Some 5%Z);
    (CHUNK_END, "Chunk 0 processed", Some 0%Z);
    (CHUNK_SKIP, "Chunk 1 served from cache", None) ].

Lemma add_entry_totals_consistent_witness :
  consistent (add_entries (new_trace "q") sample_calls)
  /\ entries (add_entries (new_trace "q") sample_calls)
     = entries (new_trace "q") ++ map entry_of_call sample_calls.
Proof.
  apply (add_entry_totals_consistent (new_trace "q") sample_calls).
  repeat split.
Defined.

(** The trace of a fresh query: every total agrees with the entries
    whatever was logged. *)
Lemma fresh_trace_consistent q cs :
  consistent (add_entries (new_trace q) cs).
Proof. apply add_entries_preserve, new_trace_consistent. Qed.

Lemma log_error_consistent t e : consistent t -> consistent (log_error t e).
Proof. intros H. unfold log_error. now apply add_entry_consistent. Qed.

End TraceFacts.

(** ** Intent detection *)

Module PlannerFacts.
Import Planner.

(** C6.  The four example queries are classified EXHAUSTIVE_EXTRACT,
    COUNT, COMPARE and SUMMARIZE, and a query containing one of the
    exhaustive-extraction phrases is classified EXHAUSTIVE_EXTRACT
    whatever other keywords it contains. *)
Theorem detect_intent_examples :
  _detect_intent "What are people saying about pricing?" = EXHAUSTIVE_EXTRACT
  /\ _detect_intent "How many messages mention pricing?" = COUNT
  /\ _detect_intent "Compare pricing feedback between channel A and channel B"
     = COMPARE
  /\ _detect_intent "Summarize the discussion" = SUMMARIZE
  /\ (forall q : string,
        any_in exhaustive_indicators (PyStr.lower q) = true ->
        _detect_intent q = EXHAUSTIVE_EXTRACT).
Proof.
  repeat split; try (vm_compute; reflexivity).
  intros q Hq. unfold _detect_intent. now rewrite Hq.
Qed.

Lemma detect_intent_examples_witness :
  _detect_intent "Count every mention of total price" = EXHAUSTIVE_EXTRACT.
Proof.
  apply (proj2 (proj2 (proj2 (proj2 detect_intent_examples)))).
  vm_compute. reflexivity.
Defined.

(** The opinion patterns come second in the priority order. *)
Lemma opinion_pattern_precedence (q : string) :
  existsb (fun p => bool_decide (is_Some (Re.search p (PyStr.lower q))))
          opinion_patterns = true ->
  _detect_intent q = EXHAUSTIVE_EXTRACT.
Proof.
  intros Hq. unfold _detect_intent. rewrite Hq.
  now destruct (any_in exhaustive_indicators (PyStr.lower q)).
Qed.

End PlannerFacts.

(** ** Chunking *)

Module ChunkerFacts.
Import Outcome Chunker.
Local Open Scope list_scope.

Lemma str_length_app (a b : string) :
  String.length (a ++ b)%string = String.length a + String.length b.
Proof. induction a as [|c a IH]; simpl; [reflexivity | now rewrite IH]. Qed.


(** The total formatted length of a group of records, which is what
    [_chunk_by_size] accumulates in [current_size]. *)
Definition total_size (fmt : record -> string) (rs : list record) : nat :=
  list_sum (map (fun r => String.length (fmt r)) rs).

Lemma total_size_app fmt rs1 rs2 :
  total_size fmt (rs1 ++ rs2) = total_size fmt rs1 + total_size fmt rs2.
Proof. unfold total_size. now rewrite map_app, list_sum_app. Qed.

Lemma total_size_In fmt r rs :
  In r rs -> String.length (fmt r) <= total_size fmt rs.
Proof.
  induction rs as [|x rs IH]; intros Hin; [contradiction|].
  unfold total_size in *. simpl. destruct Hin as [->|Hin]; [lia|].
  specialize (IH Hin). lia.
Qed.

Lemma join_length (sep : string) (parts : list string) :
  String.length (PyStr.join sep parts)
  = list_sum (map String.length parts)
    + String.length sep * (length parts - 1).
Proof.
  unfold PyStr.join.
  induction parts as [|x parts IH]; [simpl; lia|].
  destruct parts as [|y parts]; [simpl; lia|].
  change (String.concat sep (x :: y :: parts))
    with (x ++ sep ++ String.concat sep (y :: parts))%string.
  rewrite !str_length_app, IH. simpl. lia.
Qed.

Section Facts.
Variable self : JsonChunker.
Variable fmt : record -> string.

Lemma covered_create recs idx total start gk gv :
  covered (_create_chunk self fmt recs idx total start gk gv)
  = seqZ start (Z.of_nat (length recs)).
Proof. unfold covered. simpl. f_equal. lia. Qed.

(** The text of a chunk counts the two-character separators between
    its records on top of the records' formatted lengths. *)
Lemma char_count_create recs idx total start gk gv :
  char_count (_create_chunk self fmt recs idx total start gk gv)
  = total_size fmt recs + 2 * (length recs - 1).
Proof.
  simpl. rewrite join_length, map_map, length_map. reflexivity.
Qed.

(** *** Fixed record count *)

Lemma records_loop_eq fuel recs total start idx :
  records_loop self fmt fuel recs total start idx
  = if (start <? Z.of_nat (length recs))%Z then
      match fuel with
      | O => Timeout
      | S fuel' =>
          let end_ :=
            Z.min (start + Z.of_nat (records_per_chunk self))
                  (Z.of_nat (length recs)) in
          res_bind
            (records_loop self fmt fuel' recs total
               (if (0 <? overlap self)%nat
                then (end_ - Z.of_nat (overlap self))%Z else end_)
               (S idx))
            (fun cs =>
               Done (_create_chunk self fmt (PyList.slice recs start end_)
                                   idx total start None None :: cs))
      end
    else Done [].
Proof. destruct fuel; reflexivity. Qed.



(** *** Size bound *)

Definition range_of (p : list record * nat) : list Z :=
  seqZ (Z.of_nat (snd p)) (Z.of_nat (length (fst p))).



(** A group respects the bound, in the accounting of the loop, or is
    a single record. *)
Definition within_bound (rs : list record) : Prop :=
  total_size fmt rs <= max_chunk_size self \/ length rs = 1.

Lemma size_loop_bound recs : forall i cur cur_size start_idx,
  cur_size = total_size fmt cur ->
  cur = [] \/ within_bound cur ->
  Forall (fun p => within_bound (fst p))
         (size_loop self fmt recs i cur cur_size start_idx).
Proof.
  induction recs as [|r recs IH]; intros i cur cur_size start_idx Hsz Hcur;
    simpl.
  - destruct cur; [constructor|].
    constructor; [|constructor]. destruct Hcur as [?|?]; [discriminate|assumption].
  - destruct (Nat.ltb_spec (max_chunk_size self)
                (cur_size + String.length (fmt r))) as [Hover|Hfit];
      simpl.
    + destruct cur as [|c cur]; simpl.
      * apply IH; [subst cur_size; unfold total_size; simpl; lia|].
        right. right. reflexivity.
      * constructor.
        -- destruct Hcur as [?|?]; [discriminate|assumption].
        -- apply IH; [unfold total_size; simpl; lia|].
           right. right. reflexivity.
    + apply IH.
      * rewrite total_size_app, Hsz. unfold total_size. simpl. lia.
      * right. left. rewrite total_size_app, <- Hsz.
        unfold total_size. simpl. lia.
Qed.

Lemma map_create_enum (l : list (list record * nat)) total : forall i,
  let cs := map (fun '(idx, (chunk_records, start)) =>
                   _create_chunk self fmt chunk_records idx total
                                 (Z.of_nat start) None None)
                (PyList.enumerate_from i l) in
  map records cs = map fst l /\ map covered cs = map range_of l.
Proof.
  induction l as [|[rs st] l IH]; intros i; simpl; [split; reflexivity|].
  destruct (IH (S i)) as [Hr Hc]. simpl in Hr, Hc.
  rewrite Hr, Hc, covered_create. split; reflexivity.
Qed.


(** In the loop's accounting (the sum of the formatted lengths of
    its records), every chunk is within the bound or is a single
    record. *)
Lemma chunk_by_size_accounted_bound recs c :
  In c (_chunk_by_size self fmt recs) -> within_bound (records c).
Proof.
  intros Hin.
  assert (Hb : Forall within_bound
                 (map records (_chunk_by_size self fmt recs))).
  { unfold _chunk_by_size.
    destruct (map_create_enum (size_loop self fmt recs 0 [] 0 0)
                (length (size_loop self fmt recs 0 [] 0 0)) 0) as [Hr _].
    simpl in Hr. rewrite Hr. rewrite List.Forall_map.
    apply size_loop_bound; [reflexivity | now left]. }
  rewrite List.Forall_forall in Hb. apply Hb. now apply in_map.
Qed.

(** A record whose formatted text alone exceeds the bound is the
    only record of its chunk. *)
Lemma oversized_record_alone recs c r :
  In c (_chunk_by_size self fmt recs) ->
  In r (records c) ->
  max_chunk_size self < String.length (fmt r) ->
  records c = [r].
Proof.
  intros Hc Hr Hbig.
  destruct (chunk_by_size_accounted_bound recs c Hc) as [Hle|Hone].
  - pose proof (total_size_In fmt r (records c) Hr). lia.
  - destruct (records c) as [|x [|y l]]; try discriminate.
    destruct Hr as [->|[]]. reflexivity.
Qed.

Lemma chunk_by_size_char_count recs c :
  In c (_chunk_by_size self fmt recs) ->
  char_count c
  = total_size fmt (records c) + 2 * (length (records c) - 1).
Proof.
  unfold _chunk_by_size. intros Hin.
  apply in_map_iff in Hin as ([idx [rs st]] & <- & _).
  apply char_count_create.
Qed.

End Facts.

(** *** Concrete runs *)

Definition slack_schema : JsonSchema := mkSchema SLACK (Some "ts") None.

Definition slack_record (ts user text : string) : record :=
  [("ts", ts); ("user", user); ("text", text)].

Definition two_days : list record :=
  [ slack_record "2024-01-01T09:00" "ana" "hello";
    slack_record "2024-01-02T09:00" "bo" "world" ].

Definition time_chunker : JsonChunker :=
  mkChunker slack_schema 1000 TIME_BASED None 100 0.

Definition field_chunker : JsonChunker :=
  mkChunker slack_schema 1000 FIELD_BASED (Some "user") 100 0.

Definition ranges_of (r : res (list Chunk)) : res (list (Z * Z)) :=
  res_bind r (fun cs =>
    Done (map (fun c => (start_record_index c, end_record_index c)) cs)).

Definition covered_of (r : res (list Chunk)) : res (list Z) :=
  res_bind r (fun cs => Done (covered_all cs)).

(** C2.  Two records of different days under the time-bucketed
    strategy (and two records of different users under the
    field-grouped strategy), no overlap: each of the two chunks gets
    the index range 0..0, so index 0 is listed twice and index 1 not
    at all, where the input range is 0..1. *)
Theorem grouped_chunk_ranges_restart_at_zero :
  ranges_of (_chunk_array time_chunker _format_slack_message 2 two_days)
    = Done [(0, 0); (0, 0)]%Z
  /\ covered_of (_chunk_array time_chunker _format_slack_message 2 two_days)
     = Done [0; 0]%Z
  /\ covered_of (_chunk_array field_chunker _format_slack_message 2 two_days)
     = Done [0; 0]%Z
  /\ seqZ 0 (Z.of_nat (length two_days)) = [0; 1]%Z.
Proof. vm_compute. repeat split. Qed.

Definition two_small : list record :=
  [ slack_record "1" "a" "hi"; slack_record "2" "b" "yo" ].

Definition size_chunker : JsonChunker :=
  mkChunker slack_schema 18 SIZE_BASED None 100 0.

(** C7.  Two records of 9 formatted characters each under a bound of
    18: the loop counts 9 + 9 = 18, not above the bound, and puts both
    in one chunk, whose text, with the separator between them, has 20
    characters. *)
Theorem size_bounded_chunk_exceeds_bound :
  map (fun r => String.length (_format_slack_message r)) two_small = [9; 9]
  /\ map (fun c => (record_count c, char_count c))
         (_chunk_by_size size_chunker _format_slack_message two_small)
     = [(2, 20)]
  /\ max_chunk_size size_chunker = 18.
Proof. vm_compute. repeat split. Qed.

End ChunkerFacts.

(** ** Chunk execution *)

Module ExecutorFacts.
Import Executor.
Local Open Scope list_scope.

Section Facts.
Variable self : ChunkExecutor.
Variable complete : nat -> string -> llm_reply.
Variable md5 : string -> string.

Local Abbreviation process_chunk := (_process_chunk self complete md5).
Local Abbreviation process_sequential :=
  (_process_sequential self complete md5).
Local Abbreviation process_parallel :=
  (_process_parallel self complete md5).
Local Abbreviation run_all := (run_submitted self complete md5).

(** *** The cache key *)

Lemma cache_key_depends_on_prefix c1 c2 q :
  Chunker.index c1 = Chunker.index c2 ->
  PyStr.take 1000 (Chunker.text_content c1)
  = PyStr.take 1000 (Chunker.text_content c2) ->
  _cache_key md5 c1 q = _cache_key md5 c2 q.
Proof. intros Hi Ht. unfold _cache_key. now rewrite Hi, Ht. Qed.

(** What a call of [_process_chunk] does, by cases on the cache and
    on the completion service. *)
Inductive chunk_step (c : Chunker.Chunk) (plan : Planner.QueryPlan)
    (st : state) (r : ChunkResult) (st' : state) : Prop :=
| step_hit cached :
    cache_enabled self = true ->
    _cache st !! _cache_key md5 c (Planner.query plan) = Some cached ->
    r = cache_hit c cached ->
    _cache st' = _cache st ->
    _tokens_used st' = _tokens_used st ->
    llm_calls st' = llm_calls st ->
    chunk_step c plan st r st'
| step_reply text tokens :
    (cache_enabled self = false
     \/ _cache st !! _cache_key md5 c (Planner.query plan) = None) ->
    (exists prompt, complete (llm_calls st) prompt = Reply text tokens) ->
    r = mkResult (Chunker.index c) true text tokens false false ->
    _cache st' = (if cache_enabled self
                  then <[_cache_key md5 c (Planner.query plan) := r]>
                         (_cache st)
                  else _cache st) ->
    _tokens_used st' = _tokens_used st + tokens ->
    llm_calls st' = S (llm_calls st) ->
    chunk_step c plan st r st'
| step_fail e :
    (cache_enabled self = false
     \/ _cache st !! _cache_key md5 c (Planner.query plan) = None) ->
    r = mkResult (Chunker.index c) false ("Error: " ++ e)%string 0
                 false false ->
    _cache st' = _cache st ->
    _tokens_used st' = _tokens_used st ->
    llm_calls st' = S (llm_calls st) ->
    chunk_step c plan st r st'.

Lemma process_chunk_step c plan st :
  chunk_step c plan st (fst (process_chunk c plan st))
             (snd (process_chunk c plan st)).
Proof.
  unfold _process_chunk, bind, cache_lookup. simpl.
  destruct (cache_enabled self) eqn:Hen.
  - destruct (_cache st !! _cache_key md5 c (Planner.query plan))
      as [cached|] eqn:Hlk.
    + eapply step_hit; eauto.
    + unfold call_llm_for_chunk, bind, llm_complete, trace_add. simpl.
      destruct (complete (llm_calls st) _) as [text tokens|e] eqn:Hllm;
        simpl.
      * eapply step_reply; eauto; simpl; now rewrite ?Hen.
      * eapply step_fail; eauto.
  - unfold call_llm_for_chunk, bind, llm_complete, trace_add. simpl.
    destruct (complete (llm_calls st) _) as [text tokens|e] eqn:Hllm;
      simpl.
    + eapply step_reply; eauto; simpl; now rewrite ?Hen.
    + eapply step_fail; eauto.
Qed.

Lemma process_chunk_not_filtered c plan st :
  was_filtered (fst (process_chunk c plan st)) = false.
Proof.
  destruct (process_chunk_step c plan st)
    as [? _ _ -> | ? ? _ _ -> | ? _ ->]; reflexivity.
Qed.

Lemma process_chunk_index c plan st :
  chunk_index (fst (process_chunk c plan st)) = Chunker.index c.
Proof.
  destruct (process_chunk_step c plan st)
    as [? _ _ -> | ? ? _ _ -> | ? _ ->]; reflexivity.
Qed.

(** C10.  With caching on, after a chunk was processed with
    success, processing under the same query a chunk with the same
    index and the same first 1000 characters of text (whatever
    follows them) has the same cache key, makes no completion call,
    and returns the first chunk's content tagged [was_cached]. *)
Theorem cache_hit_on_shared_prefix
    (c1 c2 : Chunker.Chunk) (plan : Planner.QueryPlan) (st : state) :
  cache_enabled self = true ->
  Chunker.index c1 = Chunker.index c2 ->
  PyStr.take 1000 (Chunker.text_content c1)
  = PyStr.take 1000 (Chunker.text_content c2) ->
  success (fst (process_chunk c1 plan st)) = true ->
  let r1 := fst (process_chunk c1 plan st) in
  let st1 := snd (process_chunk c1 plan st) in
  let r2 := fst (process_chunk c2 plan st1) in
  let st2 := snd (process_chunk c2 plan st1) in
  _cache_key md5 c1 (Planner.query plan)
  = _cache_key md5 c2 (Planner.query plan)
  /\ was_cached r2 = true
  /\ content r2 = content r1
  /\ llm_calls st2 = llm_calls st1
  /\ _tokens_used st2 = _tokens_used st1.
Proof.
  intros Hen Hidx Hpre Hok r1 st1 r2 st2.
  pose proof (cache_key_depends_on_prefix c1 c2 (Planner.query plan)
                Hidx Hpre) as Hkey.
  split; [exact Hkey|].
  assert (Hst1 : exists cached,
             _cache st1 !! _cache_key md5 c2 (Planner.query plan)
             = Some cached /\ content cached = content r1).
  { subst r1 st1.
    destruct (process_chunk_step c1 plan st)
      as [cached _ Hlk Hr Hc _ _ | text tokens _ _ Hr Hc _ _ | e _ Hr _ _ _].
    - exists cached. rewrite Hc, <- Hkey, Hr. split; [exact Hlk | reflexivity].
    - eexists. rewrite Hc, Hen, <- Hkey, lookup_insert_eq.
      split; reflexivity.
    - rewrite Hr in Hok. discriminate. }
  destruct Hst1 as (cached & Hlk & Hcont).
  subst r2 st2.
  destruct (process_chunk_step c2 plan st1)
    as [cached' _ Hlk' Hr Hc Ht Hl | text tokens [Hoff|Hnone] _ _ _ _ _
        | e [Hoff|Hnone] _ _ _ _];
    try congruence.
  rewrite Hr. simpl. rewrite Hlk in Hlk'. injection Hlk' as <-.
  repeat split; auto.
Qed.

(** *** The two processing paths *)

Lemma budget_skipped_all chunks plan : forall st,
  budget_reached self (_tokens_used st) = true ->
  process_sequential chunks plan st = (map (budget_skipped) chunks, st).
Proof.
  induction chunks as [|c chunks IH]; intros st Hb; simpl; [reflexivity|].
  unfold bind, tokens_so_far. simpl. rewrite Hb. unfold ret at 1. simpl.
  rewrite IH by exact Hb. reflexivity.
Qed.

(** The parallel path submits every chunk: it gives one result per
    chunk and marks none as filtered, whatever the budget and the
    tokens consumed so far. *)
Lemma run_submitted_all order plan : forall st,
  let rs := fst (run_all order plan st) in
  map chunk_index rs = map Chunker.index order
  /\ Forall (fun r => was_filtered r = false) rs.
Proof.
  induction order as [|c order IH]; intros st; simpl;
    [split; constructor|].
  unfold bind.
  pose proof (process_chunk_index c plan st) as Hi.
  pose proof (process_chunk_not_filtered c plan st) as Hf.
  destruct (process_chunk c plan st) as [r st1]. simpl in Hi, Hf.
  specialize (IH st1). simpl in IH.
  destruct (run_all order plan st1) as [rs st2]. simpl in *.
  destruct IH as [IHi IHf]. split; [now rewrite Hi, IHi|].
  constructor; assumption.
Qed.

Lemma insert_sorted_Forall {A} (le : A -> A -> bool) (P : A -> Prop) x l :
  P x -> Forall P l -> Forall P (PyList.insert_sorted le x l).
Proof.
  intros Hx Hl. induction Hl as [|y l Hy Hl IH]; simpl.
  - repeat constructor; assumption.
  - destruct (le x y); repeat constructor; assumption.
Qed.

Lemma sorted_by_Forall {A} (le : A -> A -> bool) (P : A -> Prop) l :
  Forall P l -> Forall P (PyList.sorted_by le l).
Proof.
  induction 1 as [|x l Hx Hl IH]; simpl; [constructor|].
  now apply insert_sorted_Forall.
Qed.

Lemma insert_sorted_length {A} (le : A -> A -> bool) x l :
  length (PyList.insert_sorted le x l) = S (length l).
Proof.
  induction l as [|y l IH]; simpl; [reflexivity|].
  destruct (le x y); simpl; [reflexivity | now rewrite IH].
Qed.

Lemma sorted_by_length {A} (le : A -> A -> bool) l :
  length (PyList.sorted_by le l) = length l.
Proof.
  induction l as [|x l IH]; simpl; [reflexivity|].
  now rewrite insert_sorted_length, IH.
Qed.

Lemma process_parallel_never_filters order plan st :
  let rs := fst (process_parallel order plan st) in
  length rs = length order
  /\ Forall (fun r => was_filtered r = false) rs.
Proof.
  unfold _process_parallel, bind.
  pose proof (run_submitted_all order plan st) as H. simpl in H.
  destruct (run_all order plan st) as [rs st']. simpl in *.
  destruct H as [Hi Hf]. split.
  - rewrite sorted_by_length.
    rewrite <- (length_map chunk_index), Hi. apply length_map.
  - now apply sorted_by_Forall.
Qed.

Lemma process_sequential_app pre post plan st :
  process_sequential (pre ++ post) plan st
  = let '(rs1, st1) := process_sequential pre plan st in
    let '(rs2, st2) := process_sequential post plan st1 in
    (rs1 ++ rs2, st2).
Proof.
  revert st. induction pre as [|c pre IH]; intros st; simpl.
  - unfold ret. now destruct (process_sequential post plan st).
  - unfold bind, tokens_so_far. simpl.
    destruct (if budget_reached self (_tokens_used st)
              then ret (budget_skipped c) else process_chunk c plan) as [r st1].
    rewrite IH.
    destruct (process_sequential pre plan st1) as [rs1 st2].
    unfold ret. simpl.
    now destruct (process_sequential post plan st2) as [rs2 st3].
Qed.

Lemma process_sequential_length chunks plan : forall st,
  length (fst (process_sequential chunks plan st)) = length chunks.
Proof.
  induction chunks as [|c chunks IH]; intros st; simpl; [reflexivity|].
  unfold bind, tokens_so_far. simpl.
  destruct (if budget_reached self (_tokens_used st)
            then ret (budget_skipped c) else process_chunk c plan) as [r st1].
  specialize (IH st1).
  destruct (process_sequential chunks plan st1) as [rs st2].
  simpl in *. now rewrite IH.
Qed.

(** The tokens consumed by the sequential path stay below the budget
    plus the largest cost of one completion call. *)
Lemma sequential_tokens_bound b m chunks plan :
  max_tokens_budget self = Some b -> 0 < b ->
  (forall n p text tokens, complete n p = Reply text tokens -> tokens <= m) ->
  forall st,
    _tokens_used (snd (process_sequential chunks plan st))
    <= Nat.max (_tokens_used st) (b - 1 + m).
Proof.
  intros Hb Hpos Hm.
  induction chunks as [|c chunks IH]; intros st; simpl; [lia|].
  unfold bind, tokens_so_far. simpl.
  destruct (budget_reached self (_tokens_used st)) eqn:Hreached.
  - unfold ret at 1. specialize (IH st).
    destruct (process_sequential chunks plan st) as [rs st2]. exact IH.
  - assert (Hlt : _tokens_used st < b).
    { unfold budget_reached in Hreached. rewrite Hb in Hreached.
      destruct (Nat.eqb_spec b 0); [lia|]. simpl in Hreached.
      apply Nat.leb_gt in Hreached. exact Hreached. }
    pose proof (process_chunk_step c plan st) as Hstep.
    destruct (process_chunk c plan st) as [r st1]. simpl in Hstep.
    specialize (IH st1).
    destruct (process_sequential chunks plan st1) as [rs st2].
    simpl in *.
    destruct Hstep
      as [? _ _ _ _ Ht _ | text tokens _ [prompt Hllm] _ _ Ht _ | ? _ _ _ Ht _].
    + lia.
    + apply Hm in Hllm. lia.
    + lia.
Qed.

(** C3, as amended.  In the sequential path, under a non-zero budget
    [b] and with at most [m] tokens per completion call, starting
    below the budget: the tokens consumed end below [b + m]; and
    when the budget is reached after some chunks, every chunk after
    them is marked filtered and none of them is dispatched (the
    token count and the number of completion calls stay as they
    were). *)
Theorem sequential_budget_soft_stop
    (b m : nat) (pre post : list Chunker.Chunk)
    (plan : Planner.QueryPlan) (st : state) :
  max_tokens_budget self = Some b -> 0 < b ->
  _tokens_used st < b ->
  (forall n p text tokens, complete n p = Reply text tokens -> tokens <= m) ->
  let '(rs, st') := process_sequential (pre ++ post) plan st in
  let '(rs1, st1) := process_sequential pre plan st in
  _tokens_used st' < b + m
  /\ (b <= _tokens_used st1 ->
      rs = rs1 ++ map budget_skipped post
      /\ length rs1 = length pre
      /\ st' = st1).
Proof.
  intros Hb Hpos Hlt Hm.
  pose proof (sequential_tokens_bound b m (pre ++ post) plan Hb Hpos Hm st)
    as Hbound.
  pose proof (process_sequential_length pre plan st) as Hlen.
  rewrite process_sequential_app in *.
  destruct (process_sequential pre plan st) as [rs1 st1].
  destruct (process_sequential post plan st1) as [rs2 st2] eqn:Hpost.
  simpl in *. split; [lia|].
  intros Hreached.
  rewrite budget_skipped_all in Hpost.
  - injection Hpost as <- <-. auto.
  - unfold budget_reached. rewrite Hb.
    destruct (Nat.eqb_spec b 0); [lia|]. simpl.
    now apply Nat.leb_le.
Qed.

End Facts.

(** *** Concrete runs *)

Definition chunk_of (i : nat) (text : string) : Chunker.Chunk :=
  Chunker._create_chunk ChunkerFacts.time_chunker
    Chunker._format_slack_message
    [ChunkerFacts.slack_record "2024-01-01T09:00" "ana" text]
    i 3 (Z.of_nat i) None None.

Definition three_chunks : list Chunker.Chunk :=
  [chunk_of 0 "alpha"; chunk_of 1 "beta"; chunk_of 2 "gamma"].

Definition plan_for (parallel : bool) : Planner.QueryPlan :=
  Planner.mkPlan "what happened" Planner.ANALYZE
    (Planner.mkFilter [] None None) true None parallel
    "Analyze this chunk." "Synthesize the findings." None.

(** A completion service answering every call with 10 tokens. *)
Definition ten_tokens (n : nat) (prompt : string) : llm_reply :=
  Reply ("answer " ++ PyStr.str_of_nat n)%string 10.

(** A stand-in for the digest function in concrete runs. *)
Definition id_digest (s : string) : string := s.

Definition summary_of (r : ExecutionResult) : list (nat * bool * bool) * nat :=
  (map (fun c => (chunk_index c, success c, was_filtered c))
       (chunk_results r),
   total_tokens r).

Lemma sequential_budget_soft_stop_witness :
  let '(rs, st') :=
    _process_sequential (mkExecutor 1 false (Some 10)) ten_tokens id_digest
      ([chunk_of 0 "alpha"] ++ [chunk_of 1 "beta"; chunk_of 2 "gamma"])
      (plan_for false) (init_state None) in
  let '(rs1, st1) :=
    _process_sequential (mkExecutor 1 false (Some 10)) ten_tokens id_digest
      [chunk_of 0 "alpha"] (plan_for false) (init_state None) in
  _tokens_used st' < 10 + 10
  /\ 10 <= _tokens_used st1
  /\ rs = rs1 ++ map budget_skipped [chunk_of 1 "beta"; chunk_of 2 "gamma"]
  /\ length rs1 = length [chunk_of 0 "alpha"]
  /\ st' = st1.
Proof.
  generalize
    (sequential_budget_soft_stop (mkExecutor 1 false (Some 10))
       ten_tokens id_digest 10 10 [chunk_of 0 "alpha"]
       [chunk_of 1 "beta"; chunk_of 2 "gamma"] (plan_for false)
       (init_state None) eq_refl (Nat.lt_0_succ 9) (Nat.lt_0_succ 9)
       (fun n p text tokens H =>
          match H in (_ = y)
                return (match y with
                        | Reply _ t => t <= 10
                        | Fail _ => True
                        end)
          with eq_refl => le_n 10 end)).
  destruct (_process_sequential _ _ _ ([chunk_of 0 "alpha"] ++ _) _ _)
    as [rs st'].
  destruct (_process_sequential _ _ _ [chunk_of 0 "alpha"] _ _)
    as [rs1 st1] eqn:Hpre.
  intros [Hbound Hrest].
  assert (Hreached : 10 <= _tokens_used st1).
  { vm_compute in Hpre. injection Hpre as _ <-. simpl. lia. }
  split; [exact Hbound|]. split; [exact Hreached|]. now apply Hrest.
Defined.

(** Two chunks with the same index whose texts agree on more than
    their first 1000 characters and differ in the last one. *)
Definition long_chunk (last : string) : Chunker.Chunk :=
  chunk_of 0 (PyStr.replicate 1000 "a" ++ last)%string.

Lemma cache_hit_on_shared_prefix_witness :
  Chunker.text_content (long_chunk "X") <> Chunker.text_content (long_chunk "Y")
  /\ (let ex := mkExecutor 4 true None in
      let st := init_state None in
      let r1 := fst (_process_chunk ex ten_tokens id_digest
                       (long_chunk "X") (plan_for true) st) in
      let st1 := snd (_process_chunk ex ten_tokens id_digest
                        (long_chunk "X") (plan_for true) st) in
      let r2 := fst (_process_chunk ex ten_tokens id_digest
                       (long_chunk "Y") (plan_for true) st1) in
      let st2 := snd (_process_chunk ex ten_tokens id_digest
                        (long_chunk "Y") (plan_for true) st1) in
      _cache_key id_digest (long_chunk "X") (Planner.query (plan_for true))
      = _cache_key id_digest (long_chunk "Y") (Planner.query (plan_for true))
      /\ was_cached r2 = true
      /\ content r2 = content r1
      /\ llm_calls st2 = llm_calls st1
      /\ _tokens_used st2 = _tokens_used st1).
Proof.
  split.
  - apply String.eqb_neq. vm_compute. reflexivity.
  - apply (cache_hit_on_shared_prefix (mkExecutor 4 true None) ten_tokens
             id_digest (long_chunk "X") (long_chunk "Y") (plan_for true)
             (init_state None)); vm_compute; reflexivity.
Defined.

(** C3, as stated, fails.  Sequential path, budget 15, two chunks of
    10 tokens each (total cost 20): both chunks are processed, none is
    marked filtered.  Parallel path, budget 10, three chunks of 10
    tokens each: all three are dispatched, none is marked filtered,
    and 30 tokens are consumed. *)
Lemma budget_below_total_cost_all_processed :
  summary_of
    (fst (execute (mkExecutor 1 false (Some 15)) ten_tokens id_digest
            (fun l => l) [chunk_of 0 "alpha"; chunk_of 1 "beta"]
            (plan_for false) (init_state None)))
  = ([(0, true, false); (1, true, false)], 20)
  /\ summary_of
       (fst (execute (mkExecutor 4 false (Some 10)) ten_tokens id_digest
               (fun l => l) three_chunks (plan_for true) (init_state None)))
     = ([(0, true, false); (1, true, false); (2, true, false)], 30).
Proof. vm_compute. split; reflexivity. Qed.

End ExecutorFacts.

(** ** Hierarchical aggregation *)

Module AggregatorFacts.
Import Outcome Executor Aggregator.
Local Open Scope list_scope.

Definition content_of (r : res AggregationResult) : res string :=
  res_bind r (fun a => Done (agg_content a)).

Section FailingService.
Variable self : ResultAggregator.
Variable complete : nat -> string -> llm_reply.
Variable e : string.
Hypothesis always_fails : forall n p, complete n p = Fail e.

Definition group_note (i : nat) : string :=
  ("Group " ++ PyStr.str_of_nat (i + 1) ++ " summary failed: " ++ e)%string.

Definition batch_note : string := ("Summary aggregation failed: " ++ e)%string.

Lemma summarize_groups_failing q groups : forall st,
  fst (summarize_groups complete q groups st)
  = (map (fun g => group_note (fst g)) groups, 0).
Proof.
  induction groups as [|[i g] groups IH]; intros st; simpl; [reflexivity|].
  unfold bind, llm_complete. simpl. rewrite always_fails.
  specialize (IH {| _cache := _cache st; _tokens_used := _tokens_used st;
                    llm_calls := S (llm_calls st); trace := trace st |}).
  destruct (summarize_groups complete q groups _) as [[ss tk] st'].
  simpl in *. injection IH as -> ->. reflexivity.
Qed.

Lemma combine_batches_failing q bs : forall st,
  fst (combine_batches complete q bs st)
  = (map (fun _ => batch_note) bs, 0).
Proof.
  induction bs as [|b bs IH]; intros st; simpl; [reflexivity|].
  unfold bind, llm_complete. simpl. rewrite always_fails.
  specialize (IH {| _cache := _cache st; _tokens_used := _tokens_used st;
                    llm_calls := S (llm_calls st); trace := trace st |}).
  destruct (combine_batches complete q bs _) as [[ss tk] st'].
  simpl in *. injection IH as -> ->. reflexivity.
Qed.

Lemma reduce_levels_failing fuel q : forall ss st st',
  fst (reduce_levels self complete fuel q ss st)
  = fst (reduce_levels self complete fuel q ss st').
Proof.
  induction fuel as [|fuel IH]; intros ss st st'; simpl;
    destruct (max_results_per_level self <? length ss)%nat; try reflexivity.
  unfold bind.
  pose proof (combine_batches_failing q
                (batches (max_results_per_level self) ss) st) as H1.
  pose proof (combine_batches_failing q
                (batches (max_results_per_level self) ss) st') as H2.
  destruct (combine_batches complete q _ st) as [new1 st1].
  destruct (combine_batches complete q _ st') as [new2 st2].
  simpl in H1, H2. subst new1 new2. simpl.
  specialize (IH (map (fun _ => batch_note)
                      (batches (max_results_per_level self) ss)) st1 st2).
  destruct (reduce_levels self complete fuel q _ st1) as [r1 st1'].
  destruct (reduce_levels self complete fuel q _ st2) as [r2 st2'].
  simpl in *. now subst r2.
Qed.

Lemma final_synthesis_failing plan ss st st' :
  fst (final_synthesis complete plan ss st)
  = fst (final_synthesis complete plan ss st').
Proof.
  unfold final_synthesis.
  destruct ss as [|s1 [|s2 ss]]; try reflexivity;
    unfold bind, llm_complete; simpl; now rewrite !always_fails.
Qed.

Lemma batches_aux_length {A B} (k : nat) fuel :
  forall (l : list A) (l' : list B),
    length l = length l' ->
    length (batches_aux fuel k l) = length (batches_aux fuel k l').
Proof.
  induction fuel as [|fuel IH]; intros l l' Hlen; simpl; [reflexivity|].
  destruct l, l'; try discriminate; [reflexivity|].
  simpl. f_equal. apply IH. rewrite !length_skipn, Hlen. reflexivity.
Qed.

Lemma enumerate_fst {A B} (l : list A) (l' : list B) : forall i,
  length l = length l' ->
  map fst (PyList.enumerate_from i l) = map fst (PyList.enumerate_from i l').
Proof.
  revert l'. induction l as [|x l IH]; intros [|y l'] i Hlen;
    try discriminate; simpl; [reflexivity|].
  f_equal. apply IH. now injection Hlen.
Qed.

(** When every completion call fails, the text hierarchical
    aggregation returns is the same for any two result lists of the
    same length: it carries nothing of the chunk results'
    contents. *)
Lemma failing_service_content_ignores_results fuel plan st
    (rs rs' : list ChunkResult) :
  has_llm self = true ->
  length rs = length rs' ->
  content_of (fst (_hierarchical_aggregate self complete fuel rs plan st))
  = content_of (fst (_hierarchical_aggregate self complete fuel rs' plan st)).
Proof.
  intros Hllm Hlen. unfold _hierarchical_aggregate. rewrite Hllm. simpl.
  destruct (max_results_per_level self =? 0)%nat; [reflexivity|].
  unfold bind, trace_add. simpl.
  match goal with
  | |- context [summarize_groups complete ?q ?g1 ?s1] =>
      pose proof (summarize_groups_failing q g1 s1) as H1;
      destruct (summarize_groups complete q g1 s1) as [l1 st1]
  end.
  match goal with
  | |- context [summarize_groups complete ?q ?g2 ?s2] =>
      pose proof (summarize_groups_failing q g2 s2) as H2;
      destruct (summarize_groups complete q g2 s2) as [l2 st2]
  end.
  simpl in H1, H2. subst l1 l2. simpl.
  rewrite <- !(map_map fst group_note).
  rewrite (enumerate_fst (batches (max_results_per_level self) rs)
                         (batches (max_results_per_level self) rs') 0)
    by (unfold batches; rewrite Hlen; now apply batches_aux_length).
  set (notes := map group_note _).
  pose proof (reduce_levels_failing fuel (Planner.query plan) notes st1 st2)
    as Hred.
  destruct (reduce_levels self complete fuel _ notes st1) as [r1 st1'].
  destruct (reduce_levels self complete fuel _ notes st2) as [r2 st2'].
  simpl in Hred. subst r2.
  destruct r1 as [[[ss tk] lv]| |]; try reflexivity.
  pose proof (final_synthesis_failing plan ss st1' st2') as Hfin.
  destruct (final_synthesis complete plan ss st1') as [[[c1 t1] v1] s1].
  destruct (final_synthesis complete plan ss st2') as [[[c2 t2] v2] s2].
  simpl in Hfin. injection Hfin as -> -> ->. reflexivity.
Qed.

End FailingService.

(** *** Concrete runs *)

Definition result_of (i : nat) (text : string) : ChunkResult :=
  mkResult i true text 5 false false.

Definition three_results : list ChunkResult :=
  [result_of 0 "alpha"; result_of 1 "beta"; result_of 2 "gamma"].

Definition failing_service (n : nat) (prompt : string) : llm_reply :=
  Fail "boom".

Definition mentions_any_content (text : string) : bool :=
  existsb (fun r => PyStr.contains (content r) text) three_results.

(** C4.  Three chunk results, groups of two, a completion service
    that always fails: hierarchical aggregation returns the failure
    notes of the two groups under the failure note of the final call,
    and none of the chunk results' contents; with one group of up to
    ten results it returns only that group's failure note. *)
Theorem hierarchical_failure_drops_chunk_contents :
  content_of
    (fst (_hierarchical_aggregate (mkAggregator true 1000 2) failing_service
            10 three_results (ExecutorFacts.plan_for true) (init_state None)))
  = Done ("Final aggregation failed: boom" ++ nl2
          ++ "Group 1 summary failed: boom" ++ sep
          ++ "Group 2 summary failed: boom")%string
  /\ mentions_any_content
       ("Final aggregation failed: boom" ++ nl2
        ++ "Group 1 summary failed: boom" ++ sep
        ++ "Group 2 summary failed: boom")%string = false
  /\ content_of
       (fst (_hierarchical_aggregate (mkAggregator true 1000 10)
               failing_service 10 three_results
               (ExecutorFacts.plan_for true) (init_state None)))
     = Done "Group 1 summary failed: boom".
Proof. vm_compute. repeat split. Qed.

(** The sibling strategy does fall back to the raw concatenation. *)
Lemma summarize_failure_concatenates :
  agg_content
    (fst (_summarize (mkAggregator true 1000 10) failing_service
            three_results (ExecutorFacts.plan_for true) (init_state None)))
  = agg_content (_concatenate three_results).
Proof. vm_compute. reflexivity. Qed.

End AggregatorFacts.

(** ** Citations *)

Module CitationFacts.
Import Citation.
Local Open Scope list_scope.

(** *** Extraction *)

(** The structured path numbers the citations by their position among
    the findings of the response. *)
Lemma structured_record_index ms ci fp : forall k,
  map record_index (structured ms ci k fp) = seq k (length ms).
Proof.
  induction ms as [|m ms IH]; intros k; simpl; [reflexivity|].
  rewrite IH. f_equal. unfold citation_of_match.
  destruct m as [cs rest].
  destruct (parse_source _ _) as [[au ts] ch]. reflexivity.
Qed.

Lemma structured_chunk_index ms ci fp : forall k,
  Forall (fun c => chunk_index c = ci) (structured ms ci k fp).
Proof.
  induction ms as [|m ms IH]; intros k; simpl; constructor; [|apply IH].
  unfold citation_of_match. destruct m as [cs rest].
  destruct (parse_source _ _) as [[au ts] ch]. reflexivity.
Qed.

Lemma extract_structured_ordinals response ci fp :
  Re.finditer finding_pattern response <> [] ->
  map record_index (extract_from_response response ci fp)
  = seq 0 (length (Re.finditer finding_pattern response)).
Proof.
  intros Hne. unfold extract_from_response.
  pose proof (structured_record_index
                (Re.finditer finding_pattern response) ci fp 0) as H.
  destruct (Re.finditer finding_pattern response) as [|m ms];
    [contradiction|].
  destruct (structured (m :: ms) ci 0 fp) as [|c cs] eqn:Hs;
    [discriminate|exact H].
Qed.

(** *** Reference ids *)

Definition no_dot (s : string) : Prop :=
  forall c, In c (list_ascii_of_string s) -> c <> "."%char.

Lemma digits_no_dot d : no_dot (NilEmpty.string_of_uint d).
Proof.
  induction d; intros c Hc; simpl in Hc; try contradiction;
    (destruct Hc as [<-|Hc]; [discriminate | now apply IHd]).
Qed.

Lemma str_app_assoc (a b c : string) :
  ((a ++ b) ++ c = a ++ (b ++ c))%string.
Proof.
  induction a as [|x a IH]; [reflexivity|].
  change (String x ((a ++ b) ++ c) = String x (a ++ (b ++ c)))%string.
  now rewrite IH.
Qed.

Lemma str_app_empty (a : string) : (a ++ EmptyString)%string = a.
Proof.
  induction a as [|x a IH]; [reflexivity|].
  change (String x (a ++ EmptyString) = String x a)%string.
  now rewrite IH.
Qed.

Lemma rev_acc_app s : forall acc,
  PyStr.rev_acc s acc = (PyStr.rev_acc s EmptyString ++ acc)%string.
Proof.
  induction s as [|c s IH]; intros acc; simpl; [reflexivity|].
  rewrite (IH (String c acc)), (IH (String c EmptyString)), str_app_assoc.
  reflexivity.
Qed.

Lemma rev_cons c cur :
  PyStr.rev (String c cur) = (PyStr.rev cur ++ String c EmptyString)%string.
Proof. unfold PyStr.rev. simpl. apply rev_acc_app. Qed.

Lemma split_at_dot s1 s2 : forall cur,
  no_dot s1 ->
  PyStr.split_chr_aux "." (s1 ++ String "." s2)%string cur
  = (PyStr.rev cur ++ s1)%string :: PyStr.split_chr_aux "." s2 EmptyString.
Proof.
  induction s1 as [|c s1 IH]; intros cur Hnd; simpl.
  - now rewrite str_app_empty.
  - destruct (Ascii.eqb_spec c ".") as [->|Hne].
    + exfalso. apply (Hnd "."%char); [now left | reflexivity].
    + rewrite IH by (intros x Hx; apply Hnd; now right).
      rewrite rev_cons, str_app_assoc. reflexivity.
Qed.

Lemma split_no_dot s : forall cur,
  no_dot s ->
  PyStr.split_chr_aux "." s cur = [(PyStr.rev cur ++ s)%string].
Proof.
  induction s as [|c s IH]; intros cur Hnd; simpl.
  - now rewrite str_app_empty.
  - destruct (Ascii.eqb_spec c ".") as [->|Hne].
    + exfalso. apply (Hnd "."%char); [now left | reflexivity].
    + rewrite IH by (intros x Hx; apply Hnd; now right).
      rewrite rev_cons, str_app_assoc. reflexivity.
Qed.

Lemma int_of_str_of_nat n :
  PyStr.int_of_str (PyStr.str_of_nat n) = Some n.
Proof.
  unfold PyStr.int_of_str, PyStr.str_of_nat.
  assert (Hnn : Nat.to_uint n <> Decimal.Nil).
  { pose proof (DecimalNat.Unsigned.to_of (Nat.to_uint n)) as H.
    rewrite DecimalNat.Unsigned.of_to in H. rewrite H.
    apply DecimalFacts.unorm_nonnil. }
  rewrite NilEmpty.usu, DecimalNat.Unsigned.of_to.
  destruct (Nat.to_uint n); try reflexivity. contradiction.
Qed.

(** The reference id of a citation parses back to its two indices, so
    verification never takes the parse-error branch. *)
Lemma parse_reference_id c :
  parse_reference (reference_id c) = Some (chunk_index c, record_index c).
Proof.
  unfold parse_reference, reference_id, PyStr.split_chr.
  change (PyStr.str_of_nat (chunk_index c) ++ "."
          ++ PyStr.str_of_nat (record_index c))%string
    with (PyStr.str_of_nat (chunk_index c)
          ++ String "." (PyStr.str_of_nat (record_index c)))%string.
  rewrite split_at_dot by apply digits_no_dot.
  rewrite split_no_dot by apply digits_no_dot.
  change (PyStr.rev EmptyString) with EmptyString.
  change (EmptyString ++ PyStr.str_of_nat (chunk_index c))%string
    with (PyStr.str_of_nat (chunk_index c)).
  change (EmptyString ++ PyStr.str_of_nat (record_index c))%string
    with (PyStr.str_of_nat (record_index c)).
  cbn [map]. now rewrite !int_of_str_of_nat.
Qed.

(** *** Concrete runs *)

Definition nl : string := PyStr.nl.

Definition content_record (author text : string) : Chunker.record :=
  [("author", author); ("content", text)].

(** The records of chunk 0. *)
Definition chunk0_records : list Chunker.record :=
  [ content_record "ana" "the weather is nice today";
    content_record "bo" "lunch at noon?";
    content_record "carol" "The pricing is too high" ].

(** A chunk output in the citation schema of the exhaustive prompt,
    with one finding: the quote of the record at index 2. *)
Definition one_finding : string :=
  ("### Finding 1" ++ nl ++ nl
   ++ "> " ++ String dquote "The pricing is too high" ++ String dquote nl
   ++ nl
   ++ "**Source:** @carol | 2024-01-03 10:15 | #general" ++ nl
   ++ "**Record Index:** 0.2 (for verification)" ++ nl
   ++ "**Sentiment:** Negative" ++ nl
   ++ "**Key Insight:** price concern" ++ nl)%string.

Definition no_repr (r : Chunker.record) : string := EmptyString.

Definition report_of (cs : list Citation) : CitationReport :=
  fold_left add_citation cs (new_report "pricing").

(** C1.  The only finding of the chunk output quotes the record at
    index 2 of chunk 0 (and says so), yet the citation extracted from
    it has [record_index] 0, the position of the finding in the
    output: its reference id is 0.0, the record at index 0 does not
    hold the quote, and verification reports the quote as not
    found. *)
Theorem extracted_record_index_is_finding_position :
  map (fun c => (quote c, author c, reference_id c))
      (extract_from_response one_finding 0 None)
  = [("The pricing is too high", Some "carol", "0.0")]
  /\ option_map (fun r => Chunker.get r "content" "")
                (nth_error chunk0_records 2)
     = Some "The pricing is too high"
  /\ option_map (fun r => Chunker.get r "content" "")
                (nth_error chunk0_records 0)
     = Some "the weather is nice today"
  /\ verification_issues
       (fst (verify no_repr
               (report_of (extract_from_response one_finding 0 None))
               chunk0_records "content"))
     = ["Ref 0.0: Quote not found in record"].
Proof. vm_compute. repeat split. Qed.

(** *** Verification *)

Section Verification.
Variable str_of_record : Chunker.record -> string.

(** Verification leaves the citation list as it is. *)
Lemma verify_keeps_citations r data field :
  citations (fst (verify str_of_record r data field)) = citations r.
Proof. reflexivity. Qed.



End Verification.

Definition half_overlap_citation : Citation :=
  new_citation "alpha beta" (Some "ana") None None 0 0 None NEUTRAL None.

Definition half_overlap_data : list Chunker.record :=
  [content_record "ana" "alpha gamma"].

(** C8.  A quote of two words, one of which occurs in the addressed
    record: the overlap is exactly 50% of the quote's words, and the
    citation does not count as verified; its issue is listed and the
    citation stays in the report. *)
Theorem half_overlap_is_not_verified :
  size (word_set (quote half_overlap_citation)) = 2
  /\ size (word_set (quote half_overlap_citation) ∩ word_set "alpha gamma") = 1
  /\ verify no_repr (report_of [half_overlap_citation]) half_overlap_data
            "content"
     = ({| rep_query := "pricing";
           citations := [half_overlap_citation];
           total_found := 1; unique_authors := 1;
           verified := false;
           verification_issues := ["Ref 0.0: Quote not found in record"] |},
        false).
Proof. vm_compute. repeat split. Qed.

End CitationFacts.

(** ** The query call *)

Module CoreFacts.
Import Core.
Local Open Scope list_scope.

Lemma exit_trace_keeps t :
  Trace.error (exit_trace t) = Trace.error t
  /\ forall x, In x (Trace.entries t) -> In x (Trace.entries (exit_trace t)).
Proof.
  unfold exit_trace. destruct (Trace.answer t) as [ans|]; [|auto].
  destruct (String.eqb ans EmptyString); [auto|].
  split; [reflexivity|]. intros x Hx. simpl. apply in_or_app. now left.
Qed.

Section Facts.
Variable loaded : bool.
Variable file_path : option string.
Variable has_data : bool.
Variable plan_query : string -> T Planner.QueryPlan.
Variable chunk_from_data : T (list Chunker.Chunk).
Variable chunk_from_file : T (list Chunker.Chunk).
Variable execute :
  list Chunker.Chunk -> Planner.QueryPlan -> T Executor.ExecutionResult.
Variable aggregate :
  list Executor.ChunkResult -> Planner.QueryPlan
  -> T Aggregator.AggregationResult.
Variable _extract_and_verify_citations :
  string -> string -> list Executor.ChunkResult
  -> T (Citation.CitationReport * VerificationResult).
Variable _basic_verification : string -> string -> T VerificationResult.
Variable _post_process_answer :
  string -> string -> option VerificationResult -> T string.
Variable save_trace_files : Trace.ExecutionTrace -> option string.
Variable _save_citation_report : Citation.CitationReport -> option string.

Local Abbreviation the_body :=
  (query_body has_data plan_query chunk_from_data chunk_from_file execute
              aggregate _extract_and_verify_citations _basic_verification
              _post_process_answer).
Local Abbreviation the_result :=
  (query_result file_path has_data plan_query chunk_from_data
                chunk_from_file execute aggregate
                _extract_and_verify_citations _basic_verification
                _post_process_answer).
Local Abbreviation the_query :=
  (query loaded file_path has_data plan_query chunk_from_data
         chunk_from_file execute aggregate _extract_and_verify_citations
         _basic_verification _post_process_answer save_trace_files
         _save_citation_report).

(** An exception raised in the body of the [try] block is turned
    into an unsuccessful result and logged. *)
Lemma query_result_on_exception q t e :
  the_body q (enter_trace q) = (t, inl e) ->
  success (the_result q) = false
  /\ error (the_result q) = Some e
  /\ answer (the_result q) = ("Query failed: " ++ e)%string
  /\ trace (the_result q) = Trace.log_error t e.
Proof.
  intros Hbody. unfold query_result. rewrite Hbody. repeat split.
Qed.

(** C5, as amended.  On a loaded explorer, a query call that is not
    asked to save the trace (or whose saving of the trace and of the
    citation report raises nothing) returns a [QueryResult]; and
    when planning or execution raised an exception, that result has
    [success = False], its [error] is the exception's message, and
    the trace holds the error entry and the error message. *)
Theorem query_returns_result (q : string) (save_trace : bool) :
  loaded = true ->
  (save_trace = true ->
   (forall t, save_trace_files t = None)
   /\ (forall r, _save_citation_report r = None)) ->
  exists r : QueryResult,
    the_query q save_trace = inr r
    /\ forall t e,
         the_body q (enter_trace q) = (t, inl e) ->
         success r = false
         /\ error r = Some e
         /\ answer r = ("Query failed: " ++ e)%string
         /\ In (Trace.mkEntry Trace.ERROR e None) (Trace.entries (trace r))
         /\ Trace.error (trace r) = Some e.
Proof.
  intros Hloaded Hsave. unfold query. rewrite Hloaded. simpl.
  set (r0 := the_result q).
  set (r := with_trace r0 (exit_trace (trace r0))).
  assert (Hr : forall t e,
             the_body q (enter_trace q) = (t, inl e) ->
             success r = false /\ error r = Some e
             /\ answer r = ("Query failed: " ++ e)%string
             /\ In (Trace.mkEntry Trace.ERROR e None)
                   (Trace.entries (trace r))
             /\ Trace.error (trace r) = Some e).
  { intros t e Hbody.
    destruct (query_result_on_exception q t e Hbody)
      as (Hs & He & Ha & Ht).
    fold r0 in Hs, He, Ha, Ht.
    destruct (exit_trace_keeps (trace r0)) as [Herr Hent].
    subst r. simpl. repeat split; auto.
    - apply Hent. rewrite Ht. simpl. apply in_or_app. right. now left.
    - rewrite Herr, Ht. reflexivity. }
  destruct save_trace.
  - destruct (Hsave eq_refl) as [Hst Hsr]. rewrite Hst.
    destruct (citation_report r0) as [rep|]; [rewrite Hsr|];
      exists r; auto.
  - exists r. auto.
Qed.

End Facts.

(** *** Concrete runs *)

(** The executor of the package as the [execute] collaborator. *)
Definition run_executor (chunks : list Chunker.Chunk)
    (plan : Planner.QueryPlan) : T Executor.ExecutionResult :=
  fun t =>
    let '(r, st) :=
      Executor.execute (Executor.mkExecutor 4 true None)
        ExecutorFacts.ten_tokens ExecutorFacts.id_digest (fun l => l)
        chunks plan (Executor.init_state (Some t)) in
    (match Executor.trace st with Some t' => t' | None => t end, inr r).

Definition no_aggregate (rs : list Executor.ChunkResult)
    (plan : Planner.QueryPlan) : T Aggregator.AggregationResult :=
  ret (Aggregator._concatenate rs).

Definition no_citations (q a : string) (rs : list Executor.ChunkResult)
  : T (Citation.CitationReport * VerificationResult) :=
  ret (Citation.new_report q, mkVerification false 0 [] []).

Definition no_verification (a q : string) : T VerificationResult :=
  ret (mkVerification false 0 [] []).

Definition keep_answer (a q : string) (v : option VerificationResult)
  : T string := ret a.

(** An explorer whose planner works, and one whose planner raises. *)
Definition sample_query (planner : string -> T Planner.QueryPlan)
    (save : Trace.ExecutionTrace -> option string)
    (q : string) (save_trace : bool) : string + QueryResult :=
  query true (Some "inline_data") true planner
    (ret ExecutorFacts.three_chunks) (ret ExecutorFacts.three_chunks)
    run_executor no_aggregate no_citations no_verification keep_answer
    save (fun _ => None) q save_trace.

Definition good_planner (q : string) : T Planner.QueryPlan :=
  ret (ExecutorFacts.plan_for true).

Definition bad_planner (q : string) : T Planner.QueryPlan :=
  raise "planner failed".

Definition read_only_dir (t : Trace.ExecutionTrace) : option string :=
  Some "PermissionError: [Errno 13] Permission denied: '/traces'".

Lemma query_returns_result_witness :
  exists r : QueryResult,
    sample_query bad_planner read_only_dir "what happened" false = inr r
    /\ success r = false
    /\ error r = Some "planner failed"
    /\ answer r = "Query failed: planner failed"
    /\ In (Trace.mkEntry Trace.ERROR "planner failed" None)
          (Trace.entries (trace r))
    /\ Trace.error (trace r) = Some "planner failed".
Proof.
  destruct (query_returns_result true (Some "inline_data") true bad_planner
              (ret ExecutorFacts.three_chunks)
              (ret ExecutorFacts.three_chunks)
              run_executor no_aggregate no_citations no_verification
              keep_answer read_only_dir (fun _ => None)
              "what happened" false eq_refl
              (fun H : false = true =>
                 match H in (_ = b)
                       return (if b then _ else True) with
                 | eq_refl => I
                 end))
    as (r & Hq & Hr).
  exists r. split; [exact Hq|].
  apply (Hr (Trace.add_entry (enter_trace "what happened")
               Trace.PLAN_START "Planning query execution" None)).
  reflexivity.
Defined.

(** C5, as stated, fails.  The planner and the executor work, the
    call asks to save the trace and the trace directory cannot be
    written: the exception of the save leaves the call, and no
    [QueryResult] is returned. *)
Lemma query_raises_when_save_fails :
  sample_query good_planner read_only_dir "what happened" true
  = inl "PermissionError: [Errno 13] Permission denied: '/traces'".
Proof. vm_compute. reflexivity. Qed.

(** The same call without saving returns the answer. *)
Lemma query_succeeds_without_save :
  match sample_query good_planner read_only_dir "what happened" false with
  | inr r => success r = true /\ answer r = "answer 3"
  | inl _ => False
  end.
Proof. vm_compute. split; reflexivity. Qed.

End CoreFacts.

(** * Further properties *)

(** ** Chunking: what the strategies produce *)

Module ChunkerCoverage.
Import Outcome Chunker.
Local Open Scope list_scope.


Section Facts.
Variable self : JsonChunker.
Variable fmt : record -> string.

(** *** Fixed record count *)



(** X2.  With a positive overlap, fixed-count chunking of a non-empty
    record list never ends: after the last chunk the start index is set
    back below the length, so the loop condition holds again, whatever
    number of iterations is allowed. *)
Theorem records_chunking_with_overlap_never_ends
    (fuel : nat) (recs : list record) :
  0 < overlap self -> 0 < records_per_chunk self -> recs <> [] ->
  _chunk_by_records self fmt fuel recs = Timeout.
Proof.
  intros Hov Hrpc Hne. unfold _chunk_by_records.
  destruct (Nat.eqb_spec (records_per_chunk self) 0); [lia|].
  assert (Hloop : forall fuel total start idx,
             (start < Z.of_nat (length recs))%Z ->
             records_loop self fmt fuel recs total start idx = Timeout).
  { clear fuel. induction fuel as [|fuel IH]; intros total start idx Hlt;
      rewrite ChunkerFacts.records_loop_eq;
      destruct (Z.ltb_spec start (Z.of_nat (length recs))); try lia;
      [reflexivity|].
    destruct (Nat.ltb_spec 0 (overlap self)); [|lia]. cbv zeta.
    rewrite IH by lia. reflexivity. }
  apply Hloop. destruct recs; [contradiction | simpl; lia].
Qed.

(** *** Size bound *)




(** X4.  Under size-bounded chunking a chunk holding a record whose
    formatted text alone exceeds the bound holds that record only. *)
Theorem oversized_record_has_own_chunk
    (recs : list record) (c : Chunk) (r : record) :
  In c (_chunk_by_size self fmt recs) ->
  In r (records c) ->
  max_chunk_size self < String.length (fmt r) ->
  records c = [r] /\ record_count c = 1.
Proof.
  intros Hc Hr Hbig.
  pose proof (ChunkerFacts.oversized_record_alone self fmt recs c r Hc Hr Hbig)
    as Hone.
  split; [exact Hone|].
  unfold _chunk_by_size in Hc.
  apply in_map_iff in Hc as ([idx [rs st]] & <- & _).
  simpl in *. now rewrite Hone.
Qed.

(** X5.  Under size-bounded chunking a chunk of [k] records is a single
    record or has at most [max_chunk_size + 2 * (k - 1)] characters of
    text: the loop bounds the sum of the records' formatted lengths and
    the text adds a two-character separator between records. *)
Theorem size_chunk_text_bound (recs : list record) (c : Chunk) :
  In c (_chunk_by_size self fmt recs) ->
  char_count c = String.length (text_content c)
  /\ (length (records c) = 1
      \/ char_count c <= max_chunk_size self + 2 * (length (records c) - 1)).
Proof.
  intros Hc.
  pose proof (ChunkerFacts.chunk_by_size_char_count self fmt recs c Hc) as Hcc.
  destruct (ChunkerFacts.chunk_by_size_accounted_bound self fmt recs c Hc)
    as [Hle|Hone].
  - split; [|right; lia].
    unfold _chunk_by_size in Hc.
    apply in_map_iff in Hc as ([idx [rs st]] & <- & _). reflexivity.
  - split; [|now left].
    unfold _chunk_by_size in Hc.
    apply in_map_iff in Hc as ([idx [rs st]] & <- & _). reflexivity.
Qed.

(** *** Grouping by time and by field *)






End Facts.

(** *** Grouping and sorting keep every element *)

Lemma insert_sorted_perm {A} (le : A -> A -> bool) (x : A) (l : list A) :
  Permutation (PyList.insert_sorted le x l) (x :: l).
Proof.
  induction l as [|y l IH]; simpl; [reflexivity|].
  destruct (le x y); [reflexivity|].
  rewrite IH. apply perm_swap.
Qed.

Lemma sorted_by_perm {A} (le : A -> A -> bool) (l : list A) :
  Permutation (PyList.sorted_by le l) l.
Proof.
  induction l as [|x l IH]; simpl; [reflexivity|].
  rewrite insert_sorted_perm. now constructor.
Qed.











(** *** The dispatch over the strategies *)






(** X26.  A chunker built with the AUTO strategy never groups by
    field, whatever [group_field] is: its records are bucketed by day
    when the schema names a timestamp field, else chunked by record
    count for Discord and Slack exports (also for Slack, whose detected
    strategy is the time-based one) and by size for every other
    format. *)
Theorem auto_strategy_dispatch
    (s : JsonSchema) (max_size : nat) (gf : option string) (rpc ov : nat)
    (fmt : record -> string) (fuel : nat) (recs : list record) :
  let self := new_chunker s max_size AUTO gf rpc ov in
  strategy self <> AUTO
  /\ strategy self <> FIELD_BASED
  /\ _chunk_array self fmt fuel recs
     = if is_set (timestamp_field s)
       then _chunk_by_time self fmt fuel recs
       else match format s with
            | DISCORD | SLACK => _chunk_by_records self fmt fuel recs
            | _ => Done (_chunk_by_size self fmt recs)
            end.
Proof.
  intros self. unfold self, new_chunker, _chunk_array, _detect_strategy.
  simpl. unfold is_set, nonempty_str.
  destruct (timestamp_field s) as [tf|]; [destruct (String.eqb tf EmptyString)|];
    destruct (format s); simpl; repeat split; try discriminate;
    destruct (is_set gf); reflexivity.
Qed.

(** *** Concrete runs *)

Definition three_records : list record :=
  [ ChunkerFacts.slack_record "2024-01-01T09:00" "ana" "hello";
    ChunkerFacts.slack_record "2024-01-02T09:00" "bo" "world";
    ChunkerFacts.slack_record "2024-01-02T10:00" "ana" "again" ].

Definition pairs_chunker (ov : nat) : JsonChunker :=
  mkChunker ChunkerFacts.slack_schema 1000 RECORDS None 2 ov.


Lemma records_chunking_with_overlap_never_ends_witness :
  _chunk_by_records (pairs_chunker 1) _format_slack_message 50 three_records
  = Timeout.
Proof.
  apply (records_chunking_with_overlap_never_ends (pairs_chunker 1)
           _format_slack_message 50 three_records);
    simpl; try lia; discriminate.
Defined.

Definition tight_chunker : JsonChunker :=
  mkChunker ChunkerFacts.slack_schema 20 SIZE_BASED None 100 0.

Definition long_record : record :=
  ChunkerFacts.slack_record "3" "c" "a much longer message".

Definition mixed_records : list record :=
  [ ChunkerFacts.slack_record "1" "a" "hi"; long_record;
    ChunkerFacts.slack_record "2" "b" "yo";
    ChunkerFacts.slack_record "4" "d" "ok" ].

Definition long_record_chunk : Chunk :=
  _create_chunk tight_chunker _format_slack_message [long_record] 1 3 1
                None None.

Definition small_pair_chunk : Chunk :=
  _create_chunk tight_chunker _format_slack_message
    [ChunkerFacts.slack_record "2" "b" "yo";
     ChunkerFacts.slack_record "4" "d" "ok"] 2 3 2 None None.

Lemma oversized_record_has_own_chunk_witness :
  records long_record_chunk = [long_record]
  /\ record_count long_record_chunk = 1.
Proof.
  apply (oversized_record_has_own_chunk tight_chunker _format_slack_message
           mixed_records long_record_chunk long_record).
  - vm_compute. right. left. reflexivity.
  - simpl. left. reflexivity.
  - vm_compute. lia.
Defined.

Lemma size_chunk_text_bound_witness :
  char_count small_pair_chunk = String.length (text_content small_pair_chunk)
  /\ (length (records small_pair_chunk) = 1
      \/ char_count small_pair_chunk
         <= max_chunk_size tight_chunker
            + 2 * (length (records small_pair_chunk) - 1)).
Proof.
  apply (size_chunk_text_bound tight_chunker _format_slack_message
           mixed_records small_pair_chunk).
  vm_compute. right. right. left. reflexivity.
Defined.




End ChunkerCoverage.

(** ** Chunk execution: filtering, ordering, accounting *)

Module ExecutorMore.
Import Executor.
Local Open Scope list_scope.

(** *** Filtering *)

Definition text_has (needle : string) (c : Chunker.Chunk) : Prop :=
  PyStr.contains (PyStr.lower needle) (PyStr.lower (Chunker.text_content c))
  = true.

(** Some keyword occurs in the chunk text (or no keyword is asked for). *)
Definition keyword_ok (criteria : Planner.FilterCriteria)
    (c : Chunker.Chunk) : Prop :=
  Planner.keywords criteria = []
  \/ exists kw, In kw (Planner.keywords criteria) /\ text_has kw c.

(** The optional filter is unset or occurs in the chunk text. *)
Definition field_ok (o : option string) (c : Chunker.Chunk) : Prop :=
  truthy_str o = false \/ text_has (opt_str o) c.

Lemma passes_filter_iff criteria c :
  passes_filter criteria c = true
  <-> keyword_ok criteria c
      /\ field_ok (Planner.channel_filter criteria) c
      /\ field_ok (Planner.author_filter criteria) c.
Proof.
  unfold passes_filter, keyword_ok, field_ok, text_has.
  rewrite !andb_true_iff.
  assert (Hkw :
    match Planner.keywords criteria with
    | [] => true
    | _ :: _ =>
        existsb (fun kw => PyStr.contains (PyStr.lower kw)
                             (PyStr.lower (Chunker.text_content c)))
                (Planner.keywords criteria)
    end = true
    <-> Planner.keywords criteria = []
        \/ exists kw, In kw (Planner.keywords criteria)
                      /\ PyStr.contains (PyStr.lower kw)
                           (PyStr.lower (Chunker.text_content c)) = true).
  { destruct (Planner.keywords criteria) as [|k ks] eqn:Hk.
    - split; auto.
    - rewrite existsb_exists. split; [auto|]. intros [Hnil|H]; [discriminate|auto]. }
  assert (Hopt : forall o,
    (if truthy_str o
     then PyStr.contains (PyStr.lower (opt_str o))
            (PyStr.lower (Chunker.text_content c))
     else true) = true
    <-> truthy_str o = false
        \/ PyStr.contains (PyStr.lower (opt_str o))
             (PyStr.lower (Chunker.text_content c)) = true).
  { intros o. destruct (truthy_str o); split; auto.
    intros [H|H]; [discriminate|exact H]. }
  rewrite <- Hkw, <- !Hopt.
  destruct (Planner.keywords criteria); tauto.
Qed.

Lemma sublist_list_filter {A} (f : A -> bool) (l : list A) :
  sublist (List.filter f l) l.
Proof.
  induction l as [|x l IH]; simpl; [constructor|].
  destruct (f x); now constructor.
Qed.

Lemma filter_chunks_sublist chunks criteria :
  sublist (_filter_chunks chunks criteria) chunks.
Proof.
  unfold _filter_chunks. destruct (_ && _);
    [reflexivity | apply sublist_list_filter].
Qed.

(** X8.  The executor's filter keeps the chunks in their order and
    keeps exactly those whose text contains, without regard to case, at
    least one of the keywords (when there are keywords), the channel
    filter (when set) and the author filter (when set). *)
Theorem filter_chunks_keeps_matching
    (chunks : list Chunker.Chunk) (criteria : Planner.FilterCriteria) :
  sublist (_filter_chunks chunks criteria) chunks
  /\ forall c,
       In c (_filter_chunks chunks criteria)
       <-> In c chunks
           /\ keyword_ok criteria c
           /\ field_ok (Planner.channel_filter criteria) c
           /\ field_ok (Planner.author_filter criteria) c.
Proof.
  unfold _filter_chunks.
  destruct (bool_decide (Planner.keywords criteria = [])
            && negb (truthy_str (Planner.channel_filter criteria))
            && negb (truthy_str (Planner.author_filter criteria))) eqn:Hnone.
  - split; [reflexivity|]. intros c.
    apply andb_true_iff in Hnone as [Hnone Ha].
    apply andb_true_iff in Hnone as [Hk Hc].
    apply bool_decide_eq_true in Hk. apply negb_true_iff in Hc, Ha.
    split; [|tauto]. intros Hin. split; [exact Hin|].
    unfold keyword_ok, field_ok. auto.
  - split; [apply sublist_list_filter|]. intros c.
    rewrite filter_In, passes_filter_iff. reflexivity.
Qed.

Section Paths.
Variable self : ChunkExecutor.
Variable complete : nat -> string -> llm_reply.
Variable md5 : string -> string.

Local Abbreviation process_chunk := (_process_chunk self complete md5).
Local Abbreviation process_sequential :=
  (_process_sequential self complete md5).
Local Abbreviation process_parallel := (_process_parallel self complete md5).
Local Abbreviation run_all := (run_submitted self complete md5).

(** *** One result per chunk *)

(** A result is a success, a budget skip, or the record of a failed
    completion call. *)
Definition accounted_for (r : ChunkResult) : Prop :=
  success r = true
  \/ (was_filtered r = true /\ content r = "Budget exceeded"%string)
  \/ exists e, success r = false /\ content r = ("Error: " ++ e)%string.

Lemma process_chunk_accounted c plan st :
  accounted_for (fst (process_chunk c plan st)).
Proof.
  destruct (ExecutorFacts.process_chunk_step self complete md5 c plan st)
    as [? _ _ -> | ? ? _ _ -> | e _ ->].
  - now left.
  - now left.
  - right. right. exists e. split; reflexivity.
Qed.

Lemma sequential_indices chunks plan : forall st,
  map chunk_index (fst (process_sequential chunks plan st))
  = map Chunker.index chunks.
Proof.
  induction chunks as [|c chunks IH]; intros st; simpl; [reflexivity|].
  unfold bind, tokens_so_far. simpl.
  destruct (budget_reached self (_tokens_used st)).
  - unfold ret at 1. simpl. specialize (IH st).
    destruct (process_sequential chunks plan st) as [rs st2]. simpl in *.
    now rewrite IH.
  - pose proof (ExecutorFacts.process_chunk_index self complete md5 c plan st)
      as Hidx.
    destruct (process_chunk c plan st) as [r st1]. simpl in Hidx.
    specialize (IH st1).
    destruct (process_sequential chunks plan st1) as [rs st2]. simpl in *.
    now rewrite Hidx, IH.
Qed.

(** X9.  The sequential path returns one result per chunk, in the order
    of the chunks and with their indices, whatever the completion
    service does: a failed call becomes an unsuccessful result holding
    the error text, and the chunks after it are still taken up. *)
Theorem sequential_one_result_per_chunk
    (chunks : list Chunker.Chunk) (plan : Planner.QueryPlan) (st : state) :
  let rs := fst (process_sequential chunks plan st) in
  map chunk_index rs = map Chunker.index chunks
  /\ Forall accounted_for rs.
Proof.
  split; [apply sequential_indices|].
  revert st. induction chunks as [|c chunks IH]; intros st; simpl;
    [constructor|].
  unfold bind, tokens_so_far. simpl.
  destruct (budget_reached self (_tokens_used st)).
  - unfold ret at 1. simpl. specialize (IH st).
    destruct (process_sequential chunks plan st) as [rs st2]. simpl in *.
    constructor; [|exact IH]. right. left. split; reflexivity.
  - pose proof (process_chunk_accounted c plan st) as Hacc.
    destruct (process_chunk c plan st) as [r st1]. simpl in Hacc.
    specialize (IH st1).
    destruct (process_sequential chunks plan st1) as [rs st2]. simpl in *.
    constructor; assumption.
Qed.

(** *** Results in index order *)

Definition by_index (a b : ChunkResult) : bool :=
  (chunk_index a <=? chunk_index b)%nat.

Lemma insert_by_index_sorted x l :
  Sorted Nat.le (map chunk_index l) ->
  Sorted Nat.le (map chunk_index (PyList.insert_sorted by_index x l)).
Proof.
  induction l as [|y l IH]; intros Hs; simpl.
  - repeat constructor.
  - unfold by_index at 1.
    destruct (Nat.leb_spec (chunk_index x) (chunk_index y)) as [Hle|Hgt]; simpl.
    + constructor; [exact Hs | constructor; exact Hle].
    + inversion Hs as [|? ? Hs' Hhd]; subst.
      constructor; [now apply IH|].
      destruct l as [|z l]; simpl.
      * constructor. lia.
      * unfold by_index.
        destruct (Nat.leb_spec (chunk_index x) (chunk_index z)); simpl;
          constructor; [lia|].
        now inversion Hhd.
Qed.

Lemma sorted_by_index_sorted l :
  Sorted Nat.le (map chunk_index (PyList.sorted_by by_index l)).
Proof.
  induction l as [|x l IH]; simpl; [constructor|].
  now apply insert_by_index_sorted.
Qed.

Lemma parallel_indices order plan st :
  let rs := fst (process_parallel order plan st) in
  Sorted Nat.le (map chunk_index rs)
  /\ Permutation (map chunk_index rs) (map Chunker.index order).
Proof.
  unfold _process_parallel, bind.
  pose proof (ExecutorFacts.run_submitted_all self complete md5 order plan st)
    as H. simpl in H.
  destruct (run_all order plan st) as [rs st']. simpl in *.
  destruct H as [Hi _]. split.
  - apply sorted_by_index_sorted.
  - rewrite <- Hi. apply Permutation_map.
    apply ChunkerCoverage.sorted_by_perm.
Qed.

(** X10.  The parallel path returns its results in ascending chunk-index
    order, and the order in which the workers ran the chunks does not
    show in it: under any two schedules of the same chunks (and from any
    two states) the sequences of chunk indices of the results are the
    same. *)
Theorem parallel_order_is_schedule_independent
    (order1 order2 : list Chunker.Chunk) (plan : Planner.QueryPlan)
    (st1 st2 : state) :
  Permutation order1 order2 ->
  let rs1 := fst (process_parallel order1 plan st1) in
  let rs2 := fst (process_parallel order2 plan st2) in
  Sorted Nat.le (map chunk_index rs1)
  /\ map chunk_index rs1 = map chunk_index rs2.
Proof.
  intros Hperm rs1 rs2.
  destruct (parallel_indices order1 plan st1) as [Hs1 Hp1].
  destruct (parallel_indices order2 plan st2) as [Hs2 Hp2].
  split; [exact Hs1|].
  apply (Sorted_unique Nat.le); [exact Hs1 | exact Hs2 |].
  fold rs1 in Hp1. fold rs2 in Hp2.
  rewrite Hp1, Hp2. now apply Permutation_map.
Qed.

(** *** State relations kept along an execution *)

Definition preserves {A} (P : state -> state -> Prop) (m : M A) : Prop :=
  forall st, P st (snd (m st)).

Section Preserved.
Variable P : state -> state -> Prop.
Hypothesis P_refl : forall st, P st st.
Hypothesis P_trans : forall a b c, P a b -> P b c -> P a c.

Lemma ret_preserves {A} (a : A) : preserves P (ret a).
Proof. intros st. apply P_refl. Qed.

Lemma bind_preserves {A B} (m : M A) (f : A -> M B) :
  preserves P m -> (forall a, preserves P (f a)) -> preserves P (bind m f).
Proof.
  intros Hm Hf st. unfold bind. specialize (Hm st).
  destruct (m st) as [a st1]. simpl in Hm.
  eapply P_trans; [exact Hm | apply Hf].
Qed.

Lemma tokens_so_far_preserves : preserves P tokens_so_far.
Proof. intros st. apply P_refl. Qed.

Hypothesis P_note : forall ev msg, preserves P (trace_add ev msg None).
Hypothesis P_chunk : forall c plan, preserves P (process_chunk c plan).
Hypothesis P_aggregate :
  forall rs plan, preserves P (_aggregate_results complete rs plan).

Lemma sequential_preserves chunks plan :
  preserves P (process_sequential chunks plan).
Proof.
  induction chunks as [|c chunks IH]; simpl; [apply ret_preserves|].
  apply bind_preserves; [apply tokens_so_far_preserves|]. intros used.
  apply bind_preserves.
  - destruct (budget_reached self used); [apply ret_preserves | apply P_chunk].
  - intros r. apply bind_preserves; [exact IH|]. intros rs. apply ret_preserves.
Qed.

Lemma run_submitted_preserves order plan : preserves P (run_all order plan).
Proof.
  induction order as [|c order IH]; simpl; [apply ret_preserves|].
  apply bind_preserves; [apply P_chunk|]. intros r.
  apply bind_preserves; [exact IH|]. intros rs. apply ret_preserves.
Qed.

Lemma parallel_preserves order plan :
  preserves P (process_parallel order plan).
Proof.
  unfold _process_parallel. apply bind_preserves;
    [apply run_submitted_preserves|]. intros rs. apply ret_preserves.
Qed.

(** What holds between the state after the token counter was reset and
    the state at the end of [execute]. *)
Lemma execute_preserves sched chunks plan st :
  P (snd (reset_tokens st))
    (snd (execute self complete md5 sched chunks plan st)).
Proof.
  unfold execute. unfold bind at 1.
  destruct (reset_tokens st) as [u st0]. simpl. cbv zeta.
  revert st0. change (preserves P ?m) with (forall st0, P st0 (snd (m st0))).
  apply bind_preserves; [apply P_note|]. intros _.
  apply bind_preserves.
  { destruct (match Planner.chunk_limit plan with
              | Some l => _ | None => false end);
      [apply P_note | apply ret_preserves]. }
  intros _. apply bind_preserves.
  { destruct (Planner.parallel_ok plan && (1 <? max_parallel self)%nat);
      [apply parallel_preserves | apply sequential_preserves]. }
  intros rs. apply bind_preserves; [apply tokens_so_far_preserves|].
  intros used. apply bind_preserves.
  { destruct (budget_reached self used); [apply P_note | apply ret_preserves]. }
  intros _. apply bind_preserves.
  { destruct (List.filter is_relevant rs);
      [apply ret_preserves | apply P_aggregate]. }
  intros agg. apply ret_preserves.
Qed.

End Preserved.

(** *** The cache when caching is off *)

Definition same_cache (st st' : state) : Prop := _cache st' = _cache st.

Lemma process_chunk_uncached c plan st :
  cache_enabled self = false ->
  same_cache st (snd (process_chunk c plan st))
  /\ was_cached (fst (process_chunk c plan st)) = false.
Proof.
  intros Hoff. unfold same_cache.
  destruct (ExecutorFacts.process_chunk_step self complete md5 c plan st)
    as [? Hon _ _ _ _ _ | ? ? _ _ -> Hc _ _ | ? _ -> Hc _ _].
  - congruence.
  - rewrite Hc, Hoff. split; reflexivity.
  - rewrite Hc. split; reflexivity.
Qed.

Lemma aggregate_same_cache rs plan :
  preserves same_cache (_aggregate_results complete rs plan).
Proof.
  intros st. unfold same_cache, _aggregate_results, bind, trace_add,
    llm_complete. simpl.
  destruct (complete (llm_calls st) _); reflexivity.
Qed.

Lemma uncached_results_sequential chunks plan : forall st,
  cache_enabled self = false ->
  Forall (fun r => was_cached r = false)
         (fst (process_sequential chunks plan st)).
Proof.
  induction chunks as [|c chunks IH]; intros st Hoff; simpl; [constructor|].
  unfold bind, tokens_so_far. simpl.
  destruct (budget_reached self (_tokens_used st)).
  - unfold ret at 1. simpl. specialize (IH st Hoff).
    destruct (process_sequential chunks plan st) as [rs st2]. simpl in *.
    constructor; [reflexivity | exact IH].
  - destruct (process_chunk_uncached c plan st Hoff) as [_ Hr].
    destruct (process_chunk c plan st) as [r st1]. simpl in Hr.
    specialize (IH st1 Hoff).
    destruct (process_sequential chunks plan st1) as [rs st2]. simpl in *.
    constructor; assumption.
Qed.

Lemma uncached_results_submitted order plan : forall st,
  cache_enabled self = false ->
  Forall (fun r => was_cached r = false) (fst (run_all order plan st)).
Proof.
  induction order as [|c order IH]; intros st Hoff; simpl; [constructor|].
  unfold bind.
  destruct (process_chunk_uncached c plan st Hoff) as [_ Hr].
  destruct (process_chunk c plan st) as [r st1]. simpl in Hr.
  specialize (IH st1 Hoff).
  destruct (run_all order plan st1) as [rs st2]. simpl in *.
  constructor; assumption.
Qed.

(** X11.  With caching off, an execution leaves the result cache as it
    was, in the sequential as in the parallel path, and tags no result
    of either path as cached. *)
Theorem caching_off_never_touches_cache
    (sched : list Chunker.Chunk -> list Chunker.Chunk)
    (chunks : list Chunker.Chunk) (plan : Planner.QueryPlan) (st : state) :
  cache_enabled self = false ->
  _cache (snd (execute self complete md5 sched chunks plan st)) = _cache st
  /\ Forall (fun r => was_cached r = false)
            (fst (process_sequential chunks plan st))
  /\ Forall (fun r => was_cached r = false)
            (fst (process_parallel (sched chunks) plan st)).
Proof.
  intros Hoff. split; [|split].
  - apply (execute_preserves same_cache); unfold same_cache; try congruence.
    + intros ev msg st0. reflexivity.
    + intros c p st0. now apply process_chunk_uncached.
    + apply aggregate_same_cache.
  - now apply uncached_results_sequential.
  - unfold _process_parallel, bind.
    pose proof (uncached_results_submitted (sched chunks) plan st Hoff) as H.
    destruct (run_all (sched chunks) plan st) as [rs st']. simpl in *.
    now apply ExecutorFacts.sorted_by_Forall.
Qed.

(** *** Token accounting *)

Definition tokens_of (rs : list ChunkResult) : nat :=
  list_sum (map tokens_used rs).

Lemma tokens_of_perm rs rs' :
  Permutation rs rs' -> tokens_of rs = tokens_of rs'.
Proof.
  unfold tokens_of. induction 1; simpl; lia.
Qed.

Lemma process_chunk_tokens c plan st :
  _tokens_used (snd (process_chunk c plan st))
  = _tokens_used st + tokens_used (fst (process_chunk c plan st)).
Proof.
  destruct (ExecutorFacts.process_chunk_step self complete md5 c plan st)
    as [? _ _ -> _ -> _ | ? ? _ _ -> _ -> _ | ? _ -> _ -> _]; simpl; lia.
Qed.

Lemma sequential_tokens_sum chunks plan : forall st,
  _tokens_used (snd (process_sequential chunks plan st))
  = _tokens_used st + tokens_of (fst (process_sequential chunks plan st)).
Proof.
  unfold tokens_of.
  induction chunks as [|c chunks IH]; intros st; simpl; [lia|].
  unfold bind, tokens_so_far. simpl.
  destruct (budget_reached self (_tokens_used st)).
  - unfold ret at 1. simpl. specialize (IH st).
    destruct (process_sequential chunks plan st) as [rs st2]. simpl in *. lia.
  - pose proof (process_chunk_tokens c plan st) as Hc.
    destruct (process_chunk c plan st) as [r st1]. simpl in Hc.
    specialize (IH st1).
    destruct (process_sequential chunks plan st1) as [rs st2]. simpl in *. lia.
Qed.

Lemma submitted_tokens_sum order plan : forall st,
  _tokens_used (snd (run_all order plan st))
  = _tokens_used st + tokens_of (fst (run_all order plan st)).
Proof.
  unfold tokens_of.
  induction order as [|c order IH]; intros st; simpl; [lia|].
  unfold bind.
  pose proof (process_chunk_tokens c plan st) as Hc.
  destruct (process_chunk c plan st) as [r st1]. simpl in Hc.
  specialize (IH st1).
  destruct (run_all order plan st1) as [rs st2]. simpl in *. lia.
Qed.

Lemma parallel_tokens_sum order plan st :
  _tokens_used (snd (process_parallel order plan st))
  = _tokens_used st + tokens_of (fst (process_parallel order plan st)).
Proof.
  unfold _process_parallel, bind.
  pose proof (submitted_tokens_sum order plan st) as H.
  destruct (run_all order plan st) as [rs st']. simpl in *.
  rewrite (tokens_of_perm _ _ (ChunkerCoverage.sorted_by_perm _ rs)).
  exact H.
Qed.

Lemma aggregate_tokens_grow rs plan st :
  _tokens_used st
  <= _tokens_used (snd (_aggregate_results complete rs plan st)).
Proof.
  unfold _aggregate_results, bind, trace_add, llm_complete. simpl.
  destruct (complete (llm_calls st) _); simpl; lia.
Qed.

Lemma filter_length_le {A} (f g : A -> bool) (l : list A) :
  (forall x, f x = true -> g x = true) ->
  length (List.filter f l) <= length (List.filter g l).
Proof.
  intros Hfg. induction l as [|x l IH]; simpl; [lia|].
  destruct (f x) eqn:Hf.
  - rewrite (Hfg x Hf). simpl. lia.
  - destruct (g x); simpl; lia.
Qed.

Lemma cached_is_processed c plan st :
  let r := fst (process_chunk c plan st) in
  was_cached r = true -> success r && negb (was_filtered r) = true.
Proof.
  destruct (ExecutorFacts.process_chunk_step self complete md5 c plan st)
    as [? _ _ -> | ? ? _ _ -> | ? _ ->]; simpl; congruence.
Qed.

Lemma sequential_cached_processed chunks plan : forall st,
  Forall (fun r => was_cached r = true ->
                   success r && negb (was_filtered r) = true)
         (fst (process_sequential chunks plan st)).
Proof.
  induction chunks as [|c chunks IH]; intros st; simpl; [constructor|].
  unfold bind, tokens_so_far. simpl.
  destruct (budget_reached self (_tokens_used st)).
  - unfold ret at 1. simpl. specialize (IH st).
    destruct (process_sequential chunks plan st) as [rs st2]. simpl in *.
    constructor; [simpl; congruence | exact IH].
  - pose proof (cached_is_processed c plan st) as Hc.
    destruct (process_chunk c plan st) as [r st1]. simpl in Hc.
    specialize (IH st1).
    destruct (process_sequential chunks plan st1) as [rs st2]. simpl in *.
    constructor; assumption.
Qed.

Lemma submitted_cached_processed order plan : forall st,
  Forall (fun r => was_cached r = true ->
                   success r && negb (was_filtered r) = true)
         (fst (run_all order plan st)).
Proof.
  induction order as [|c order IH]; intros st; simpl; [constructor|].
  unfold bind.
  pose proof (cached_is_processed c plan st) as Hc.
  destruct (process_chunk c plan st) as [r st1]. simpl in Hc.
  specialize (IH st1).
  destruct (run_all order plan st1) as [rs st2]. simpl in *.
  constructor; assumption.
Qed.

Lemma filter_length_le_on {A} (f g : A -> bool) (l : list A) :
  Forall (fun x => f x = true -> g x = true) l ->
  length (List.filter f l) <= length (List.filter g l).
Proof.
  induction 1 as [|x l Hx _ IH]; simpl; [lia|].
  destruct (f x) eqn:Hf.
  - rewrite (Hx eq_refl). simpl. lia.
  - destruct (g x); simpl; lia.
Qed.

(** The chunks an execution hands to its processing path, and the
    state in which that path starts. *)
Lemma execute_runs_one_path sched chunks plan st :
  exists cs st1,
    sublist cs (_filter_chunks chunks (Planner.filter_criteria plan))
    /\ _tokens_used st1 = 0
    /\ _cache st1 = _cache st
    /\ let p := (if Planner.parallel_ok plan && (1 <? max_parallel self)%nat
                 then process_parallel (sched cs) plan
                 else process_sequential cs plan) st1 in
       let res := fst (execute self complete md5 sched chunks plan st) in
       let fin := snd (execute self complete md5 sched chunks plan st) in
       chunk_results res = fst p
       /\ total_tokens res = _tokens_used (snd p)
       /\ _tokens_used (snd p) <= _tokens_used fin
       /\ chunks_processed res
          = length (List.filter
                      (fun r => success r && negb (was_filtered r)) (fst p))
       /\ chunks_cached res = length (List.filter was_cached (fst p))
       /\ total_chunks res = length chunks
       /\ chunks_filtered res
          = length chunks
            - length (_filter_chunks chunks (Planner.filter_criteria plan)).
Proof.
  unfold execute, bind, reset_tokens, tokens_so_far. cbv zeta.
  set (filtered0 := _filter_chunks chunks (Planner.filter_criteria plan)).
  set (over := match Planner.chunk_limit plan with
               | Some l => negb (l =? 0)%nat && (l <? length filtered0)%nat
               | None => false end).
  set (limit := match Planner.chunk_limit plan with
                | Some l => l | None => 0 end).
  set (cs := if over then firstn limit filtered0 else filtered0).
  destruct (trace_add Trace.INFO _ None _) as [u1 s1] eqn:E1.
  assert (H1 : _tokens_used s1 = 0 /\ _cache s1 = _cache st).
  { unfold trace_add in E1. inversion E1. split; reflexivity. }
  destruct ((if over then trace_add Trace.WARNING _ None else ret tt) s1)
    as [u2 s2] eqn:E2.
  assert (H2 : _tokens_used s2 = 0 /\ _cache s2 = _cache st).
  { destruct over; unfold trace_add, ret in E2; inversion E2; subst;
      simpl; exact H1. }
  exists cs, s2. split; [|split; [apply H2 | split; [apply H2|]]].
  { unfold cs. destruct over; [apply sublist_take | reflexivity]. }
  cbv zeta.
  destruct ((if Planner.parallel_ok plan && (1 <? max_parallel self)%nat
             then process_parallel (sched cs) plan
             else process_sequential cs plan) s2) as [rs s3].
  cbn [fst snd].
  destruct ((if budget_reached self (_tokens_used s3)
             then trace_add Trace.WARNING _ None else ret tt) s3)
    as [u4 s4] eqn:E4.
  assert (H4 : _tokens_used s4 = _tokens_used s3).
  { destruct (budget_reached self (_tokens_used s3));
      unfold trace_add, ret in E4; inversion E4; reflexivity. }
  destruct (match List.filter is_relevant rs with
            | [] => ret _ | _ => _ end s4) as [agg s5] eqn:E5.
  assert (H5 : _tokens_used s4 <= _tokens_used s5).
  { destruct (List.filter is_relevant rs).
    - unfold ret in E5. inversion E5. lia.
    - pose proof (aggregate_tokens_grow (c :: l) plan s4) as Hg.
      rewrite E5 in Hg. exact Hg. }
  cbn. repeat split; try reflexivity. lia.
Qed.

(** X12.  What [execute] reports as [total_tokens] is the sum of the
    tokens of its chunk results, whichever path ran; tokens spent on
    the aggregation call are not in it but are in the executor's
    counter.  Results served from the cache are counted as processed,
    and there is at most one result per chunk given. *)
Theorem execute_total_is_sum_of_chunk_tokens
    (sched : list Chunker.Chunk -> list Chunker.Chunk)
    (chunks : list Chunker.Chunk) (plan : Planner.QueryPlan) (st : state) :
  (forall l, length (sched l) = length l) ->
  let res := fst (execute self complete md5 sched chunks plan st) in
  let fin := snd (execute self complete md5 sched chunks plan st) in
  total_tokens res = tokens_of (chunk_results res)
  /\ total_tokens res <= _tokens_used fin
  /\ chunks_cached res <= chunks_processed res
  /\ chunks_processed res <= length (chunk_results res)
  /\ length (chunk_results res) + chunks_filtered res <= total_chunks res.
Proof.
  intros Hsched.
  destruct (execute_runs_one_path sched chunks plan st)
    as (cs & st1 & Hsub & Hzero & _ & Hres & Htot & Hfin & Hproc & Hcached
        & Hn & Hfilt).
  cbv zeta. rewrite Hres, Htot, Hproc, Hcached, Hn, Hfilt.
  split; [|split; [exact Hfin | split; [|split]]].
  - destruct (Planner.parallel_ok plan && (1 <? max_parallel self)%nat).
    + rewrite parallel_tokens_sum. lia.
    + rewrite sequential_tokens_sum. lia.
  - apply filter_length_le_on.
    destruct (Planner.parallel_ok plan && (1 <? max_parallel self)%nat).
    + unfold _process_parallel, bind.
      pose proof (submitted_cached_processed (sched cs) plan st1) as H.
      destruct (run_all (sched cs) plan st1) as [rs st']. simpl in *.
      now apply ExecutorFacts.sorted_by_Forall.
    + apply sequential_cached_processed.
  - apply List.filter_length_le.
  - assert (Hlen : length (fst ((if Planner.parallel_ok plan
                                    && (1 <? max_parallel self)%nat
                                 then process_parallel (sched cs) plan
                                 else process_sequential cs plan) st1))
                   = length cs).
    { destruct (Planner.parallel_ok plan && (1 <? max_parallel self)%nat).
      - unfold _process_parallel, bind.
        pose proof (ExecutorFacts.run_submitted_all self complete md5
                      (sched cs) plan st1) as [Hidx _].
        destruct (run_all (sched cs) plan st1) as [rs st']. simpl in *.
        rewrite ExecutorFacts.sorted_by_length.
        rewrite <- (length_map chunk_index), Hidx, length_map. apply Hsched.
      - apply ExecutorFacts.process_sequential_length. }
    rewrite Hlen.
    pose proof (filter_chunks_sublist chunks
                  (Planner.filter_criteria plan)) as Hf.
    apply sublist_length in Hf.
    apply sublist_length in Hsub. lia.
Qed.

(** *** The trace along an execution *)

(** The trace object is kept or stays absent; a trace whose totals
    agree with its entries keeps them in agreement, its entries are
    only appended to, and its token total moves with the executor's
    counter. *)
Definition tracks (st st' : state) : Prop :=
  match trace st with
  | None => trace st' = None
  | Some t =>
      exists t', trace st' = Some t'
        /\ (Trace.consistent t -> Trace.consistent t')
        /\ (exists more, Trace.entries t' = Trace.entries t ++ more)
        /\ (Trace.total_tokens t' - Trace.total_tokens t
            = Z.of_nat (_tokens_used st') - Z.of_nat (_tokens_used st))%Z
  end.

Lemma tracks_refl st : tracks st st.
Proof.
  unfold tracks. destruct (trace st) as [t|]; [|reflexivity].
  exists t. split; [reflexivity|]. split; [tauto|]. split; [|lia].
  exists []. now rewrite app_nil_r.
Qed.

Lemma tracks_trans a b c : tracks a b -> tracks b c -> tracks a c.
Proof.
  unfold tracks. destruct (trace a) as [ta|].
  - intros (tb & Hb & Hc1 & [m1 He1] & Ht1). rewrite Hb.
    intros (tc & Hc & Hc2 & [m2 He2] & Ht2).
    exists tc. split; [exact Hc|]. split; [tauto|]. split; [|lia].
    exists (m1 ++ m2). now rewrite He2, He1, <- app_assoc.
  - intros Hb. rewrite Hb. tauto.
Qed.

Lemma tracks_step st st' ev msg tok :
  trace st' = match trace st with
              | Some t => Some (Trace.add_entry t ev msg tok)
              | None => None
              end ->
  (Z.of_nat (_tokens_used st')
   = Z.of_nat (_tokens_used st) + Trace.or_zero tok)%Z ->
  tracks st st'.
Proof.
  unfold tracks. intros Ht Hn. destruct (trace st) as [t|]; [|exact Ht].
  eexists. split; [exact Ht|]. split; [|split].
  - apply TraceFacts.add_entry_consistent.
  - eexists. apply TraceFacts.entries_add_entry.
  - simpl. rewrite TraceFacts.truthy_sum. lia.
Qed.

Lemma tracks_error_step st st' msg :
  trace st' = match trace st with
              | Some t => Some (Trace.log_error t msg)
              | None => None
              end ->
  _tokens_used st' = _tokens_used st ->
  tracks st st'.
Proof.
  unfold tracks. intros Ht Hn. destruct (trace st) as [t|]; [|exact Ht].
  eexists. split; [exact Ht|]. split; [|split].
  - apply TraceFacts.log_error_consistent.
  - eexists. unfold Trace.log_error. now rewrite TraceFacts.entries_add_entry.
  - simpl. lia.
Qed.

Lemma tracks_note ev msg : preserves tracks (trace_add ev msg None).
Proof.
  intros st. eapply tracks_step; [reflexivity | simpl; lia].
Qed.

Lemma tracks_chunk c plan : preserves tracks (process_chunk c plan).
Proof.
  intros st.
  unfold _process_chunk, call_llm_for_chunk, bind, cache_lookup,
    llm_complete. simpl.
  destruct (if cache_enabled self
            then _cache st !! _cache_key md5 c (Planner.query plan)
            else None) as [cached|].
  - apply tracks_note.
  - destruct (complete (llm_calls st) _) as [text tokens|e]; simpl.
    + eapply tracks_trans; [apply (tracks_note Trace.CHUNK_START) |].
      eapply tracks_step.
      * destruct (cache_enabled self); simpl; reflexivity.
      * destruct (cache_enabled self); simpl; lia.
    + eapply tracks_trans; [apply (tracks_note Trace.CHUNK_START) |].
      eapply tracks_step; [reflexivity | simpl; lia].
Qed.

Lemma tracks_aggregate rs plan :
  preserves tracks (_aggregate_results complete rs plan).
Proof.
  intros st. unfold _aggregate_results, bind, llm_complete. simpl.
  destruct (complete (llm_calls st) _) as [text tokens|e]; simpl.
  - eapply tracks_trans; [apply (tracks_note Trace.AGGREGATE_START) |].
    eapply tracks_step; [reflexivity | simpl; lia].
  - eapply tracks_trans; [apply (tracks_note Trace.AGGREGATE_START) |].
    eapply tracks_error_step; reflexivity.
Qed.

(** X13.  When [execute] is given a trace whose totals agree with its
    entries, the trace it leaves still has them in agreement, has the
    old entries as a prefix, and its token total has grown by exactly
    the executor's counter at the end (chunk and aggregation tokens). *)
Theorem execute_trace_follows_token_counter
    (sched : list Chunker.Chunk -> list Chunker.Chunk)
    (chunks : list Chunker.Chunk) (plan : Planner.QueryPlan) (st : state)
    (t : Trace.ExecutionTrace) :
  trace st = Some t ->
  Trace.consistent t ->
  let fin := snd (execute self complete md5 sched chunks plan st) in
  exists t',
    trace fin = Some t'
    /\ Trace.consistent t'
    /\ (exists more, Trace.entries t' = Trace.entries t ++ more)
    /\ Trace.total_tokens t'
       = (Trace.total_tokens t + Z.of_nat (_tokens_used fin))%Z.
Proof.
  intros Ht Hcons fin.
  pose proof (execute_preserves tracks tracks_refl tracks_trans tracks_note
                tracks_chunk tracks_aggregate sched chunks plan st) as H.
  unfold tracks in H. simpl in H. rewrite Ht in H.
  destruct H as (t' & Hfin & Hc & Hmore & Htok).
  exists t'. split; [exact Hfin|]. split; [tauto|]. split; [exact Hmore|].
  fold fin in Htok. lia.
Qed.

(** *** Which chunks are processed *)

(** The chunks [execute] hands to its processing path: those passing
    the filter, cut to the plan's chunk limit when that is set and not
    zero. *)
Definition selected (plan : Planner.QueryPlan) (chunks : list Chunker.Chunk)
  : list Chunker.Chunk :=
  let passing := _filter_chunks chunks (Planner.filter_criteria plan) in
  match Planner.chunk_limit plan with
  | Some (S l) => firstn (S l) passing
  | _ => passing
  end.

Lemma selected_is_limited plan chunks :
  let filtered0 := _filter_chunks chunks (Planner.filter_criteria plan) in
  let over_limit :=
    match Planner.chunk_limit plan with
    | Some l => negb (l =? 0)%nat && (l <? length filtered0)%nat
    | None => false
    end in
  let limit := match Planner.chunk_limit plan with
               | Some l => l | None => 0 end in
  (if over_limit then firstn limit filtered0 else filtered0)
  = selected plan chunks.
Proof.
  unfold selected. cbv zeta.
  destruct (Planner.chunk_limit plan) as [[|l]|]; try reflexivity.
  simpl negb. rewrite andb_true_l.
  destruct (Nat.ltb_spec (S l)
              (length (_filter_chunks chunks (Planner.filter_criteria plan))));
    [reflexivity|].
  symmetry. now apply firstn_all2.
Qed.

Section Framed.
Variable Q : state -> state -> Prop.
Hypothesis Q_refl : forall st, Q st st.
Hypothesis Q_trans : forall a b c, Q a b -> Q b c -> Q a c.
Hypothesis Q_reset : preserves Q reset_tokens.
Hypothesis Q_info : forall msg, preserves Q (trace_add Trace.INFO msg None).
Hypothesis Q_warning :
  forall msg, preserves Q (trace_add Trace.WARNING msg None).
Hypothesis Q_aggregate :
  forall rs plan, preserves Q (_aggregate_results complete rs plan).

(** [execute] runs one processing path on the selected chunks; what
    comes before and after it only resets the token counter, logs
    notes and aggregates. *)
Lemma execute_frames sched chunks plan st :
  exists st1,
    Q st st1 /\ _tokens_used st1 = 0
    /\ let cs := selected plan chunks in
       let p := (if Planner.parallel_ok plan && (1 <? max_parallel self)%nat
                 then process_parallel (sched cs) plan
                 else process_sequential cs plan) st1 in
       let res := fst (execute self complete md5 sched chunks plan st) in
       let fin := snd (execute self complete md5 sched chunks plan st) in
       chunk_results res = fst p
       /\ chunks_processed res
          = length (List.filter
                      (fun r => success r && negb (was_filtered r)) (fst p))
       /\ chunks_cached res = length (List.filter was_cached (fst p))
       /\ Q (snd p) fin.
Proof.
  unfold execute, bind, tokens_so_far. cbv zeta.
  rewrite selected_is_limited.
  pose proof (Q_reset st) as H0.
  destruct (reset_tokens st) as [u0 s0] eqn:E0.
  assert (Hz0 : _tokens_used s0 = 0).
  { unfold reset_tokens in E0. inversion E0. reflexivity. }
  simpl in H0.
  match goal with |- context [trace_add Trace.INFO ?m None s0] =>
    pose proof (Q_info m s0) as H1;
    assert (Hz1 : _tokens_used (snd (trace_add Trace.INFO m None s0)) = 0)
      by exact Hz0;
    destruct (trace_add Trace.INFO m None s0) as [u1 s1] end.
  simpl in H1, Hz1.
  match goal with |- context [(if ?b then trace_add Trace.WARNING ?m None
                               else ret tt) s1] =>
    assert (H2 : Q s1 (snd ((if b then trace_add Trace.WARNING m None
                             else ret tt) s1)))
      by (destruct b; [apply Q_warning | apply Q_refl]);
    assert (Hz2 : _tokens_used (snd ((if b then trace_add Trace.WARNING m None
                                      else ret tt) s1)) = 0)
      by (destruct b; exact Hz1);
    destruct ((if b then trace_add Trace.WARNING m None else ret tt) s1)
      as [u2 s2] end.
  simpl in H2, Hz2.
  exists s2. split; [eauto|]. split; [exact Hz2|]. cbv zeta.
  destruct ((if Planner.parallel_ok plan && (1 <? max_parallel self)%nat
             then process_parallel (sched (selected plan chunks)) plan
             else process_sequential (selected plan chunks) plan) s2)
    as [rs s3].
  cbn [fst snd].
  match goal with |- context [(if ?b then trace_add Trace.WARNING ?m None
                               else ret tt) s3] =>
    assert (H4 : Q s3 (snd ((if b then trace_add Trace.WARNING m None
                             else ret tt) s3)))
      by (destruct b; [apply Q_warning | apply Q_refl]);
    destruct ((if b then trace_add Trace.WARNING m None else ret tt) s3)
      as [u4 s4] end.
  simpl in H4.
  match goal with |- context [match List.filter is_relevant rs with
                              | [] => ret ?d | _ => _ end s4] =>
    assert (H5 : Q s4 (snd (match List.filter is_relevant rs with
                            | [] => ret d
                            | _ => _aggregate_results complete
                                     (List.filter is_relevant rs) plan
                            end s4)))
      by (destruct (List.filter is_relevant rs);
          [apply Q_refl | apply Q_aggregate]);
    destruct (match List.filter is_relevant rs with
              | [] => ret d
              | _ => _aggregate_results complete
                       (List.filter is_relevant rs) plan
              end s4) as [agg s5] end.
  simpl in H5. cbn. repeat split. eauto.
Qed.

End Framed.

(** X23.  [execute] returns one result for each chunk that passes the
    plan's filter, up to the plan's chunk limit (a limit of 0 counts as
    no limit): on the sequential path in the order of those chunks, on
    the parallel path sorted by chunk index. *)
Theorem execute_results_follow_selection
    (sched : list Chunker.Chunk -> list Chunker.Chunk)
    (chunks : list Chunker.Chunk) (plan : Planner.QueryPlan) (st : state) :
  (forall l, Permutation (sched l) l) ->
  let res := fst (execute self complete md5 sched chunks plan st) in
  let ran := map chunk_index (chunk_results res) in
  let chosen := map Chunker.index (selected plan chunks) in
  Permutation ran chosen
  /\ (if Planner.parallel_ok plan && (1 <? max_parallel self)%nat
      then Sorted Nat.le ran else ran = chosen).
Proof.
  intros Hsched.
  destruct (execute_frames (fun _ _ => True) (fun _ => I)
              (fun _ _ _ _ _ => I) (fun _ => I) (fun _ _ => I)
              (fun _ _ => I) (fun _ _ _ => I) sched chunks plan st)
    as (st1 & _ & _ & Hres & _).
  cbv zeta in *. rewrite Hres.
  destruct (Planner.parallel_ok plan && (1 <? max_parallel self)%nat).
  - destruct (parallel_indices (sched (selected plan chunks)) plan st1)
      as [Hs Hp].
    split; [|exact Hs]. rewrite Hp. apply Permutation_map, Hsched.
  - rewrite sequential_indices. split; reflexivity.
Qed.

(** *** Trace counters *)

(** A result of a completion call that succeeded. *)
Definition fresh (r : ChunkResult) : bool :=
  success r && negb (was_cached r) && negb (was_filtered r).

Definition count (f : ChunkResult -> bool) (rs : list ChunkResult) : Z :=
  Z.of_nat (length (List.filter f rs)).

Lemma count_cons f r rs : count f (r :: rs) = (count f [r] + count f rs)%Z.
Proof. unfold count. simpl. destruct (f r); simpl; lia. Qed.

Lemma count_perm f rs rs' : Permutation rs rs' -> count f rs = count f rs'.
Proof.
  unfold count. induction 1; simpl; try lia.
  - destruct (f x); simpl; lia.
  - destruct (f x), (f y); simpl; lia.
Qed.

(** The trace is kept or stays absent; its count of completion calls
    stays, its count of processed chunks grows by [dp] and its count
    of skipped chunks by [ds]. *)
Definition counters_move (dp ds : Z) (st st' : state) : Prop :=
  match trace st with
  | None => trace st' = None
  | Some t =>
      exists t', trace st' = Some t'
        /\ Trace.total_llm_calls t' = Trace.total_llm_calls t
        /\ Trace.chunks_processed t' = (Trace.chunks_processed t + dp)%Z
        /\ Trace.chunks_skipped t' = (Trace.chunks_skipped t + ds)%Z
  end.

Lemma counters_same st st' :
  trace st' = trace st -> counters_move 0 0 st st'.
Proof.
  unfold counters_move. intros H. destruct (trace st) as [t|]; [|exact H].
  exists t. repeat split; [exact H | lia | lia].
Qed.

Lemma counters_trans a b c d e f s1 s2 s3 :
  counters_move a b s1 s2 -> counters_move c d s2 s3 ->
  (a + c = e)%Z -> (b + d = f)%Z -> counters_move e f s1 s3.
Proof.
  unfold counters_move. intros H1 H2 He Hf. destruct (trace s1) as [t1|].
  - destruct H1 as (t2 & Ht2 & Hl2 & Hp2 & Hs2). rewrite Ht2 in H2.
    destruct H2 as (t3 & Ht3 & Hl3 & Hp3 & Hs3). exists t3.
    split; [exact Ht3|]. split; [congruence|]. split; lia.
  - now rewrite H1 in H2.
Qed.

Lemma counters_add ev msg tok st :
  ev <> Trace.LLM_CALL_END ->
  counters_move (if bool_decide (ev = Trace.CHUNK_END) then 1 else 0)
                (if bool_decide (ev = Trace.CHUNK_SKIP) then 1 else 0)
                st (snd (trace_add ev msg tok st)).
Proof.
  intros Hev. unfold counters_move, trace_add. simpl.
  destruct (trace st) as [t|]; [|reflexivity].
  eexists. split; [reflexivity|]. simpl.
  rewrite (bool_decide_eq_false_2 _ Hev). simpl.
  split; [reflexivity|].
  split; destruct (bool_decide _); simpl; lia.
Qed.

Lemma counters_plain ev msg tok st :
  ev <> Trace.LLM_CALL_END -> ev <> Trace.CHUNK_END ->
  ev <> Trace.CHUNK_SKIP ->
  counters_move 0 0 st (snd (trace_add ev msg tok st)).
Proof.
  intros H1 H2 H3. pose proof (counters_add ev msg tok st H1) as H.
  now rewrite (bool_decide_eq_false_2 _ H2), (bool_decide_eq_false_2 _ H3)
    in H.
Qed.

Lemma counters_call c plan key st :
  counters_move (count fresh [fst (call_llm_for_chunk self complete c plan
                                     key st)])
                (count was_cached [fst (call_llm_for_chunk self complete c
                                          plan key st)])
                st (snd (call_llm_for_chunk self complete c plan key st)).
Proof.
  unfold call_llm_for_chunk, bind, llm_complete. simpl.
  destruct (complete (llm_calls st) _) as [text tokens|e]; simpl;
    destruct (cache_enabled self); simpl;
    unfold counters_move; simpl;
    (destruct (trace st) as [t|]; [|reflexivity]);
    eexists; (split; [reflexivity|]); unfold count, fresh; simpl;
    repeat split; lia.
Qed.

Lemma counters_chunk c plan st :
  counters_move (count fresh [fst (process_chunk c plan st)])
                (count was_cached [fst (process_chunk c plan st)])
                st (snd (process_chunk c plan st)).
Proof.
  unfold _process_chunk, bind, cache_lookup. simpl.
  destruct (if cache_enabled self
            then _cache st !! _cache_key md5 c (Planner.query plan)
            else None) as [cached|].
  - apply (counters_add Trace.CHUNK_SKIP). discriminate.
  - apply counters_call.
Qed.

Lemma counters_sequential chunks plan : forall st,
  counters_move (count fresh (fst (process_sequential chunks plan st)))
                (count was_cached (fst (process_sequential chunks plan st)))
                st (snd (process_sequential chunks plan st)).
Proof.
  induction chunks as [|c chunks IH]; intros st; simpl;
    [now apply counters_same|].
  unfold bind, tokens_so_far. simpl.
  destruct (budget_reached self (_tokens_used st)).
  - unfold ret at 1. simpl. specialize (IH st).
    destruct (process_sequential chunks plan st) as [rs st2]. simpl in *.
    rewrite (count_cons fresh), (count_cons was_cached). exact IH.
  - pose proof (counters_chunk c plan st) as Hc.
    destruct (process_chunk c plan st) as [r st1]. simpl in Hc.
    specialize (IH st1).
    destruct (process_sequential chunks plan st1) as [rs st2]. simpl in *.
    rewrite (count_cons fresh), (count_cons was_cached).
    eapply counters_trans; [exact Hc | exact IH | reflexivity | reflexivity].
Qed.

Lemma counters_submitted order plan : forall st,
  counters_move (count fresh (fst (run_all order plan st)))
                (count was_cached (fst (run_all order plan st)))
                st (snd (run_all order plan st)).
Proof.
  induction order as [|c order IH]; intros st; simpl;
    [now apply counters_same|].
  unfold bind.
  pose proof (counters_chunk c plan st) as Hc.
  destruct (process_chunk c plan st) as [r st1]. simpl in Hc.
  specialize (IH st1).
  destruct (run_all order plan st1) as [rs st2]. simpl in *.
  rewrite (count_cons fresh), (count_cons was_cached).
  eapply counters_trans; [exact Hc | exact IH | reflexivity | reflexivity].
Qed.

Lemma counters_parallel order plan st :
  counters_move (count fresh (fst (process_parallel order plan st)))
                (count was_cached (fst (process_parallel order plan st)))
                st (snd (process_parallel order plan st)).
Proof.
  unfold _process_parallel, bind.
  pose proof (counters_submitted order plan st) as H.
  destruct (run_all order plan st) as [rs st']. simpl in *.
  now rewrite !(count_perm _ _ _ (ChunkerCoverage.sorted_by_perm _ rs)).
Qed.

Lemma counters_aggregate rs plan :
  preserves (counters_move 0 0) (_aggregate_results complete rs plan).
Proof.
  intros st. unfold _aggregate_results, bind, llm_complete. simpl.
  destruct (complete (llm_calls st) _) as [text tokens|e]; simpl;
    unfold counters_move; simpl; (destruct (trace st) as [t|];
      [|reflexivity]); eexists; (split; [reflexivity|]); simpl;
    repeat split; lia.
Qed.

Lemma fresh_or_cached rs :
  Forall (fun r => was_cached r = true ->
                   success r && negb (was_filtered r) = true) rs ->
  count (fun r => success r && negb (was_filtered r)) rs
  = (count fresh rs + count was_cached rs)%Z.
Proof.
  unfold count, fresh.
  induction 1 as [|r rs Hr _ IH]; simpl; [reflexivity|].
  destruct (was_cached r) eqn:Hc.
  - rewrite (Hr eq_refl). rewrite andb_false_r. simpl. lia.
  - rewrite andb_true_r.
    destruct (success r), (was_filtered r); simpl; lia.
Qed.

(** X24.  Along [execute] the trace's count of completion calls
    never moves (the executor logs chunk and aggregation events, not
    call events); its count of skipped chunks grows by the number of
    results served from the cache, and its counts of processed and
    skipped chunks together grow by the [chunks_processed] that the
    execution result reports. *)
Theorem execute_trace_counts_chunks
    (sched : list Chunker.Chunk -> list Chunker.Chunk)
    (chunks : list Chunker.Chunk) (plan : Planner.QueryPlan) (st : state)
    (t : Trace.ExecutionTrace) :
  trace st = Some t ->
  let res := fst (execute self complete md5 sched chunks plan st) in
  let fin := snd (execute self complete md5 sched chunks plan st) in
  exists t',
    trace fin = Some t'
    /\ Trace.total_llm_calls t' = Trace.total_llm_calls t
    /\ Trace.chunks_skipped t'
       = (Trace.chunks_skipped t + Z.of_nat (chunks_cached res))%Z
    /\ (Trace.chunks_processed t' + Trace.chunks_skipped t'
        = Trace.chunks_processed t + Trace.chunks_skipped t
          + Z.of_nat (chunks_processed res))%Z.
Proof.
  intros Ht.
  destruct (execute_frames (counters_move 0 0)
              (fun s => counters_same s s eq_refl)
              (fun a b c H1 H2 =>
                 counters_trans 0 0 0 0 0 0 a b c H1 H2 eq_refl eq_refl)
              (fun s => counters_same s _ eq_refl)
              (fun msg s =>
                 counters_plain Trace.INFO msg None s
                   ltac:(discriminate) ltac:(discriminate)
                   ltac:(discriminate))
              (fun msg s =>
                 counters_plain Trace.WARNING msg None s
                   ltac:(discriminate) ltac:(discriminate)
                   ltac:(discriminate))
              counters_aggregate sched chunks plan st)
    as (st1 & H1 & _ & Hres & Hproc & Hcached & H3).
  cbv zeta in *.
  set (p := (if Planner.parallel_ok plan && (1 <? max_parallel self)%nat
             then process_parallel (sched (selected plan chunks)) plan
             else process_sequential (selected plan chunks) plan) st1) in *.
  assert (H2 : counters_move (count fresh (fst p)) (count was_cached (fst p))
                 st1 (snd p)).
  { unfold p. destruct (Planner.parallel_ok plan && _);
      [apply counters_parallel | apply counters_sequential]. }
  assert (Hfc : Forall (fun r => was_cached r = true ->
                          success r && negb (was_filtered r) = true) (fst p)).
  { unfold p. destruct (Planner.parallel_ok plan && _).
    - unfold _process_parallel, bind.
      pose proof (submitted_cached_processed
                    (sched (selected plan chunks)) plan st1) as H.
      destruct (run_all _ plan st1) as [rs st']. simpl in *.
      now apply ExecutorFacts.sorted_by_Forall.
    - apply sequential_cached_processed. }
  pose proof (fresh_or_cached (fst p) Hfc) as Hsum.
  pose proof (counters_trans _ _ _ _ _ _ _ _ _ H1 H2 eq_refl eq_refl) as H12.
  pose proof (counters_trans _ _ _ _ _ _ _ _ _ H12 H3 eq_refl eq_refl) as H.
  unfold counters_move in H. rewrite Ht in H.
  destruct H as (t' & Hfin & Hl & Hp & Hs).
  exists t'. split; [exact Hfin|]. split; [exact Hl|].
  rewrite Hproc, Hcached. unfold count in *. split; lia.
Qed.

(** *** Aggregation by the executor *)

Lemma prefix_app_mono (sub x b : string) :
  String.prefix sub x = true -> String.prefix sub (x ++ b)%string = true.
Proof.
  revert x. induction sub as [|c sub IH]; intros x H.
  { destruct x as [|d x]; [destruct b|]; reflexivity. }
  destruct x as [|d x]; [discriminate|].
  change ((String d x ++ b)%string) with (String d (x ++ b)%string).
  cbn [String.prefix] in *. destruct (ascii_dec c d); [|discriminate].
  now apply IH.
Qed.

Lemma contains_app_r (sub x b : string) :
  PyStr.contains sub x = true -> PyStr.contains sub (x ++ b)%string = true.
Proof.
  induction x as [|d x IH]; intros H.
  - cbn [PyStr.contains] in H. rewrite orb_false_r in H.
    destruct sub; [|discriminate]. destruct b; reflexivity.
  - change ((String d x ++ b)%string) with (String d (x ++ b)%string).
    cbn [PyStr.contains] in *. apply orb_true_iff in H as [H|H].
    + pose proof (prefix_app_mono _ _ b H) as Hp.
      change ((String d x ++ b)%string) with (String d (x ++ b)%string) in Hp.
      now rewrite Hp.
    + rewrite (IH H). apply orb_true_r.
Qed.

Lemma contains_app_l (sub a x : string) :
  PyStr.contains sub x = true -> PyStr.contains sub (a ++ x)%string = true.
Proof.
  intros H. induction a as [|d a IH]; [exact H|].
  change ((String d a ++ x)%string) with (String d (a ++ x)%string).
  cbn [PyStr.contains]. rewrite IH. apply orb_true_r.
Qed.

Lemma contains_self (s : string) : PyStr.contains s s = true.
Proof.
  assert (H : String.prefix s s = true).
  { induction s as [|c s IH]; [reflexivity|]. cbn [String.prefix].
    destruct (ascii_dec c c); [exact IH | contradiction]. }
  destruct s; cbn [PyStr.contains]; now rewrite H.
Qed.

Lemma contains_join sub sp (l : list string) x :
  In x l -> PyStr.contains sub x = true ->
  PyStr.contains sub (PyStr.join sp l) = true.
Proof.
  unfold PyStr.join. intros Hin Hx.
  induction l as [|y l IH]; [contradiction|].
  destruct l as [|z l].
  - destruct Hin as [->|[]]. exact Hx.
  - change (String.concat sp (y :: z :: l))
      with ((y ++ sp ++ String.concat sp (z :: l))%string).
    destruct Hin as [->|Hin].
    + now apply contains_app_r.
    + apply contains_app_l, contains_app_l, IH, Hin.
Qed.

(** X30.  When the completion call of the executor's aggregation
    fails, the text returned in its place still holds the content of
    every result handed to the aggregation, and no tokens are
    counted. *)
Theorem aggregation_failure_keeps_findings
    (results : list ChunkResult) (plan : Planner.QueryPlan) (st : state)
    (e : string) :
  (forall prompt, complete (llm_calls st) prompt = Fail e) ->
  let out := _aggregate_results complete results plan st in
  Forall (fun r => PyStr.contains (content r) (fst out) = true) results
  /\ _tokens_used (snd out) = _tokens_used st
  /\ llm_calls (snd out) = S (llm_calls st).
Proof.
  intros Hfail out.
  assert (Hout : fst out
                 = ("Aggregation failed. Raw findings:" ++ PyStr.nl
                    ++ PyStr.nl ++ findings_of results)%string
                 /\ _tokens_used (snd out) = _tokens_used st
                 /\ llm_calls (snd out) = S (llm_calls st)).
  { unfold out, _aggregate_results, bind, llm_complete. simpl.
    rewrite Hfail. repeat split. }
  destruct Hout as (Htext & Htok & Hcalls).
  split; [|split; assumption]. rewrite Htext.
  apply List.Forall_forall. intros r Hr.
  apply (contains_app_l _ "Aggregation failed. Raw findings:").
  apply contains_app_l, contains_app_l.
  unfold findings_of.
  apply (contains_join _ _ _
           ("[Chunk " ++ PyStr.str_of_nat (chunk_index r + 1) ++ "]"
            ++ PyStr.nl ++ content r)%string).
  - apply in_map_iff. exists r. split; [reflexivity | exact Hr].
  - apply (contains_app_l _ "[Chunk ").
    apply contains_app_l, (contains_app_l _ "]"), contains_app_l.
    apply contains_self.
Qed.

(** *** Running the same chunks again *)

(** Every entry of the first cache is in the second. *)
Definition cache_kept (st st' : state) : Prop :=
  forall k v, _cache st !! k = Some v -> _cache st' !! k = Some v.

Lemma process_chunk_keeps_cache c plan st :
  cache_kept st (snd (process_chunk c plan st)).
Proof.
  intros k v Hk.
  destruct (ExecutorFacts.process_chunk_step self complete md5 c plan st)
    as [? _ _ _ Hc _ _ | ? ? Hmiss _ _ Hc _ _ | ? _ _ Hc _ _];
    rewrite Hc; try exact Hk.
  destruct (cache_enabled self) eqn:Hen; [|exact Hk].
  destruct Hmiss as [Hoff|Hmiss]; [discriminate|].
  rewrite lookup_insert_ne; [exact Hk|]. intros <-. congruence.
Qed.

Lemma sequential_keeps_cache chunks plan : forall st,
  cache_kept st (snd (process_sequential chunks plan st)).
Proof.
  induction chunks as [|c chunks IH]; intros st; simpl;
    [intros k v Hk; exact Hk|].
  unfold bind, tokens_so_far. simpl.
  destruct (budget_reached self (_tokens_used st)).
  - unfold ret at 1. simpl. specialize (IH st).
    destruct (process_sequential chunks plan st) as [rs st2]. exact IH.
  - pose proof (process_chunk_keeps_cache c plan st) as Hc.
    destruct (process_chunk c plan st) as [r st1]. simpl in Hc.
    specialize (IH st1).
    destruct (process_sequential chunks plan st1) as [rs st2]. simpl in *.
    intros k v Hk. apply IH, Hc, Hk.
Qed.

(** A successful result is in the cache afterwards, under the
    chunk's key. *)
Lemma success_is_cached c plan st :
  cache_enabled self = true ->
  success (fst (process_chunk c plan st)) = true ->
  exists v,
    _cache (snd (process_chunk c plan st))
      !! _cache_key md5 c (Planner.query plan) = Some v
    /\ content v = content (fst (process_chunk c plan st)).
Proof.
  intros Hen Hok.
  destruct (ExecutorFacts.process_chunk_step self complete md5 c plan st)
    as [cached _ Hlk Hr Hc _ _ | ? ? _ _ Hr Hc _ _ | ? _ Hr _ _ _].
  - exists cached. rewrite Hc, Hr. split; [exact Hlk | reflexivity].
  - rewrite Hc, Hen. eexists. split; [apply lookup_insert_eq | reflexivity].
  - rewrite Hr in Hok. discriminate.
Qed.

(** A chunk whose key is in the cache is served from it. *)
Lemma cached_is_served c plan st v :
  cache_enabled self = true ->
  _cache st !! _cache_key md5 c (Planner.query plan) = Some v ->
  fst (process_chunk c plan st) = cache_hit c v
  /\ llm_calls (snd (process_chunk c plan st)) = llm_calls st.
Proof.
  intros Hen Hlk.
  destruct (ExecutorFacts.process_chunk_step self complete md5 c plan st)
    as [cached _ Hlk' Hr _ _ Hn | ? ? [Hoff|Hmiss] _ _ _ _ _
        | ? [Hoff|Hmiss] _ _ _ _]; try congruence.
  rewrite Hlk in Hlk'. injection Hlk' as <-. split; assumption.
Qed.

(** What a second run gives for a result of the first. *)
Definition served_again (r1 r2 : ChunkResult) : Prop :=
  chunk_index r2 = chunk_index r1
  /\ (success r1 = true ->
      success r2 = true /\ was_cached r2 = true
      /\ content r2 = content r1 /\ tokens_used r2 = 0).

Lemma rerun_is_served chunks plan : forall st st',
  cache_enabled self = true ->
  max_tokens_budget self = None ->
  cache_kept (snd (process_sequential chunks plan st)) st' ->
  Forall2 served_again (fst (process_sequential chunks plan st))
          (fst (process_sequential chunks plan st'))
  /\ (Forall (fun r => success r = true)
             (fst (process_sequential chunks plan st)) ->
      llm_calls (snd (process_sequential chunks plan st')) = llm_calls st').
Proof.
  induction chunks as [|c chunks IH]; intros st st' Hen Hbud Hkept; simpl.
  { split; [constructor | reflexivity]. }
  simpl in Hkept. revert Hkept.
  unfold bind, tokens_so_far, budget_reached. rewrite Hbud. simpl.
  pose proof (success_is_cached c plan st Hen) as Hin.
  pose proof (ExecutorFacts.process_chunk_index self complete md5 c plan st)
    as Hi1.
  destruct (process_chunk c plan st) as [r1 s1]. simpl in Hin, Hi1.
  pose proof (sequential_keeps_cache chunks plan s1) as Hmono.
  pose proof (IH s1) as IH1.
  destruct (process_sequential chunks plan s1) as [rs1 s1']. simpl in *.
  intros Hkept.
  pose proof (process_chunk_keeps_cache c plan st') as Hk2.
  pose proof (ExecutorFacts.process_chunk_index self complete md5 c plan st')
    as Hi2.
  pose proof (fun v => cached_is_served c plan st' v Hen) as Hserve.
  destruct (process_chunk c plan st') as [r2 s2]. simpl in Hk2, Hi2, Hserve.
  destruct (IH1 s2 Hen Hbud) as [Hrest Hcalls].
  { intros k v Hk. apply Hk2, Hkept, Hk. }
  destruct (process_sequential chunks plan s2) as [rs2 s2']. simpl in *.
  split.
  - constructor; [|exact Hrest]. split; [congruence|]. intros Hok.
    destruct (Hin Hok) as (v & Hv & Hcont).
    destruct (Hserve v (Hkept _ _ (Hmono _ _ Hv))) as [-> _].
    simpl. auto.
  - intros Hall. inversion Hall as [|? ? Hok Hall']; subst.
    destruct (Hin Hok) as (v & Hv & _).
    destruct (Hserve v (Hkept _ _ (Hmono _ _ Hv))) as [_ Hn].
    rewrite (Hcalls Hall'). exact Hn.
Qed.

(** X29.  With caching on and no token budget, processing the same
    chunks a second time under the same plan serves from the cache
    every chunk that succeeded the first time: the second result has
    the first one's content, is marked cached and costs no tokens
    (chunks that failed are tried again); when all succeeded, the
    second run makes no completion call. *)
Theorem second_run_is_served_from_cache
    (chunks : list Chunker.Chunk) (plan : Planner.QueryPlan) (st : state) :
  cache_enabled self = true ->
  max_tokens_budget self = None ->
  let first := process_sequential chunks plan st in
  let second := process_sequential chunks plan (snd first) in
  Forall2 served_again (fst first) (fst second)
  /\ (Forall (fun r => success r = true) (fst first) ->
      llm_calls (snd second) = llm_calls (snd first)).
Proof.
  intros Hen Hbud first second.
  apply rerun_is_served; [exact Hen | exact Hbud |].
  intros k v Hk. exact Hk.
Qed.

End Paths.

(** *** Concrete runs *)

Definition uncached_executor : ChunkExecutor := mkExecutor 4 false None.

Definition traced_state : state :=
  init_state (Some (Trace.new_trace "what happened")).

Lemma parallel_order_is_schedule_independent_witness :
  let rs1 := fst (_process_parallel uncached_executor
                    ExecutorFacts.ten_tokens ExecutorFacts.id_digest
                    ExecutorFacts.three_chunks (ExecutorFacts.plan_for true)
                    (init_state None)) in
  let rs2 := fst (_process_parallel uncached_executor
                    ExecutorFacts.ten_tokens ExecutorFacts.id_digest
                    (rev ExecutorFacts.three_chunks)
                    (ExecutorFacts.plan_for true) traced_state) in
  Sorted Nat.le (map chunk_index rs1)
  /\ map chunk_index rs1 = map chunk_index rs2.
Proof.
  apply (parallel_order_is_schedule_independent uncached_executor
           ExecutorFacts.ten_tokens ExecutorFacts.id_digest
           ExecutorFacts.three_chunks (rev ExecutorFacts.three_chunks)).
  apply Permutation_rev.
Defined.

Lemma caching_off_never_touches_cache_witness :
  _cache (snd (execute uncached_executor ExecutorFacts.ten_tokens
                 ExecutorFacts.id_digest (@rev _)
                 ExecutorFacts.three_chunks (ExecutorFacts.plan_for true)
                 (init_state None)))
  = _cache (init_state None)
  /\ Forall (fun r => was_cached r = false)
            (fst (_process_sequential uncached_executor
                    ExecutorFacts.ten_tokens ExecutorFacts.id_digest
                    ExecutorFacts.three_chunks (ExecutorFacts.plan_for true)
                    (init_state None)))
  /\ Forall (fun r => was_cached r = false)
            (fst (_process_parallel uncached_executor
                    ExecutorFacts.ten_tokens ExecutorFacts.id_digest
                    (rev ExecutorFacts.three_chunks)
                    (ExecutorFacts.plan_for true) (init_state None))).
Proof.
  apply (caching_off_never_touches_cache uncached_executor
           ExecutorFacts.ten_tokens ExecutorFacts.id_digest (@rev _)
           ExecutorFacts.three_chunks (ExecutorFacts.plan_for true)
           (init_state None)).
  reflexivity.
Defined.

Lemma execute_total_is_sum_of_chunk_tokens_witness :
  let res := fst (execute uncached_executor ExecutorFacts.ten_tokens
                    ExecutorFacts.id_digest (fun l => l)
                    ExecutorFacts.three_chunks (ExecutorFacts.plan_for true)
                    (init_state None)) in
  let fin := snd (execute uncached_executor ExecutorFacts.ten_tokens
                    ExecutorFacts.id_digest (fun l => l)
                    ExecutorFacts.three_chunks (ExecutorFacts.plan_for true)
                    (init_state None)) in
  total_tokens res = tokens_of (chunk_results res)
  /\ total_tokens res <= _tokens_used fin
  /\ chunks_cached res <= chunks_processed res
  /\ chunks_processed res <= length (chunk_results res)
  /\ length (chunk_results res) + chunks_filtered res <= total_chunks res.
Proof.
  apply (execute_total_is_sum_of_chunk_tokens uncached_executor
           ExecutorFacts.ten_tokens ExecutorFacts.id_digest (fun l => l)
           ExecutorFacts.three_chunks (ExecutorFacts.plan_for true)
           (init_state None)).
  reflexivity.
Defined.

Lemma execute_trace_follows_token_counter_witness :
  let fin := snd (execute uncached_executor ExecutorFacts.ten_tokens
                    ExecutorFacts.id_digest (fun l => l)
                    ExecutorFacts.three_chunks (ExecutorFacts.plan_for false)
                    traced_state) in
  exists t',
    trace fin = Some t'
    /\ Trace.consistent t'
    /\ (exists more,
          Trace.entries t'
          = Trace.entries (Trace.new_trace "what happened") ++ more)
    /\ Trace.total_tokens t'
       = (Trace.total_tokens (Trace.new_trace "what happened")
          + Z.of_nat (_tokens_used fin))%Z.
Proof.
  apply (execute_trace_follows_token_counter uncached_executor
           ExecutorFacts.ten_tokens ExecutorFacts.id_digest (fun l => l)
           ExecutorFacts.three_chunks (ExecutorFacts.plan_for false)
           traced_state (Trace.new_trace "what happened")).
  - reflexivity.
  - repeat split.
Defined.

Lemma aggregation_failure_keeps_findings_witness :
  let out := _aggregate_results AggregatorFacts.failing_service
               AggregatorFacts.three_results (ExecutorFacts.plan_for true)
               (init_state None) in
  Forall (fun r => PyStr.contains (content r) (fst out) = true)
         AggregatorFacts.three_results
  /\ _tokens_used (snd out) = _tokens_used (init_state None)
  /\ llm_calls (snd out) = S (llm_calls (init_state None)).
Proof.
  apply (aggregation_failure_keeps_findings AggregatorFacts.failing_service
           AggregatorFacts.three_results (ExecutorFacts.plan_for true)
           (init_state None) "boom").
  intros prompt. reflexivity.
Defined.

Definition caching_executor : ChunkExecutor := mkExecutor 1 true None.

Lemma second_run_is_served_from_cache_witness :
  let first := _process_sequential caching_executor ExecutorFacts.ten_tokens
                 ExecutorFacts.id_digest ExecutorFacts.three_chunks
                 (ExecutorFacts.plan_for false) (init_state None) in
  let second := _process_sequential caching_executor
                  ExecutorFacts.ten_tokens ExecutorFacts.id_digest
                  ExecutorFacts.three_chunks (ExecutorFacts.plan_for false)
                  (snd first) in
  Forall2 served_again (fst first) (fst second)
  /\ (Forall (fun r => success r = true) (fst first) ->
      llm_calls (snd second) = llm_calls (snd first)).
Proof.
  apply (second_run_is_served_from_cache caching_executor
           ExecutorFacts.ten_tokens ExecutorFacts.id_digest
           ExecutorFacts.three_chunks (ExecutorFacts.plan_for false)
           (init_state None)).
  - reflexivity.
  - reflexivity.
Defined.

Definition limited_plan : Planner.QueryPlan :=
  Planner.mkPlan "what happened" Planner.ANALYZE
    (Planner.mkFilter [] None None) false (Some 2) true
    "Analyze this chunk." "Synthesize the findings." None.

Lemma execute_results_follow_selection_witness :
  let res := fst (execute uncached_executor ExecutorFacts.ten_tokens
                    ExecutorFacts.id_digest (@rev _)
                    ExecutorFacts.three_chunks limited_plan
                    (init_state None)) in
  let ran := map chunk_index (chunk_results res) in
  let chosen := map Chunker.index
                    (selected limited_plan ExecutorFacts.three_chunks) in
  Permutation ran chosen
  /\ (if Planner.parallel_ok limited_plan
         && (1 <? max_parallel uncached_executor)%nat
      then Sorted Nat.le ran else ran = chosen).
Proof.
  apply (execute_results_follow_selection uncached_executor
           ExecutorFacts.ten_tokens ExecutorFacts.id_digest (@rev _)
           ExecutorFacts.three_chunks limited_plan (init_state None)).
  intros l. symmetry. apply Permutation_rev.
Defined.

Lemma execute_trace_counts_chunks_witness :
  let res := fst (execute uncached_executor ExecutorFacts.ten_tokens
                    ExecutorFacts.id_digest (fun l => l)
                    ExecutorFacts.three_chunks (ExecutorFacts.plan_for false)
                    traced_state) in
  let fin := snd (execute uncached_executor ExecutorFacts.ten_tokens
                    ExecutorFacts.id_digest (fun l => l)
                    ExecutorFacts.three_chunks (ExecutorFacts.plan_for false)
                    traced_state) in
  exists t',
    trace fin = Some t'
    /\ Trace.total_llm_calls t'
       = Trace.total_llm_calls (Trace.new_trace "what happened")
    /\ Trace.chunks_skipped t'
       = (Trace.chunks_skipped (Trace.new_trace "what happened")
          + Z.of_nat (chunks_cached res))%Z
    /\ (Trace.chunks_processed t' + Trace.chunks_skipped t'
        = Trace.chunks_processed (Trace.new_trace "what happened")
          + Trace.chunks_skipped (Trace.new_trace "what happened")
          + Z.of_nat (chunks_processed res))%Z.
Proof.
  apply (execute_trace_counts_chunks uncached_executor
           ExecutorFacts.ten_tokens ExecutorFacts.id_digest (fun l => l)
           ExecutorFacts.three_chunks (ExecutorFacts.plan_for false)
           traced_state (Trace.new_trace "what happened")).
  reflexivity.
Defined.

End ExecutorMore.

(** ** More on aggregation *)

Module AggregatorCoverage.
Import Outcome Executor Aggregator.
Local Open Scope list_scope.

Lemma batches_aux_shrinks {A} (k : nat) : forall fuel (l : list A),
  2 <= k -> length l <= fuel ->
  length (batches_aux fuel k l) <= length l
  /\ (2 <= length l -> length (batches_aux fuel k l) < length l).
Proof.
  induction fuel as [|fuel IH]; intros l Hk Hlen; simpl; [lia|].
  destruct l as [|x l]; [simpl; lia|].
  assert (Hs : length (skipn k (x :: l)) = length (x :: l) - k)
    by apply length_skipn.
  destruct (IH (skipn k (x :: l)) Hk) as [Hle _].
  { rewrite Hs. simpl in *. lia. }
  cbn [length] in *. lia.
Qed.

Lemma batches_aux_unit {A} : forall fuel (l : list A),
  length l <= fuel -> length (batches_aux fuel 1 l) = length l.
Proof.
  induction fuel as [|fuel IH]; intros l Hlen; simpl.
  - destruct l; simpl in *; [reflexivity | lia].
  - destruct l as [|x l]; [reflexivity|].
    change (skipn 1 (x :: l)) with l. simpl.
    rewrite IH; [reflexivity | simpl in Hlen; lia].
Qed.

Lemma enumerate_from_length {A} (l : list A) : forall i,
  length (PyList.enumerate_from i l) = length l.
Proof. induction l as [|x l IH]; intros i; simpl; [|rewrite IH]; reflexivity. Qed.

Section Facts.
Variable self : ResultAggregator.
Variable complete : nat -> string -> llm_reply.

Lemma summarize_groups_length q groups : forall st,
  length (fst (fst (summarize_groups complete q groups st))) = length groups.
Proof.
  induction groups as [|[i g] groups IH]; intros st; simpl; [reflexivity|].
  unfold bind, llm_complete. simpl.
  destruct (complete (llm_calls st) _) as [text tokens|e];
    match goal with |- context [summarize_groups complete q groups ?s] =>
      specialize (IH s); destruct (summarize_groups complete q groups s)
        as [[ss tk] st'] end; simpl in *; now rewrite IH.
Qed.

Lemma combine_batches_length q bs : forall st,
  length (fst (fst (combine_batches complete q bs st))) = length bs.
Proof.
  induction bs as [|b bs IH]; intros st; simpl; [reflexivity|].
  unfold bind, llm_complete. simpl.
  destruct (complete (llm_calls st) _) as [text tokens|e];
    match goal with |- context [combine_batches complete q bs ?s] =>
      specialize (IH s); destruct (combine_batches complete q bs s)
        as [[ss tk] st'] end; simpl in *; now rewrite IH.
Qed.

Lemma reduce_levels_ends q : forall fuel ss st,
  2 <= max_results_per_level self ->
  length ss <= fuel ->
  exists out, fst (reduce_levels self complete fuel q ss st) = Done out.
Proof.
  induction fuel as [|fuel IH]; intros ss st Hk Hlen.
  - simpl. destruct (Nat.ltb_spec (max_results_per_level self) (length ss));
      [lia | eexists; reflexivity].
  - simpl. destruct (Nat.ltb_spec (max_results_per_level self) (length ss));
      [|eexists; reflexivity].
    unfold bind.
    pose proof (combine_batches_length q
                  (batches (max_results_per_level self) ss) st) as Hn.
    destruct (combine_batches complete q _ st) as [[new tk] st1].
    simpl in Hn. simpl.
    destruct (IH new st1 Hk) as [[[ss' tk'] lv'] Hout].
    { rewrite Hn. unfold batches.
      destruct (batches_aux_shrinks (max_results_per_level self)
                  (length ss) ss Hk (le_n _)) as [_ Hlt].
      specialize (Hlt ltac:(lia)). lia. }
    destruct (reduce_levels self complete fuel q new st1) as [r st2].
    simpl in Hout. subst r. simpl. eexists. reflexivity.
Qed.

Lemma reduce_levels_unit_never_ends q : forall fuel ss st,
  max_results_per_level self = 1 ->
  2 <= length ss ->
  fst (reduce_levels self complete fuel q ss st) = Timeout.
Proof.
  induction fuel as [|fuel IH]; intros ss st Hk Hlen; simpl; rewrite Hk.
  - destruct (Nat.ltb_spec 1 (length ss)); [reflexivity | lia].
  - destruct (Nat.ltb_spec 1 (length ss)); [|lia].
    unfold bind.
    pose proof (combine_batches_length q (batches 1 ss) st) as Hn.
    destruct (combine_batches complete q _ st) as [[new tk] st1].
    simpl in Hn. simpl.
    specialize (IH new st1 Hk).
    rewrite Hn in IH. unfold batches in IH.
    rewrite batches_aux_unit in IH by lia. specialize (IH Hlen).
    destruct (reduce_levels self complete fuel q new st1) as [r st2].
    simpl in IH. subst r. reflexivity.
Qed.

(** X14.  With a completion service and at least two results per
    level, hierarchical aggregation returns (within as many rounds of
    its loop as there are results), whatever the service answers or
    fails with: the result names the hierarchical strategy, lists the
    chunk index of every input result in order, and counts at least one
    level. *)
Theorem hierarchical_aggregation_returns
    (fuel : nat) (results : list ChunkResult) (plan : Planner.QueryPlan)
    (st : state) :
  has_llm self = true ->
  2 <= max_results_per_level self ->
  length results <= fuel ->
  exists r,
    fst (_hierarchical_aggregate self complete fuel results plan st) = Done r
    /\ strategy_used r = HIERARCHICAL
    /\ source_chunks r = map chunk_index results
    /\ 1 <= levels_of_aggregation r.
Proof.
  intros Hllm Hk Hfuel. unfold _hierarchical_aggregate. rewrite Hllm. simpl.
  destruct (Nat.eqb_spec (max_results_per_level self) 0) as [H0|_]; [lia|].
  unfold bind, trace_add. simpl.
  match goal with |- context [summarize_groups complete ?q ?g ?s] =>
    pose proof (summarize_groups_length q g s) as Hn;
    destruct (summarize_groups complete q g s) as [[l1 tk1] st1] end.
  simpl in Hn. rewrite enumerate_from_length in Hn. simpl.
  destruct (reduce_levels_ends (Planner.query plan) fuel l1 st1 Hk)
    as [[[ss tk2] lv2] Hout].
  { rewrite Hn. unfold batches.
    destruct (batches_aux_shrinks (max_results_per_level self)
                (length results) results Hk (le_n _)) as [Hle _]. lia. }
  destruct (reduce_levels self complete fuel _ l1 st1) as [r2 st2].
  simpl in Hout. subst r2.
  destruct (final_synthesis complete plan ss st2) as [[[fc tk3] lv3] st3].
  simpl. eexists. split; [reflexivity|]. simpl. repeat split. lia.
Qed.

(** X15.  With a completion service and one result per level, the
    loop of hierarchical aggregation never ends on two or more results:
    every round turns n summaries into n summaries, so no number of
    rounds gives a result. *)
Theorem hierarchical_aggregation_one_per_level_never_ends
    (fuel : nat) (results : list ChunkResult) (plan : Planner.QueryPlan)
    (st : state) :
  has_llm self = true ->
  max_results_per_level self = 1 ->
  2 <= length results ->
  fst (_hierarchical_aggregate self complete fuel results plan st) = Timeout.
Proof.
  intros Hllm Hk Hlen. unfold _hierarchical_aggregate. rewrite Hllm, Hk.
  simpl. unfold bind, trace_add. simpl.
  match goal with |- context [summarize_groups complete ?q ?g ?s] =>
    pose proof (summarize_groups_length q g s) as Hn;
    destruct (summarize_groups complete q g s) as [[l1 tk1] st1] end.
  simpl in Hn. rewrite enumerate_from_length in Hn. unfold batches in Hn.
  rewrite batches_aux_unit in Hn by lia. simpl.
  pose proof (reduce_levels_unit_never_ends (Planner.query plan) fuel l1 st1
                Hk ltac:(lia)) as Hred.
  destruct (reduce_levels self complete fuel _ l1 st1) as [r2 st2].
  simpl in Hred. subst r2. reflexivity.
Qed.

(** *** What aggregation does to the trace and the call counter *)

(** The trace is kept or stays absent, and its token total grows by
    [d]. *)
Definition trace_grows (d : Z) (st st' : state) : Prop :=
  match trace st with
  | None => trace st' = None
  | Some t =>
      exists t', trace st' = Some t'
        /\ Trace.total_tokens t' = (Trace.total_tokens t + d)%Z
  end.

Lemma trace_grows_same st st' :
  trace st' = trace st -> trace_grows 0 st st'.
Proof.
  unfold trace_grows. intros H. destruct (trace st) as [t|]; [|exact H].
  exists t. split; [exact H | lia].
Qed.

Lemma trace_grows_trans a b d1 d2 st1 st2 st3 :
  trace_grows a st1 st2 -> trace_grows b st2 st3 ->
  (a + b = d1 + d2)%Z -> trace_grows (d1 + d2) st1 st3.
Proof.
  unfold trace_grows. intros H1 H2 Hd. destruct (trace st1) as [t1|].
  - destruct H1 as (t2 & Ht2 & Hn2). rewrite Ht2 in H2.
    destruct H2 as (t3 & Ht3 & Hn3). exists t3. split; [exact Ht3 | lia].
  - now rewrite H1 in H2.
Qed.

Lemma trace_grows_add ev msg tok st :
  trace_grows (Trace.or_zero tok) st (snd (trace_add ev msg tok st)).
Proof.
  unfold trace_grows, trace_add. simpl. destruct (trace st) as [t|];
    [|reflexivity].
  eexists. split; [reflexivity|]. simpl. apply TraceFacts.truthy_sum.
Qed.

Lemma trace_grows_error msg st :
  trace_grows 0 st (snd (trace_error msg st)).
Proof.
  unfold trace_grows, trace_error. simpl. destruct (trace st) as [t|];
    [|reflexivity].
  eexists. split; [reflexivity|]. simpl. lia.
Qed.

Lemma summarize_groups_trace q groups : forall st,
  trace (snd (summarize_groups complete q groups st)) = trace st.
Proof.
  induction groups as [|[i g] groups IH]; intros st; simpl; [reflexivity|].
  unfold bind, llm_complete. simpl.
  destruct (complete (llm_calls st) _) as [text tokens|e];
    match goal with |- context [summarize_groups complete q groups ?s] =>
      specialize (IH s); destruct (summarize_groups complete q groups s)
        as [[ss tk] st'] end; simpl in *; exact IH.
Qed.

Lemma combine_batches_trace q bs : forall st,
  trace (snd (combine_batches complete q bs st)) = trace st.
Proof.
  induction bs as [|b bs IH]; intros st; simpl; [reflexivity|].
  unfold bind, llm_complete. simpl.
  destruct (complete (llm_calls st) _) as [text tokens|e];
    match goal with |- context [combine_batches complete q bs ?s] =>
      specialize (IH s); destruct (combine_batches complete q bs s)
        as [[ss tk] st'] end; simpl in *; exact IH.
Qed.

Lemma reduce_levels_trace q : forall fuel ss st,
  trace (snd (reduce_levels self complete fuel q ss st)) = trace st.
Proof.
  induction fuel as [|fuel IH]; intros ss st; simpl;
    destruct (max_results_per_level self <? length ss)%nat; try reflexivity.
  unfold bind.
  pose proof (combine_batches_trace q
                (batches (max_results_per_level self) ss) st) as H1.
  destruct (combine_batches complete q _ st) as [new st1]. simpl in H1.
  specialize (IH (fst new) st1).
  destruct (reduce_levels self complete fuel q (fst new) st1) as [r st2].
  simpl in *. congruence.
Qed.

Lemma final_synthesis_trace plan ss st :
  trace (snd (final_synthesis complete plan ss st)) = trace st.
Proof.
  unfold final_synthesis.
  destruct ss as [|s1 [|s2 ss]]; try reflexivity;
    unfold bind, llm_complete; simpl;
    destruct (complete (llm_calls st) _); reflexivity.
Qed.

Lemma summarize_spec results plan st :
  source_chunks (fst (_summarize self complete results plan st))
  = map chunk_index results
  /\ trace_grows 0 st (snd (_summarize self complete results plan st)).
Proof.
  unfold _summarize. destruct (has_llm self); simpl.
  - unfold bind, llm_complete. simpl.
    destruct (complete (llm_calls st) _) as [text tokens|e]; simpl.
    + split; [reflexivity | now apply trace_grows_same].
    + split; [reflexivity|].
      unfold trace_grows. simpl. destruct (trace st) as [t|]; [|reflexivity].
      eexists. split; [reflexivity | simpl; lia].
  - split; [reflexivity | now apply trace_grows_same].
Qed.

Lemma hierarchical_spec fuel results plan st r :
  fst (_hierarchical_aggregate self complete fuel results plan st) = Done r ->
  source_chunks r = map chunk_index results
  /\ trace_grows 0 st
       (snd (_hierarchical_aggregate self complete fuel results plan st)).
Proof.
  unfold _hierarchical_aggregate. destruct (has_llm self); simpl.
  2:{ intros H. injection H as <-. split; [reflexivity|].
      now apply trace_grows_same. }
  destruct (max_results_per_level self =? 0)%nat; [discriminate|].
  unfold bind.
  destruct (trace_add Trace.INFO _ None st) as [u st0] eqn:E0.
  assert (H0 : trace_grows 0 st st0).
  { pose proof (trace_grows_add Trace.INFO
                  ("Hierarchical aggregation: "
                   ++ PyStr.str_of_nat (length results) ++ " results → "
                   ++ PyStr.str_of_nat
                        (length (batches (max_results_per_level self) results))
                   ++ " groups")%string None st) as H.
    rewrite E0 in H. exact H. }
  match goal with |- context [summarize_groups complete ?q ?g ?s] =>
    pose proof (summarize_groups_trace q g s) as H1;
    destruct (summarize_groups complete q g s) as [l1 st1] end.
  pose proof (reduce_levels_trace (Planner.query plan) fuel (fst l1) st1)
    as H2.
  destruct (reduce_levels self complete fuel _ (fst l1) st1) as [r2 st2].
  simpl in H1, H2.
  destruct r2 as [[[ss tk2] lv2]| |]; simpl; try discriminate.
  pose proof (final_synthesis_trace plan ss st2) as H3.
  destruct (final_synthesis complete plan ss st2) as [[[fc tk3] lv3] st3].
  simpl in *. intros H. injection H as <-. split; [reflexivity|].
  apply (trace_grows_trans 0 0 0 0 st st0); [exact H0 | | lia].
  apply trace_grows_same. congruence.
Qed.

Lemma merge_counts_sources results :
  source_chunks (_merge_counts results) = map chunk_index results
  /\ agg_tokens_used (_merge_counts results) = 0
  /\ strategy_used (_merge_counts results) = MERGE.
Proof.
  unfold _merge_counts. destruct (merge_loop results 0 []); repeat split.
Qed.

(** X16.  When [aggregate] returns a result, its [source_chunks] are
    the chunk indices of the successful, non-empty inputs without the
    NO_RELEVANT_CONTENT marker, in input order, whichever strategy ran;
    and a trace passed along has its token total raised by exactly the
    result's [tokens_used]. *)
Theorem aggregate_sources_and_trace_tokens
    (fuel : nat) (results : list ChunkResult) (plan : Planner.QueryPlan)
    (st : state) (r : AggregationResult) :
  fst (aggregate self complete fuel results plan st) = Done r ->
  source_chunks r = map chunk_index (List.filter is_relevant results)
  /\ trace_grows (Z.of_nat (agg_tokens_used r)) st
       (snd (aggregate self complete fuel results plan st)).
Proof.
  unfold aggregate.
  destruct (List.filter is_relevant results) as [|v valid] eqn:Hvalid.
  { simpl. intros H. injection H as <-. split; [reflexivity|].
    now apply trace_grows_same. }
  set (vs := v :: valid). unfold bind.
  destruct (trace_add Trace.AGGREGATE_START _ None st) as [u st0] eqn:E0.
  assert (H0 : trace_grows 0 st st0).
  { pose proof (trace_grows_add Trace.AGGREGATE_START
                  ("Aggregating " ++ PyStr.str_of_nat (length vs)
                   ++ " results using "
                   ++ strategy_value
                        (_choose_strategy self vs (Planner.intent plan)))%string
                  None st) as H.
    rewrite E0 in H. exact H. }
  assert (Hstep : forall (res0 : res AggregationResult) st1,
            (forall r0, res0 = Done r0 ->
                        source_chunks r0 = map chunk_index vs
                        /\ trace_grows 0 st0 st1) ->
            fst (match res0 with
                 | Done r0 =>
                     bind (trace_add Trace.AGGREGATE_END
                             ("Aggregation complete: "
                              ++ PyStr.str_of_nat
                                   (String.length (agg_content r0))
                              ++ " chars")%string
                             (Some (Z.of_nat (agg_tokens_used r0))))
                          (fun _ => ret (Done r0))
                 | Raised e => ret (Raised e)
                 | Timeout => ret Timeout
                 end st1) = Done r ->
            source_chunks r = map chunk_index vs
            /\ trace_grows (Z.of_nat (agg_tokens_used r)) st
                 (snd (match res0 with
                       | Done r0 =>
                           bind (trace_add Trace.AGGREGATE_END
                                   ("Aggregation complete: "
                                    ++ PyStr.str_of_nat
                                         (String.length (agg_content r0))
                                    ++ " chars")%string
                                   (Some (Z.of_nat (agg_tokens_used r0))))
                                (fun _ => ret (Done r0))
                       | Raised e => ret (Raised e)
                       | Timeout => ret Timeout
                       end st1))).
  { intros [r0| |] st1 Hspec; try (simpl; discriminate).
    destruct (Hspec r0 eq_refl) as [Hsrc Hq].
    unfold bind.
    pose proof (trace_grows_add Trace.AGGREGATE_END
                  ("Aggregation complete: "
                   ++ PyStr.str_of_nat (String.length (agg_content r0))
                   ++ " chars")%string
                  (Some (Z.of_nat (agg_tokens_used r0))) st1) as Hend.
    destruct (trace_add Trace.AGGREGATE_END _ _ st1) as [u1 st2].
    simpl in *. intros H. injection H as <-. split; [exact Hsrc|].
    apply (trace_grows_trans 0 (0 + Z.of_nat (agg_tokens_used r0)) 0
             (Z.of_nat (agg_tokens_used r0)) st st0); [exact H0 | | lia].
    apply (trace_grows_trans 0 (Z.of_nat (agg_tokens_used r0)) 0
             (Z.of_nat (agg_tokens_used r0)) st0 st1);
      [exact Hq | exact Hend | lia]. }
  destruct (_choose_strategy self vs (Planner.intent plan)).
  - apply (Hstep (Done (_concatenate vs)) st0). intros r0 H.
    injection H as <-. split; [reflexivity | now apply trace_grows_same].
  - pose proof (summarize_spec vs plan st0) as [Hsrc Hq].
    destruct (_summarize self complete vs plan st0) as [r1 st1].
    apply (Hstep (Done r1) st1). intros r0 H. injection H as <-.
    split; assumption.
  - pose proof (hierarchical_spec fuel vs plan st0) as Hh.
    destruct (_hierarchical_aggregate self complete fuel vs plan st0)
      as [res1 st1].
    apply (Hstep res1 st1). intros r0 H. apply Hh. exact H.
  - apply (Hstep (Done (_merge_structured vs (Planner.intent plan))) st0).
    intros r0 H. injection H as <-.
    split; [|now apply trace_grows_same].
    unfold _merge_structured. destruct (bool_decide _);
      [apply merge_counts_sources | reflexivity].
Qed.

(** X17.  Without a completion client, or for a count query,
    [aggregate] makes no completion call and returns: the result is a
    concatenation or a merge and reports no tokens. *)
Theorem aggregate_without_completion
    (fuel : nat) (results : list ChunkResult) (plan : Planner.QueryPlan)
    (st : state) :
  has_llm self = false \/ Planner.intent plan = Planner.COUNT ->
  exists r,
    fst (aggregate self complete fuel results plan st) = Done r
    /\ llm_calls (snd (aggregate self complete fuel results plan st))
       = llm_calls st
    /\ agg_tokens_used r = 0
    /\ (strategy_used r = CONCATENATE \/ strategy_used r = MERGE).
Proof.
  intros Hcase. unfold aggregate.
  destruct (List.filter is_relevant results) as [|v valid].
  { eexists. split; [reflexivity|]. simpl. auto. }
  set (vs := v :: valid).
  assert (Hs : _choose_strategy self vs (Planner.intent plan) = CONCATENATE
               \/ _choose_strategy self vs (Planner.intent plan) = MERGE).
  { unfold _choose_strategy.
    destruct (bool_decide_reflect (Planner.intent plan = Planner.COUNT))
      as [Hc|Hc]; [now right|].
    destruct Hcase as [Hllm|Hc']; [|contradiction]. rewrite Hllm.
    left. repeat match goal with |- context [if ?b then _ else _] =>
                   destruct b end; reflexivity. }
  destruct Hs as [-> | ->].
  - eexists. split; [reflexivity|]. simpl. auto.
  - eexists. split; [reflexivity|].
    pose proof (merge_counts_sources vs) as (_ & Htok & Hstrat).
    unfold _merge_structured. simpl.
    destruct (bool_decide _); simpl; auto.
Qed.

End Facts.

(** *** Counting *)

Fixpoint all_chars (p : ascii -> bool) (s : string) : bool :=
  match s with
  | EmptyString => true
  | String c s' => p c && all_chars p s'
  end.

Definition head_not (p : ascii -> bool) (s : string) : Prop :=
  match s with
  | EmptyString => True
  | String c _ => p c = false
  end.

Lemma exec_cat {A} r1 r2 s cs (k : string -> Re.caps -> option A) :
  Re.exec (Re.Cat r1 r2) s cs k
  = Re.exec r1 s cs (fun s' cs' => Re.exec r2 s' cs' k).
Proof. reflexivity. Qed.

Lemma exec_chr {A} p c s cs (k : string -> Re.caps -> option A) :
  Re.exec (Re.Chr p) (String c s) cs k = if p c then k s cs else None.
Proof. reflexivity. Qed.

Lemma exec_group {A} n r s cs (k : string -> Re.caps -> option A) :
  Re.exec (Re.Group n r) s cs k
  = Re.exec r s cs
      (fun s' cs' =>
         k s' ((n, PyStr.take (String.length s - String.length s') s) :: cs')).
Proof. reflexivity. Qed.

Lemma exec_lit_prefix {A} (l : string) : forall s cs
    (k : string -> Re.caps -> option A),
  Re.exec (Re.lit l) (l ++ s)%string cs k = k s cs.
Proof.
  induction l as [|c l IH]; intros s cs k; [reflexivity|].
  destruct l as [|c' l].
  - simpl. now rewrite Ascii.eqb_refl.
  - change (Re.lit (String c (String c' l)))
      with (Re.Cat (Re.Chr (Ascii.eqb c)) (Re.lit (String c' l))).
    change ((String c (String c' l) ++ s)%string)
      with (String c (String c' l ++ s)%string).
    cbn [Re.exec]. rewrite Ascii.eqb_refl. apply IH.
Qed.

Lemma star_greedy_run {A} (p : ascii -> bool)
    (k : string -> Re.caps -> option A) cs v : forall run rest,
  all_chars p run = true -> head_not p rest -> k rest cs = Some v ->
  Re.exec (Re.Star true p) (run ++ rest)%string cs k = Some v.
Proof.
  induction run as [|c run IH]; intros rest Hrun Hrest Hk.
  - destruct rest as [|c rest]; simpl in *; [exact Hk|].
    now rewrite Hrest.
  - simpl in Hrun. apply andb_prop in Hrun as [Hc Hrun].
    specialize (IH rest Hrun Hrest Hk).
    change ((String c run ++ rest)%string) with (String c (run ++ rest)%string).
    cbn [Re.exec] in *. rewrite Hc, IH. reflexivity.
Qed.

Lemma take_app_length (a b : string) :
  PyStr.take (String.length (a ++ b)%string - String.length b) (a ++ b)%string
  = a.
Proof.
  rewrite ChunkerFacts.str_length_app.
  replace (String.length a + String.length b - String.length b)
    with (String.length a) by lia.
  induction a as [|c a IH]; simpl.
  - destruct b; reflexivity.
  - now rewrite IH.
Qed.

Lemma uint_digits d : all_chars PyStr.is_digit (NilEmpty.string_of_uint d) = true.
Proof. induction d; simpl; auto. Qed.

Lemma str_of_nat_shape n :
  exists d ds, PyStr.str_of_nat n = String d ds
    /\ PyStr.is_digit d = true /\ all_chars PyStr.is_digit ds = true.
Proof.
  pose proof (uint_digits (Nat.to_uint n)) as Hd.
  pose proof (CitationFacts.int_of_str_of_nat n) as Hi.
  unfold PyStr.str_of_nat in *.
  destruct (NilEmpty.string_of_uint (Nat.to_uint n)) as [|d ds];
    [discriminate|].
  simpl in Hd. apply andb_prop in Hd as [H1 H2]. now exists d, ds.
Qed.

Lemma digit_not_space c : PyStr.is_digit c = true -> PyStr.is_space c = false.
Proof.
  unfold PyStr.is_digit, PyStr.is_space. intros H.
  apply andb_prop in H as [H1 H2].
  apply N.leb_le in H1, H2.
  destruct (N.leb_spec 9 (N_of_ascii c)), (N.leb_spec (N_of_ascii c) 13),
    (N.leb_spec 28 (N_of_ascii c)), (N.leb_spec (N_of_ascii c) 32);
    simpl; try reflexivity; lia.
Qed.

(** A text that begins with COUNT:, whitespace and the decimal form of
    [n], not followed by a further digit, reports [n]. *)
Definition reports (n : nat) (text : string) : Prop :=
  exists ws tail,
    text = ("COUNT:" ++ ws ++ PyStr.str_of_nat n ++ tail)%string
    /\ all_chars PyStr.is_space ws = true
    /\ head_not PyStr.is_digit tail.

Lemma count_in_reported n text : reports n text -> count_in text = n.
Proof.
  intros (ws & tail & -> & Hws & Htail).
  destruct (str_of_nat_shape n) as (d & ds & Hn & Hd & Hds).
  assert (Hm : Re.match_at count_pattern
                 ("COUNT:" ++ ws ++ PyStr.str_of_nat n ++ tail)%string
               = Some ([(1, PyStr.str_of_nat n)], tail)).
  { unfold Re.match_at, count_pattern.
    change (Re.seq [Re.lit "COUNT:"; Re.star PyStr.is_space;
                    Re.Group 1 (Re.plus PyStr.is_digit)])
      with (Re.Cat (Re.lit "COUNT:")
              (Re.Cat (Re.Star true PyStr.is_space)
                 (Re.Group 1 (Re.Cat (Re.Chr PyStr.is_digit)
                                (Re.Star true PyStr.is_digit))))).
    rewrite exec_cat, exec_lit_prefix, exec_cat.
    apply star_greedy_run; [exact Hws | |].
    - rewrite Hn. simpl. now apply digit_not_space.
    - rewrite exec_group, exec_cat, Hn.
      change ((String d ds ++ tail)%string) with (String d (ds ++ tail)%string).
      rewrite exec_chr, Hd.
      apply star_greedy_run; [exact Hds | exact Htail |].
      change (String d (ds ++ tail)%string) with ((String d ds ++ tail)%string).
      now rewrite take_app_length. }
  unfold count_in.
  change (("COUNT:" ++ ws ++ PyStr.str_of_nat n ++ tail)%string)
    with (String "C" ("OUNT:" ++ ws ++ PyStr.str_of_nat n ++ tail)%string)
    in *.
  cbn [Re.search]. rewrite Hm. simpl.
  now rewrite CitationFacts.int_of_str_of_nat.
Qed.

Lemma prefix_app (a b : string) : String.prefix a (a ++ b)%string = true.
Proof.
  induction a as [|c a IH]; [destruct b; reflexivity|].
  change ((String c a ++ b)%string) with (String c (a ++ b)%string).
  cbn [String.prefix]. destruct (ascii_dec c c); [exact IH | contradiction].
Qed.

Lemma merge_loop_total results : forall total examples,
  fst (merge_loop results total examples)
  = total + list_sum (map (fun r => count_in (content r)) results).
Proof.
  induction results as [|r results IH]; intros total examples; simpl;
    [lia|].
  rewrite IH. lia.
Qed.

(** X18.  When every result begins with COUNT: and a number,
    [_merge_counts] reports the sum of the numbers: its text begins
    with the Total Count line for that sum, and it lists every chunk
    index as a source. *)
Theorem merge_counts_adds_reported_counts
    (results : list ChunkResult) (counts : list nat) :
  Forall2 (fun r n => reports n (content r)) results counts ->
  PyStr.startswith
    ("**Total Count: " ++ PyStr.str_of_nat (list_sum counts) ++ "**")%string
    (agg_content (_merge_counts results)) = true
  /\ source_chunks (_merge_counts results) = map chunk_index results.
Proof.
  intros Hrep.
  assert (Hsum : list_sum (map (fun r => count_in (content r)) results)
                 = list_sum counts).
  { induction Hrep as [|r n results counts Hr _ IH]; simpl; [reflexivity|].
    now rewrite (count_in_reported n _ Hr), IH. }
  pose proof (merge_loop_total results 0 []) as Htot.
  unfold _merge_counts.
  destruct (merge_loop results 0 []) as [total examples]. simpl in Htot.
  rewrite Htot, Hsum. split; [|reflexivity].
  cbn [agg_content]. unfold PyStr.startswith.
  assert (Hre : forall a b c rest : string,
            (a ++ b ++ c ++ rest = (a ++ b ++ c) ++ rest)%string)
    by (intros; now rewrite !CitationFacts.str_app_assoc).
  rewrite Hre. apply prefix_app.
Qed.

(** *** Concrete runs *)

Definition four_results : list ChunkResult :=
  AggregatorFacts.three_results ++ [AggregatorFacts.result_of 3 "delta"].

Definition traced_start : state :=
  init_state (Some (Trace.new_trace "what happened")).

Definition summary_result : AggregationResult :=
  {| agg_content := "answer 0"; strategy_used := SUMMARIZE;
     levels_of_aggregation := 1; agg_tokens_used := 10;
     source_chunks := [0; 1; 2; 3] |}.

Definition count_results : list ChunkResult :=
  [ AggregatorFacts.result_of 0 ("COUNT: 3" ++ PyStr.nl ++ "- first")%string;
    AggregatorFacts.result_of 1 "COUNT:12" ].

Lemma hierarchical_aggregation_returns_witness :
  exists r,
    fst (_hierarchical_aggregate (mkAggregator true 1000 2)
           ExecutorFacts.ten_tokens 4 four_results
           (ExecutorFacts.plan_for true) (init_state None)) = Done r
    /\ strategy_used r = HIERARCHICAL
    /\ source_chunks r = map chunk_index four_results
    /\ 1 <= levels_of_aggregation r.
Proof.
  apply (hierarchical_aggregation_returns (mkAggregator true 1000 2)
           ExecutorFacts.ten_tokens 4 four_results
           (ExecutorFacts.plan_for true) (init_state None)).
  - reflexivity.
  - simpl. lia.
  - simpl. lia.
Defined.

Lemma hierarchical_aggregation_one_per_level_never_ends_witness :
  fst (_hierarchical_aggregate (mkAggregator true 1000 1)
         ExecutorFacts.ten_tokens 50 four_results
         (ExecutorFacts.plan_for true) (init_state None)) = Timeout.
Proof.
  apply (hierarchical_aggregation_one_per_level_never_ends
           (mkAggregator true 1000 1) ExecutorFacts.ten_tokens 50
           four_results (ExecutorFacts.plan_for true) (init_state None)).
  - reflexivity.
  - reflexivity.
  - simpl. lia.
Defined.

Lemma aggregate_sources_and_trace_tokens_witness :
  source_chunks summary_result
  = map chunk_index (List.filter is_relevant four_results)
  /\ trace_grows (Z.of_nat (agg_tokens_used summary_result)) traced_start
       (snd (aggregate (mkAggregator true 1000 10) ExecutorFacts.ten_tokens
               4 four_results (ExecutorFacts.plan_for true) traced_start)).
Proof.
  apply (aggregate_sources_and_trace_tokens (mkAggregator true 1000 10)
           ExecutorFacts.ten_tokens 4 four_results
           (ExecutorFacts.plan_for true) traced_start summary_result).
  vm_compute. reflexivity.
Defined.

Lemma aggregate_without_completion_witness :
  exists r,
    fst (aggregate (mkAggregator false 1000 10) ExecutorFacts.ten_tokens
           4 four_results (ExecutorFacts.plan_for true) traced_start)
    = Done r
    /\ llm_calls
         (snd (aggregate (mkAggregator false 1000 10)
                 ExecutorFacts.ten_tokens 4 four_results
                 (ExecutorFacts.plan_for true) traced_start))
       = llm_calls traced_start
    /\ agg_tokens_used r = 0
    /\ (strategy_used r = CONCATENATE \/ strategy_used r = MERGE).
Proof.
  apply (aggregate_without_completion (mkAggregator false 1000 10)
           ExecutorFacts.ten_tokens 4 four_results
           (ExecutorFacts.plan_for true) traced_start).
  left. reflexivity.
Defined.

Lemma merge_counts_adds_reported_counts_witness :
  PyStr.startswith
    ("**Total Count: " ++ PyStr.str_of_nat (list_sum [3; 12]) ++ "**")%string
    (agg_content (_merge_counts count_results)) = true
  /\ source_chunks (_merge_counts count_results)
     = map chunk_index count_results.
Proof.
  apply (merge_counts_adds_reported_counts count_results [3; 12]).
  repeat constructor.
  - exists " "%string, (PyStr.nl ++ "- first")%string.
    repeat split; reflexivity.
  - exists EmptyString, EmptyString. repeat split; reflexivity.
Defined.

End AggregatorCoverage.

(** ** More on citations *)

Module CitationCoverage.
Import Citation.
Local Open Scope list_scope.

(** *** Merging *)

(** The sort key of [merge_citations]: chunk index, then record
    index. *)
Definition before (a b : Citation) : Prop :=
  chunk_index a < chunk_index b
  \/ (chunk_index a = chunk_index b /\ record_index a <= record_index b).

Lemma citation_le_before a b : citation_le a b = true <-> before a b.
Proof.
  unfold citation_le, before.
  rewrite orb_true_iff, andb_true_iff, Nat.ltb_lt, Nat.eqb_eq, Nat.leb_le.
  reflexivity.
Qed.

Lemma before_total a b : before a b \/ before b a.
Proof. unfold before. lia. Qed.

Lemma before_trans a b c : before a b -> before b c -> before a c.
Proof. unfold before. lia. Qed.

Lemma insert_sorted_before x l :
  Sorted before l -> Sorted before (PyList.insert_sorted citation_le x l).
Proof.
  induction l as [|y l IH]; intros Hs; simpl.
  - repeat constructor.
  - destruct (citation_le x y) eqn:Hxy.
    + constructor; [exact Hs|]. constructor. now apply citation_le_before.
    + assert (Hyx : before y x).
      { destruct (before_total x y) as [H|H]; [|exact H].
        apply citation_le_before in H. congruence. }
      apply Sorted_inv in Hs as [Hs Hhd].
      constructor; [now apply IH|].
      destruct l as [|z l]; simpl.
      * now constructor.
      * destruct (citation_le x z); constructor; [exact Hyx|].
        now apply HdRel_inv in Hhd.
Qed.

Lemma sorted_by_before l : Sorted before (PyList.sorted_by citation_le l).
Proof.
  induction l as [|x l IH]; simpl; [constructor|].
  now apply insert_sorted_before.
Qed.

Lemma dedup_off cs seen : dedup false cs seen = cs.
Proof.
  revert seen. induction cs as [|c cs IH]; intros seen; simpl;
    [reflexivity | now rewrite IH].
Qed.

Lemma dedup_spec cs : forall seen,
  NoDup (map quote_key (dedup true cs seen))
  /\ (forall c, In c (dedup true cs seen) ->
                (quote_key c ∉ seen) /\ In c cs)
  /\ (forall c, In c cs ->
                quote_key c ∈ seen
                \/ exists c', In c' (dedup true cs seen)
                              /\ quote_key c' = quote_key c).
Proof.
  induction cs as [|c cs IH]; intros seen; simpl.
  - split; [constructor|]. split; [contradiction | contradiction].
  - destruct (bool_decide_reflect (quote_key c ∈ seen)) as [Hin|Hnin]; simpl.
    + destruct (IH seen) as (Hnd & Hout & Hcov).
      split; [exact Hnd|]. split.
      * intros c' Hc'. destruct (Hout c' Hc'). auto.
      * intros c' [<-|Hc']; [now left | now apply Hcov].
    + destruct (IH ({[quote_key c]} ∪ seen)) as (Hnd & Hout & Hcov).
      split; [|split].
      * constructor; [|exact Hnd]. intros Hk.
        apply list_elem_of_In, in_map_iff in Hk as (c' & Hkey & Hc').
        destruct (Hout c' Hc') as [Hfresh _]. apply Hfresh.
        rewrite Hkey. apply elem_of_union_l, elem_of_singleton. reflexivity.
      * intros c' [<-|Hc']; [auto|].
        destruct (Hout c' Hc') as [Hfresh Hcs].
        split; [|auto]. intros Hs. apply Hfresh.
        apply elem_of_union_r. exact Hs.
      * intros c' [<-|Hc'].
        { right. exists c. auto. }
        destruct (Hcov c' Hc') as [Hseen|(c'' & Hc'' & Hkey)].
        -- apply elem_of_union in Hseen as [Hone|Hseen]; [|now left].
           apply elem_of_singleton in Hone.
           right. exists c. split; [now left | now symmetry].
        -- right. exists c''. auto.
Qed.


(** X19.  [merge_citations] with deduplication returns citations
    in ascending (chunk index, record index) order whose normalised
    quotes (lower-cased, stripped, first 100 characters) are pairwise
    distinct; every one of them is an input citation and every input
    citation's normalised quote is kept once.  Without deduplication
    the result is a reordering of all the input citations. *)
Theorem merge_citations_sorted_and_unique
    (chunk_citations : list (list Citation)) :
  let merged := merge_citations chunk_citations true in
  StronglySorted before merged
  /\ NoDup (map quote_key merged)
  /\ (forall c, In c merged -> In c (concat chunk_citations))
  /\ (forall c, In c (concat chunk_citations) ->
                exists c', In c' merged /\ quote_key c' = quote_key c)
  /\ Permutation (merge_citations chunk_citations false)
                 (concat chunk_citations).
Proof.
  intros merged. unfold merged, merge_citations.
  destruct (dedup_spec (concat chunk_citations) ∅) as (Hnd & Hout & Hcov).
  pose proof (ChunkerCoverage.sorted_by_perm citation_le
                (dedup true (concat chunk_citations) ∅)) as Hperm.
  split; [|split; [|split; [|split]]].
  - apply Sorted_StronglySorted; [|apply sorted_by_before].
    intros a b c. apply before_trans.
  - apply NoDup_ListNoDup.
    eapply Permutation_NoDup; [|apply NoDup_ListNoDup; exact Hnd].
    apply Permutation_map. now symmetry.
  - intros c Hc. apply Hout. eapply Permutation_in; [exact Hperm | exact Hc].
  - intros c Hc. destruct (Hcov c Hc) as [Hseen|(c' & Hc' & Hkey)].
    + exfalso. revert Hseen. apply not_elem_of_empty.
    + exists c'. split; [|exact Hkey].
      eapply Permutation_in; [symmetry; exact Hperm | exact Hc'].
  - rewrite dedup_off. apply ChunkerCoverage.sorted_by_perm.
Qed.

(** *** Extraction *)

Lemma fallback_spec ms ci fp :
  Forall (fun c => chunk_index c = ci /\ file_path c = fp)
         (fallback ms ci fp)
  /\ sublist (map record_index (fallback ms ci fp)) (map fst ms).
Proof.
  induction ms as [|[i [cs rest]] ms [IH1 IH2]]; simpl.
  - split; constructor.
  - destruct (10 <? String.length (PyStr.strip (Re.group 1 cs)))%nat; simpl.
    + split; [constructor; [split; reflexivity | exact IH1]|].
      now constructor.
    + split; [exact IH1 | now constructor].
Qed.

Lemma structured_spec ms ci fp : forall k,
  Forall (fun c => chunk_index c = ci /\ file_path c = fp)
         (structured ms ci k fp).
Proof.
  induction ms as [|m ms IH]; intros k; simpl; constructor; [|apply IH].
  unfold citation_of_match. destruct m as [cs rest].
  destruct (parse_source _ _) as [[au ts] ch]. split; reflexivity.
Qed.


Lemma enumerate_fst_seq {A} (l : list A) : forall i,
  map fst (PyList.enumerate_from i l) = seq i (length l).
Proof.
  induction l as [|x l IH]; intros i; simpl; [reflexivity|].
  now rewrite IH.
Qed.

Lemma reference_ids_distinct ci (cs : list Citation) :
  Forall (fun c => chunk_index c = ci) cs ->
  NoDup (map record_index cs) ->
  NoDup (map reference_id cs).
Proof.
  rewrite !NoDup_ListNoDup.
  induction cs as [|c cs IH]; intros Hci Hnd; simpl; [constructor|].
  inversion Hci as [|? ? Hc Hcs]; subst.
  inversion Hnd as [|? ? Hnotin Hnd']; subst.
  constructor; [|now apply IH].
  intros Hin. apply Hnotin.
  apply in_map_iff in Hin as (c' & Hid & Hc').
  apply in_map_iff. exists c'. split; [|exact Hc'].
  pose proof (CitationFacts.parse_reference_id c) as H1.
  pose proof (CitationFacts.parse_reference_id c') as H2.
  rewrite Hid in H2. rewrite H1 in H2. now injection H2.
Qed.

(** X20.  Every citation extracted from a chunk's response carries
    the chunk index and file path passed in, its reference id parses
    back to that chunk index and its record index, and the reference
    ids of one extraction are pairwise distinct. *)
Theorem extracted_citations_are_addressable
    (response : string) (ci : nat) (fp : option string) :
  let cs := extract_from_response response ci fp in
  Forall (fun c => chunk_index c = ci /\ file_path c = fp
                   /\ parse_reference (reference_id c)
                      = Some (ci, record_index c)) cs
  /\ NoDup (map reference_id cs).
Proof.
  intros cs.
  assert (H : Forall (fun c => chunk_index c = ci /\ file_path c = fp) cs
              /\ NoDup (map record_index cs)).
  { unfold cs, extract_from_response.
    pose proof (structured_spec (Re.finditer finding_pattern response)
                  ci fp 0) as Hs.
    pose proof (CitationFacts.structured_record_index
                  (Re.finditer finding_pattern response) ci fp 0) as Hr.
    destruct (structured _ ci 0 fp) as [|c0 cs0].
    - destruct (fallback_spec
                  (PyList.enumerate_from 0
                     (Re.finditer blockquote_pattern response)) ci fp)
        as [Hf Hsub].
      split; [exact Hf|].
      eapply sublist_NoDup; [|exact Hsub].
      rewrite enumerate_fst_seq. apply NoDup_seq.
    - split; [exact Hs|]. rewrite Hr. apply NoDup_seq. }
  destruct H as [Hci Hnd]. split.
  - eapply Forall_impl; [exact Hci|]. intros c [Hc Hf].
    split; [exact Hc|]. split; [exact Hf|].
    rewrite CitationFacts.parse_reference_id. now rewrite Hc.
  - apply (reference_ids_distinct ci); [|exact Hnd].
    eapply Forall_impl; [exact Hci|]. now intros c [Hc _].
Qed.

(** *** Verification *)

Section Verification.
Variable str_of_record : Chunker.record -> string.




End Verification.

End CitationCoverage.

(** ** Citations of a query *)

Module CoreCoverage.
Import Core.
Local Open Scope list_scope.






Section Facts.
Variable _file_path : option string.
Variable _data : list Chunker.record.
Variable content_field : option string.
Variable str_of_record : Chunker.record -> string.

Local Abbreviation extract_and_verify :=
  (_extract_and_verify_citations _file_path _data content_field
                                 str_of_record).


End Facts.

End CoreCoverage.

(** ** More on planning *)

Module PlannerCoverage.
Import Planner QueryPlanner.
Local Open Scope list_scope.

Section Facts.
Variable schema : Chunker.JsonSchema.
Variable _generate_chunk_prompt : string -> QueryIntent -> string.
Variable _generate_aggregate_prompt : string -> QueryIntent -> string.
Variable _estimate_chunks : FilterCriteria -> option nat.

Local Abbreviation the_plan :=
  (plan schema _generate_chunk_prompt _generate_aggregate_prompt
        _estimate_chunks).

Definition scans_always (i : QueryIntent) : Prop :=
  i = COUNT \/ i = EXHAUSTIVE_EXTRACT \/ i = COMPARE.

(** X27.  The plan made for a query has the detected intent; it
    requires a full scan for count, exhaustive and compare queries and
    otherwise exactly when no keyword, channel or author filter was
    found, in which case every chunk passes the executor's filter;
    the chunks the executor then takes up are all those passing the
    filter under a full scan, and the first 100 of them otherwise; and
    only timeline plans forbid the parallel path. *)
Theorem plan_decides_scan_and_limit
    (query : string) (chunks : list Chunker.Chunk) :
  let p := the_plan query in
  let passing := Executor._filter_chunks chunks (filter_criteria p) in
  intent p = _detect_intent query
  /\ (scans_always (intent p) -> require_full_scan p = true)
  /\ (require_full_scan p = true -> ~ scans_always (intent p) ->
      passing = chunks)
  /\ ExecutorMore.selected p chunks
     = (if require_full_scan p then passing else firstn 100 passing)
  /\ (parallel_ok p = false <-> intent p = TIMELINE).
Proof.
  cbv zeta. split; [reflexivity|]. split; [|split; [|split]].
  - unfold plan, scans_always. cbn [intent require_full_scan].
    intros [-> | [-> | ->]]; reflexivity.
  - unfold plan, scans_always.
    cbn [intent require_full_scan filter_criteria].
    unfold _requires_full_scan, Executor._filter_chunks.
    intros Hfull Hnot.
    destruct (_detect_intent query); try (exfalso; apply Hnot; tauto);
      (destruct (keywords (_extract_filters schema query)) eqn:Hk;
       [|discriminate]);
      apply andb_true_iff in Hfull as [Hc Ha];
      unfold str_set in Hc, Ha; unfold Executor.truthy_str;
      rewrite Hc, Ha; reflexivity.
  - unfold ExecutorMore.selected, plan.
    cbn [chunk_limit require_full_scan filter_criteria].
    destruct (_requires_full_scan _ _); reflexivity.
  - unfold plan. cbn [parallel_ok intent].
    rewrite negb_false_iff, bool_decide_eq_true. reflexivity.
Qed.

End Facts.

(** *** Quoted phrases *)

Definition dq : string := String (ascii_of_nat 34) EmptyString.

Definition no_dquote (s : string) : bool :=
  AggregatorCoverage.all_chars (fun c => negb (is_dquote c)) s.

Lemma match_quoted_none s :
  AggregatorCoverage.head_not is_dquote s ->
  Re.match_at quoted_pattern s = None.
Proof.
  unfold Re.match_at, quoted_pattern. intros H.
  change (Re.seq [Re.Chr is_dquote;
                  Re.Group 1 (Re.plus (fun c => negb (is_dquote c)));
                  Re.Chr is_dquote])
    with (Re.Cat (Re.Chr is_dquote)
            (Re.Cat (Re.Group 1 (Re.plus (fun c => negb (is_dquote c))))
                    (Re.Chr is_dquote))).
  rewrite AggregatorCoverage.exec_cat.
  destruct s as [|c s]; [reflexivity|].
  rewrite AggregatorCoverage.exec_chr. simpl in H. now rewrite H.
Qed.

Lemma match_quoted phrase post :
  no_dquote phrase = true -> phrase <> EmptyString ->
  Re.match_at quoted_pattern (dq ++ phrase ++ dq ++ post)%string
  = Some ([(1, phrase)], post).
Proof.
  intros Hph Hne. unfold Re.match_at, quoted_pattern.
  change (Re.seq [Re.Chr is_dquote;
                  Re.Group 1 (Re.plus (fun c => negb (is_dquote c)));
                  Re.Chr is_dquote])
    with (Re.Cat (Re.Chr is_dquote)
            (Re.Cat (Re.Group 1
                       (Re.Cat (Re.Chr (fun c => negb (is_dquote c)))
                               (Re.Star true (fun c => negb (is_dquote c)))))
                    (Re.Chr is_dquote))).
  change ((dq ++ phrase ++ dq ++ post)%string)
    with (String (ascii_of_nat 34) (phrase ++ dq ++ post)%string).
  rewrite AggregatorCoverage.exec_cat, AggregatorCoverage.exec_chr.
  change (is_dquote (ascii_of_nat 34)) with true. cbv iota.
  rewrite AggregatorCoverage.exec_cat, AggregatorCoverage.exec_group,
    AggregatorCoverage.exec_cat.
  destruct phrase as [|c phrase]; [contradiction|].
  unfold no_dquote in Hph. simpl in Hph.
  apply andb_prop in Hph as [Hc Hph].
  change ((String c phrase ++ dq ++ post)%string)
    with (String c (phrase ++ dq ++ post)%string).
  rewrite AggregatorCoverage.exec_chr, Hc.
  apply AggregatorCoverage.star_greedy_run; [exact Hph | reflexivity |].
  cbv beta.
  change (String c (phrase ++ dq ++ post)%string)
    with ((String c phrase ++ (dq ++ post))%string).
  rewrite AggregatorCoverage.take_app_length.
  change ((dq ++ post)%string) with (String (ascii_of_nat 34) post).
  rewrite AggregatorCoverage.exec_chr. reflexivity.
Qed.

Lemma finditer_quoted pre phrase post : forall skip,
  skip = 0 ->
  no_dquote pre = true -> no_dquote phrase = true ->
  phrase <> EmptyString ->
  exists more,
    Re.finditer_aux quoted_pattern (pre ++ dq ++ phrase ++ dq ++ post)%string
                    skip
    = ([(1, phrase)], post) :: more.
Proof.
  intros skip ->. induction pre as [|c pre IH]; intros Hpre Hph Hne.
  - change ((EmptyString ++ dq ++ phrase ++ dq ++ post)%string)
      with ((dq ++ phrase ++ dq ++ post)%string).
    pose proof (match_quoted phrase post Hph Hne) as Hm.
    change ((dq ++ phrase ++ dq ++ post)%string)
      with (String (ascii_of_nat 34) (phrase ++ dq ++ post)%string) in *.
    cbn [Re.finditer_aux]. rewrite Hm. eexists. reflexivity.
  - unfold no_dquote in Hpre. simpl in Hpre.
    apply andb_prop in Hpre as [Hc Hpre].
    change ((String c pre ++ dq ++ phrase ++ dq ++ post)%string)
      with (String c (pre ++ dq ++ phrase ++ dq ++ post)%string).
    cbn [Re.finditer_aux].
    rewrite match_quoted_none by (simpl; now apply negb_true_iff).
    apply IH; assumption.
Qed.

(** X28.  A phrase the query holds between double quotes (the first
    such phrase, not empty) becomes the first keyword of the filter
    criteria, as written in the query; the keywords taken from the
    words of the query are then not used. *)
Theorem quoted_phrase_is_first_keyword
    (schema : Chunker.JsonSchema) (pre phrase post : string) :
  no_dquote pre = true -> no_dquote phrase = true ->
  phrase <> EmptyString ->
  exists rest,
    keywords (_extract_filters schema
                (pre ++ dq ++ phrase ++ dq ++ post)%string)
    = phrase :: rest.
Proof.
  intros Hpre Hph Hne.
  destruct (finditer_quoted pre phrase post 0 eq_refl Hpre Hph Hne)
    as [more Hfind].
  unfold _extract_filters. cbn [keywords]. unfold Re.finditer.
  rewrite Hfind. cbn [map fst].
  destruct (group1 _) as [about|]; eexists; reflexivity.
Qed.

Definition slack_like : Chunker.JsonSchema :=
  Chunker.mkSchema Chunker.SLACK None None.

Lemma quoted_phrase_is_first_keyword_witness :
  exists rest,
    keywords (_extract_filters slack_like
                ("find " ++ dq ++ "Pricing Page" ++ dq
                 ++ " issues by @Bob")%string)
    = "Pricing Page"%string :: rest.
Proof.
  apply (quoted_phrase_is_first_keyword slack_like "find " "Pricing Page"
           " issues by @Bob").
  - reflexivity.
  - reflexivity.
  - discriminate.
Defined.

End PlannerCoverage.
